(** * Tasmota IR integration: command encoding and device client

    A shallow embedding of the Home Assistant integration under
    [custom_components/] (fan.py, climate.py, button.py, remote.py) and
    the properties of its command encoder and device client.

    Python values are modelled as follows.
    - [str] is a sequence of Unicode code points ([list N]).
    - [int] is [Z].
    - a [dict] used as a map is a [gmap]; a [dict] whose insertion order
      is observable (it is serialised by [json.dumps]) is an association
      list.
    - an [async def] is a computation in a state-and-exception monad over
      the entity object and the trace of its observable effects (log
      records and outbound HTTP requests); [await] is sequencing, since
      the host serialises the commands of one entity. *)

From Stdlib Require Import ZArith NArith List Lia String Ascii.
From Stdlib Require Import Floats.SpecFloat.
From stdpp Require Import gmap list.

Local Open Scope N_scope.

(** ** Python strings *)

Module Py.

Abbreviation str := (list N).

(** An ASCII literal of the source, as a [str]. *)
Definition lit (s : string) : str :=
  List.map N_of_ascii (list_ascii_of_string s).

(** Code points of a Python [str] lie below [0x110000]. *)
Definition is_code_point (c : N) : bool := c <? 0x110000.

Definition is_high_surrogate (c : N) : bool := (0xD800 <=? c) && (c <=? 0xDBFF).
Definition is_low_surrogate (c : N) : bool := (0xDC00 <=? c) && (c <=? 0xDFFF).
Definition is_surrogate (c : N) : bool := (0xD800 <=? c) && (c <=? 0xDFFF).

(** *** [str(int)] *)

Fixpoint digits_aux (fuel : nat) (n : N) (acc : str) : str :=
  match fuel with
  | O => acc
  | S fuel' =>
      let acc' := (48 + n mod 10) :: acc in
      if n <? 10 then acc' else digits_aux fuel' (n / 10) acc'
  end.

(** Decimal digits of a natural number, most significant first. The
    number of bits bounds the number of decimal digits. *)
Definition str_of_N (n : N) : str :=
  digits_aux (S (N.to_nat (N.log2 n))) n [].

(** [str(z)] for an [int]. *)
Definition str_of_int (z : Z) : str :=
  if (z <? 0)%Z then 45 :: str_of_N (Z.abs_N z) else str_of_N (Z.to_N z).

(** *** [round(m / d)] on integers [m], [d > 0]

    Python evaluates [m / d] as the binary64 float nearest to the
    quotient and [round] sends a float to the nearest integer, ties to
    the even one. Every integer and half-integer below [2^52] is a
    binary64 value and rounding to binary64 is monotone, so for
    [d = 100] and [|m| < 2^52] the float lies on the same side of every
    half-integer as the exact quotient, and [round (m / d)] is the
    nearest integer of the exact quotient, ties to even. *)
Definition round_div (m d : Z) : Z :=
  let q := (m / d)%Z in
  let r := (m mod d)%Z in
  if (2 * r <? d)%Z then q
  else if (d <? 2 * r)%Z then (q + 1)%Z
  else if Z.even q then q else (q + 1)%Z.

(** *** The same computation on binary64

    [float(z)], [x / y] and [round(x)] on floats in the integer
    representation of [SpecFloat], with the precision and the exponent
    range of binary64. [round] of an infinity or a NaN raises. *)
Definition float_of_int (z : Z) : spec_float := binary_normalize 53 1024 z 0 false.

Definition float_div (x y : spec_float) : spec_float := SFdiv 53 1024 x y.

Definition round_float (x : spec_float) : option Z :=
  match x with
  | S754_zero _ => Some 0%Z
  | S754_finite s m e =>
      let sm := if s then Z.neg m else Z.pos m in
      Some (if (0 <=? e)%Z then (sm * 2 ^ e)%Z else round_div sm (2 ^ (- e)))
  | S754_infinity _ | S754_nan => None
  end.

(** *** Values found in the imported configuration and sent as JSON *)

Inductive pyval :=
| PNone
| PBool (b : bool)
| PInt (z : Z)
| PStr (s : str).

(** A [dict] with string keys whose order does not matter. *)
Abbreviation dict := (gmap (list N) pyval).

(** [d.get(k, default)] *)
Definition dict_get (d : dict) (k : str) (default : pyval) : pyval :=
  match d !! k with
  | Some v => v
  | None => default
  end.

(** Numbers that reach [async_set_temperature]: an [int] or a [float]
    (a binary64 value, in the integer representation of [SpecFloat]). *)
Inductive pynum :=
| NumInt (z : Z)
| NumFloat (f : spec_float).

End Py.
Import Py.

(** ** [json.dumps] with [separators=(',', ':')] and its inverse *)

Module Json.

Definition hex_digit_lower (n : N) : N := if n <? 10 then 48 + n else 87 + n.

(** ['{0:04x}'.format(n)] for [n < 0x10000]. *)
Definition hex4 (n : N) : str :=
  [hex_digit_lower (n / 4096 mod 16); hex_digit_lower (n / 256 mod 16);
   hex_digit_lower (n / 16 mod 16); hex_digit_lower (n mod 16)].

Definition u_escape (n : N) : str := 92 :: 117 :: hex4 n.

(** The replacement [json.encoder] applies to one character when
    [ensure_ascii] holds (the default): [ESCAPE_DCT] for the quote, the
    backslash and the short control escapes, the character itself inside
    [' '..'~'], [\uXXXX] otherwise, as a surrogate pair above the BMP. *)
Definition escape_char (c : N) : str :=
  if c =? 92 then [92; 92]
  else if c =? 34 then [92; 34]
  else if c =? 8 then [92; 98]
  else if c =? 12 then [92; 102]
  else if c =? 10 then [92; 110]
  else if c =? 13 then [92; 114]
  else if c =? 9 then [92; 116]
  else if (32 <=? c) && (c <=? 126) then [c]
  else if c <? 0x10000 then u_escape c
  else
    let n := c - 0x10000 in
    u_escape (N.lor 0xd800 (N.land (N.shiftr n 10) 0x3ff))
      ++ u_escape (N.lor 0xdc00 (N.land n 0x3ff)).

Definition encode_basestring_ascii (s : str) : str :=
  34 :: flat_map escape_char s ++ [34].

Definition dumps_value (v : pyval) : str :=
  match v with
  | PNone => lit "null"
  | PBool true => lit "true"
  | PBool false => lit "false"
  | PInt z => str_of_int z
  | PStr s => encode_basestring_ascii s
  end.

Definition dumps_item (kv : str * pyval) : str :=
  encode_basestring_ascii kv.1 ++ 58 :: dumps_value kv.2.

Fixpoint dumps_items (items : list (str * pyval)) : str :=
  match items with
  | [] => []
  | [kv] => dumps_item kv
  | kv :: rest => dumps_item kv ++ 44 :: dumps_items rest
  end.

(** [json.dumps(d, separators=(',', ':'))] for a [dict] [d] with string
    keys, given as its items in insertion order. *)
Definition json_dumps (items : list (str * pyval)) : str :=
  123 :: dumps_items items ++ [125].

(** *** [json.loads], restricted to flat objects of scalars *)

Definition hex_val (c : N) : option N :=
  if (48 <=? c) && (c <=? 57) then Some (c - 48)
  else if (97 <=? c) && (c <=? 102) then Some (c - 87)
  else if (65 <=? c) && (c <=? 70) then Some (c - 55)
  else None.

Definition decode_uXXXX (h1 h2 h3 h4 : N) : option N :=
  a ← hex_val h1; b ← hex_val h2; c ← hex_val h3; d ← hex_val h4;
  Some (((a * 16 + b) * 16 + c) * 16 + d).

Definition unescape (e : N) : option N :=
  if e =? 34 then Some 34
  else if e =? 92 then Some 92
  else if e =? 47 then Some 47
  else if e =? 98 then Some 8
  else if e =? 102 then Some 12
  else if e =? 110 then Some 10
  else if e =? 114 then Some 13
  else if e =? 116 then Some 9
  else None.

Definition cons_fst (c : N) (r : option (str * str)) : option (str * str) :=
  match r with
  | Some (s, rest) => Some (c :: s, rest)
  | None => None
  end.

(** [scanstring] in strict mode, from just after the opening quote:
    the decoded string and the input after the closing quote. A
    [\uXXXX] high surrogate directly followed by a [\uXXXX] low
    surrogate is joined into one code point. *)
Fixpoint scanstring (s : str) : option (str * str) :=
  match s with
  | [] => None
  | c :: s1 =>
      if c =? 34 then Some ([], s1)
      else if c =? 92 then
        match s1 with
        | [] => None
        | e :: s2 =>
            if e =? 117 then
              match s2 with
              | h1 :: h2 :: h3 :: h4 :: s3 =>
                  match decode_uXXXX h1 h2 h3 h4 with
                  | None => None
                  | Some uni =>
                      if is_high_surrogate uni then
                        match s3 with
                        | b :: u :: s3' =>
                            if (b =? 92) && (u =? 117) then
                              match s3' with
                              | l1 :: l2 :: l3 :: l4 :: s4 =>
                                  match decode_uXXXX l1 l2 l3 l4 with
                                  | None => None
                                  | Some uni2 =>
                                      if is_low_surrogate uni2 then
                                        cons_fst
                                          (0x10000 +
                                             N.lor (N.shiftl (uni - 0xd800) 10)
                                                   (uni2 - 0xdc00))
                                          (scanstring s4)
                                      else cons_fst uni (scanstring s3)
                                  end
                              | _ => None
                              end
                            else cons_fst uni (scanstring s3)
                        | _ => cons_fst uni (scanstring s3)
                        end
                      else cons_fst uni (scanstring s3)
                  end
              | _ => None
              end
            else
              match unescape e with
              | Some c' => cons_fst c' (scanstring s2)
              | None => None
              end
        end
      else if c <? 32 then None
      else cons_fst c (scanstring s1)
  end.

Definition is_digit (c : N) : bool := (48 <=? c) && (c <=? 57).

Fixpoint scan_digits (acc : N) (s : str) : N * str :=
  match s with
  | c :: s' => if is_digit c then scan_digits (acc * 10 + (c - 48)) s' else (acc, s)
  | [] => (acc, [])
  end.

(** A number that continues with a fraction or an exponent is a float;
    floats are outside this fragment. *)
Definition starts_float_tail (s : str) : bool :=
  match s with
  | c :: _ => (c =? 46) || (c =? 101) || (c =? 69)
  | [] => false
  end.

Definition scan_nat (s : str) : option (N * str) :=
  match s with
  | c :: s1 =>
      if c =? 48 then Some (0, s1)
      else if is_digit c then Some (scan_digits 0 s)
      else None
  | [] => None
  end.

(** [NUMBER_RE] without fraction and exponent: an optional minus sign,
    then a single zero or a non-zero digit followed by digits. *)
Definition scan_int (s : str) : option (Z * str) :=
  match s with
  | c :: s1 =>
      let neg := c =? 45 in
      match scan_nat (if neg then s1 else s) with
      | Some (n, rest) =>
          if starts_float_tail rest then None
          else Some (if neg then (- Z.of_N n)%Z else Z.of_N n, rest)
      | None => None
      end
  | [] => None
  end.

Fixpoint strip_lit (l s : str) : option str :=
  match l, s with
  | [], _ => Some s
  | a :: l', b :: s' => if a =? b then strip_lit l' s' else None
  | _ :: _, [] => None
  end.

(** [scan_once] on scalars. *)
Definition scan_value (s : str) : option (pyval * str) :=
  match s with
  | c :: s1 =>
      if c =? 34 then '(x, rest) ← scanstring s1; Some (PStr x, rest)
      else if c =? 110 then rest ← strip_lit (lit "ull") s1; Some (PNone, rest)
      else if c =? 116 then rest ← strip_lit (lit "rue") s1; Some (PBool true, rest)
      else if c =? 102 then rest ← strip_lit (lit "alse") s1; Some (PBool false, rest)
      else '(z, rest) ← scan_int s; Some (PInt z, rest)
  | [] => None
  end.

Definition is_ws (c : N) : bool :=
  (c =? 32) || (c =? 9) || (c =? 10) || (c =? 13).

Fixpoint skip_ws (s : str) : str :=
  match s with
  | c :: s' => if is_ws c then skip_ws s' else s
  | [] => []
  end.

(** The members of an object, from just after the opening quote of a
    key, up to and including the closing brace. *)
Fixpoint scan_members (fuel : nat) (s : str) : option (list (str * pyval) * str) :=
  match fuel with
  | O => None
  | S fuel' =>
      '(key, s1) ← scanstring s;
      match skip_ws s1 with
      | c :: s2 =>
          if c =? 58 then
            '(value, s3) ← scan_value (skip_ws s2);
            match skip_ws s3 with
            | d :: s4 =>
                if d =? 125 then Some ([(key, value)], s4)
                else if d =? 44 then
                  match skip_ws s4 with
                  | q :: s5 =>
                      if q =? 34 then
                        '(more, rest) ← scan_members fuel' s5;
                        Some ((key, value) :: more, rest)
                      else None
                  | [] => None
                  end
                else None
            | [] => None
            end
          else None
      | [] => None
      end
  end.

(** [JSONObject], from just after the opening brace. Every member
    consumes input, so the length of the input is enough fuel. *)
Definition scan_object (s : str) : option (list (str * pyval) * str) :=
  match skip_ws s with
  | c :: s1 =>
      if c =? 125 then Some ([], s1)
      else if c =? 34 then scan_members (length s) s1
      else None
  | [] => None
  end.

(** [json.loads] on a text holding one flat object: its members in
    the order of the text ([None] stands for [JSONDecodeError] or a
    document outside the fragment). *)
Definition json_loads (s : str) : option (list (str * pyval)) :=
  match skip_ws s with
  | c :: s1 =>
      if c =? 123 then
        '(obj, rest) ← scan_object s1;
        match skip_ws rest with
        | [] => Some obj
        | _ :: _ => None
        end
      else None
  | [] => None
  end.

End Json.

(** ** [urllib.parse.quote] and percent-decoding *)

Module Url.

Definition is_surrogate_free_scalar (c : N) : bool :=
  is_code_point c && negb (is_surrogate c).

(** [chr(c).encode('utf-8')] with [errors='strict']: a surrogate cannot
    be encoded ([None] stands for [UnicodeEncodeError]). *)
Definition utf8_encode (c : N) : option (list N) :=
  if c <? 0x80 then Some [c]
  else if c <? 0x800 then Some [0xC0 + c / 64; 0x80 + c mod 64]
  else if c <? 0x10000 then
    if is_surrogate c then None
    else Some [0xE0 + c / 4096; 0x80 + c / 64 mod 64; 0x80 + c mod 64]
  else if c <? 0x110000 then
    Some [0xF0 + c / 262144; 0x80 + c / 4096 mod 64;
          0x80 + c / 64 mod 64; 0x80 + c mod 64]
  else None.

Fixpoint utf8_encode_str (s : str) : option (list N) :=
  match s with
  | [] => Some []
  | c :: s' => bs ← utf8_encode c; r ← utf8_encode_str s'; Some (bs ++ r)
  end.

Definition is_upper (b : N) : bool := (65 <=? b) && (b <=? 90).
Definition is_lower (b : N) : bool := (97 <=? b) && (b <=? 122).

(** [_ALWAYS_SAFE]: letters, digits and [_.-~]. *)
Definition is_always_safe (b : N) : bool :=
  is_upper b || is_lower b || Json.is_digit b
  || (b =? 95) || (b =? 46) || (b =? 45) || (b =? 126).

Definition hex_digit_upper (n : N) : N := if n <? 10 then 48 + n else 55 + n.

(** ['%{:02X}'.format(b)] *)
Definition percent (b : N) : str :=
  [37; hex_digit_upper (b / 16 mod 16); hex_digit_upper (b mod 16)].

(** One byte under [quote] with the default [safe='/']. *)
Definition quote_byte (b : N) : str :=
  if is_always_safe b || (b =? 47) then [b] else percent b.

(** [urllib.parse.quote(s)]. *)
Definition quote (s : str) : option str :=
  bs ← utf8_encode_str s; Some (flat_map quote_byte bs).

(** Percent-decoding of a byte sequence, as [unquote_to_bytes] does it:
    a [%] that is not followed by two hexadecimal digits stays. *)
Fixpoint percent_decode (bs : list N) : list N :=
  match bs with
  | [] => []
  | c :: t =>
      if c =? 37 then
        match t with
        | h :: l :: t' =>
            match Json.hex_val h, Json.hex_val l with
            | Some a, Some b => (a * 16 + b) :: percent_decode t'
            | _, _ => c :: percent_decode t
            end
        | _ => c :: percent_decode t
        end
      else c :: percent_decode t
  end.

Definition is_cont (b : N) : bool := (0x80 <=? b) && (b <=? 0xBF).

(** [bytes.decode('utf-8')] with [errors='strict']: overlong forms,
    surrogates and values above [0x10FFFF] are rejected. *)
Fixpoint utf8_decode (bs : list N) : option str :=
  match bs with
  | [] => Some []
  | b0 :: t0 =>
      if b0 <? 0x80 then cons b0 <$> utf8_decode t0
      else if b0 <? 0xC2 then None
      else if b0 <? 0xE0 then
        match t0 with
        | b1 :: t1 =>
            if is_cont b1
            then cons ((b0 - 0xC0) * 64 + (b1 - 0x80)) <$> utf8_decode t1
            else None
        | _ => None
        end
      else if b0 <? 0xF0 then
        match t0 with
        | b1 :: b2 :: t2 =>
            let c := ((b0 - 0xE0) * 64 + (b1 - 0x80)) * 64 + (b2 - 0x80) in
            if is_cont b1 && is_cont b2 && (0x800 <=? c) && negb (is_surrogate c)
            then cons c <$> utf8_decode t2
            else None
        | _ => None
        end
      else if b0 <? 0xF5 then
        match t0 with
        | b1 :: b2 :: b3 :: t3 =>
            let c := (((b0 - 0xF0) * 64 + (b1 - 0x80)) * 64 + (b2 - 0x80)) * 64
                     + (b3 - 0x80) in
            if is_cont b1 && is_cont b2 && is_cont b3
               && (0x10000 <=? c) && (c <? 0x110000)
            then cons c <$> utf8_decode t3
            else None
        | _ => None
        end
      else None
  end.

(** The inverse of [quote]: encode the text to bytes, undo the percent
    escapes, decode the bytes as UTF-8. *)
Definition unquote (s : str) : option str :=
  bs ← utf8_encode_str s; utf8_decode (percent_decode bs).

End Url.

(** ** The execution model: state, exceptions, log and network *)

Module Exec.

Inductive exn :=
| KeyError (k : str)
| UnicodeEncodeError
| ValueError
| OverflowError
| ConnectionError
| Timeout
| HTTPError (status : Z)
| JSONDecodeError.

(** The subclasses of [requests.exceptions.RequestException]. *)
Definition is_request_exception (e : exn) : bool :=
  match e with
  | ConnectionError | Timeout | HTTPError _ | JSONDecodeError => true
  | KeyError _ | UnicodeEncodeError | ValueError | OverflowError => false
  end.

Inductive level := Debug | Info | Warning | Error.

(** The records the entities hand to [_LOGGER], by what they report. *)
Inductive message :=
| MsgSending (key : str) (ir_data : list (str * pyval))
| MsgSendingHvac (command_data : list (str * pyval))
| MsgRequest (url : str)
| MsgResponse
| MsgHttpFailed (e : exn)
| MsgSendFailed (e : exn)
| MsgUnavailable (e : exn)
| MsgNotFound (what : str).

(** Observable effects, in the order they happen. The second argument
    of [HttpGet] is the second positional argument of [requests.get],
    its [params]. *)
Inductive event :=
| Log (l : level) (m : message)
| HttpGet (url : str) (params : list (str * Z)).

(** What the network does with one GET: no connection, no answer in
    time, or a response with a status code and a body that is JSON or
    is not. *)
Inductive http_outcome :=
| ConnectionFailed
| TimedOut
| Responds (status_code : Z) (body_is_json : bool).

(** The network answers a request knowing everything that happened
    before it. *)
Definition network := list event → str → http_outcome.

Record response := Response { status_code : Z; body_is_json : bool }.

Record world (S : Type) := World { self : S; trace : list event }.
Arguments World {S} _ _.
Arguments self {S} _.
Arguments trace {S} _.

Inductive result (A : Type) :=
| Ok (a : A)
| Raise (e : exn).
Arguments Ok {A} _.
Arguments Raise {A} _.

(** A Python computation on an entity of type [S]: it returns or
    raises, and in both cases leaves a world behind. *)
Definition M (S A : Type) : Type := world S → result A * world S.

#[global] Instance M_ret {S : Type} : MRet (M S) := λ A a w, (Ok a, w).

#[global] Instance M_bind {S : Type} : MBind (M S) := λ A B k m w,
  match m w with
  | (Ok a, w') => k a w'
  | (Raise e, w') => (Raise e, w')
  end.

Definition raise {S A : Type} (e : exn) : M S A := λ w, (Raise e, w).

(** [try: body except Exception as e: handler e] *)
Definition try_except {S A : Type} (body : M S A) (handler : exn → M S A) : M S A :=
  λ w,
    match body w with
    | (Ok a, w') => (Ok a, w')
    | (Raise e, w') => handler e w'
    end.

(** A value or an exception computed without touching the world. *)
Definition of_result {S A : Type} (r : result A) : M S A := λ w, (r, w).

Definition get_self {S : Type} : M S S := λ w, (Ok (self w), w).

Definition update {S : Type} (f : S → S) : M S unit :=
  λ w, (Ok tt, World (f (self w)) (trace w)).

Definition emit {S : Type} (ev : event) : M S unit :=
  λ w, (Ok tt, World (self w) (trace w ++ [ev])).

Definition log {S : Type} (l : level) (m : message) : M S unit := emit (Log l m).

(** [d[k]] *)
Definition getitem {S V : Type} (d : gmap str V) (k : str) : M S V :=
  match d !! k with
  | Some v => mret v
  | None => raise (KeyError k)
  end.

(** [k in d] *)
Definition contains {V : Type} (d : gmap str V) (k : str) : bool :=
  match d !! k with
  | Some _ => true
  | None => false
  end.

Definition quote {S : Type} (s : str) : M S str :=
  match Url.quote s with
  | Some q => mret q
  | None => raise UnicodeEncodeError
  end.

(** [requests.get(url, params)], run by the executor and awaited. *)
Definition requests_get {S : Type} (net : network) (url : str) (params : list (str * Z))
  : M S response :=
  λ w,
    let w' := World (self w) (trace w ++ [HttpGet url params]) in
    match net (trace w) url with
    | ConnectionFailed => (Raise ConnectionError, w')
    | TimedOut => (Raise Timeout, w')
    | Responds st js => (Ok (Response st js), w')
    end.

(** [response.raise_for_status()] raises for the statuses 400 to 599. *)
Definition is_error_status (st : Z) : bool := ((400 <=? st) && (st <? 600))%Z.

Definition raise_for_status {S : Type} (r : response) : M S unit :=
  if is_error_status (status_code r) then raise (HTTPError (status_code r))
  else mret tt.

(** [response.json()]; the parsed body is only logged. *)
Definition response_json {S : Type} (r : response) : M S unit :=
  if body_is_json r then mret tt else raise JSONDecodeError.

(** The [ir_data] literal of fan.py, button.py and remote.py, built
    from one configured code: [code["protocol"]], [code["bits"]] and
    [code["data"]] have been looked up, [code.get("repeat", 0)] has
    not. *)
Definition ir_data_of (protocol bits data : pyval) (code : dict) : list (str * pyval) :=
  [(lit "Protocol", protocol); (lit "Bits", bits); (lit "Data", data);
   (lit "Repeat", dict_get code (lit "repeat") (PInt 0))].

End Exec.
Import Exec.

(** ** fan.py: [TasmotaIRFan] *)

Module Fan.

(** The [fan_config] mapping of the configuration entry; every key is
    optional. *)
Record fan_config := FanConfig {
  cfg_speed_count : option Z;
  cfg_preset_modes : option (list str);
  cfg_oscillation_supported : option bool
}.

Record fan := MkFan {
  device_ip : str;
  ir_codes : gmap str dict;
  speed_count : Z;
  preset_modes : list str;
  oscillation_supported : bool;
  is_on : bool;
  percentage : option Z;
  oscillating : bool;
  preset_mode : option str;
  available : bool
}.

(** [__init__] *)
Definition init (device_ip : str) (ir_codes : gmap str dict) (cfg : fan_config) : fan :=
  {| device_ip := device_ip;
     ir_codes := ir_codes;
     speed_count := default 3%Z (cfg_speed_count cfg);
     preset_modes := default [] (cfg_preset_modes cfg);
     oscillation_supported := default true (cfg_oscillation_supported cfg);
     is_on := false;
     percentage := Some 0%Z;
     oscillating := false;
     preset_mode := None;
     available := true |}.

Definition set_is_on (b : bool) (f : fan) : fan :=
  MkFan (device_ip f) (ir_codes f) (speed_count f) (preset_modes f)
        (oscillation_supported f) b (percentage f) (oscillating f)
        (preset_mode f) (available f).

Definition set_percentage (p : option Z) (f : fan) : fan :=
  MkFan (device_ip f) (ir_codes f) (speed_count f) (preset_modes f)
        (oscillation_supported f) (is_on f) p (oscillating f)
        (preset_mode f) (available f).

Definition set_oscillating (b : bool) (f : fan) : fan :=
  MkFan (device_ip f) (ir_codes f) (speed_count f) (preset_modes f)
        (oscillation_supported f) (is_on f) (percentage f) b
        (preset_mode f) (available f).

Definition set_preset_mode (m : option str) (f : fan) : fan :=
  MkFan (device_ip f) (ir_codes f) (speed_count f) (preset_modes f)
        (oscillation_supported f) (is_on f) (percentage f) (oscillating f)
        m (available f).

Definition set_available (b : bool) (f : fan) : fan :=
  MkFan (device_ip f) (ir_codes f) (speed_count f) (preset_modes f)
        (oscillation_supported f) (is_on f) (percentage f) (oscillating f)
        (preset_mode f) b.

(** [max(1, min(self._speed_count, round(percentage * self._speed_count / 100)))]
    on the exact quotient. Python divides the two [int]s on binary64;
    [speed_level_float] below is that computation, and the two agree
    on the percentages 0 to 100 the host passes and on fans of up to
    100 speeds. For a product beyond 2^53 the binary64 quotient can
    round differently, and for one too large for a float Python raises
    [OverflowError], which this definition does not show. *)
Definition speed_level (speed_count percentage : Z) : Z :=
  Z.max 1 (Z.min speed_count (round_div (percentage * speed_count) 100)).

(** [f"speed_{speed_level}"] *)
Definition speed_key (speed_level : Z) : str :=
  lit "speed_" ++ str_of_int speed_level.

(** [f"preset_{preset_mode}"] *)
Definition preset_key (preset_mode : str) : str :=
  lit "preset_" ++ preset_mode.

(** The same expression as Python evaluates it: the product of two
    [int]s, a true division and [round] on binary64. *)
Definition speed_level_float (speed_count percentage : Z) : option Z :=
  k ← round_float (float_div (float_of_int (percentage * speed_count))
                     (float_of_int 100));
  Some (Z.max 1 (Z.min speed_count k)).

(** The flags of the host's [FanEntityFeature] this entity uses. *)
Definition SET_SPEED : Z := 1.
Definition OSCILLATE : Z := 2.
Definition PRESET_MODE : Z := 8.

(** [any(key in self._ir_codes for key in keys)] *)
Definition any_configured (codes : gmap str dict) (keys : list str) : bool :=
  existsb (contains codes) keys.

(** The property [supported_features]; [|=] on flags is bitwise or. *)
Definition supported_features (me : fan) : Z :=
  let features := 0%Z in
  let features :=
    if oscillation_supported me && contains (ir_codes me) (lit "swing")
    then Z.lor features OSCILLATE else features in
  let speed_keys := List.map speed_key (seqZ 1 (speed_count me)) in
  let features :=
    if any_configured (ir_codes me) speed_keys
    then Z.lor features SET_SPEED else features in
  let features :=
    match preset_modes me with
    | [] => features
    | _ :: _ =>
        let preset_keys := List.map preset_key (preset_modes me) in
        if any_configured (ir_codes me) preset_keys
        then Z.lor features PRESET_MODE else features
    end in
  features.

(** The property [preset_modes]: [None] for an empty list. *)
Definition preset_modes_property (me : fan) : option (list str) :=
  match preset_modes me with
  | [] => None
  | _ :: _ => Some (preset_modes me)
  end.

(** [f"tasmota_ir_fan_{entry_id}"] *)
Definition unique_id (entry_id : str) : str := lit "tasmota_ir_fan_" ++ entry_id.

Section WithNetwork.

Variable net : network.

(** The body of the [try] statement of [_send_ir_command]. *)
Definition send_ir_command_try (command_key : str) : M fan unit :=
  me ← get_self;
  code ← getitem (ir_codes me) command_key;
  protocol ← getitem code (lit "protocol");
  bits ← getitem code (lit "bits");
  data ← getitem code (lit "data");
  let ir_data := ir_data_of protocol bits data code in
  log Info (MsgSending command_key ir_data);;
  let command_json := Json.json_dumps ir_data in
  encoded_command ← quote command_json;
  let url := lit "http://" ++ device_ip me ++ lit "/cm?cmnd=IRsend%20"
             ++ encoded_command in
  log Debug (MsgRequest url);;
  response ← requests_get net url [(lit "timeout", 10%Z)];
  raise_for_status response;;
  response_json response;;
  log Info MsgResponse;;
  update (set_available true).

(** The two [except] clauses of [_send_ir_command]. *)
Definition send_ir_command_except (e : exn) : M fan unit :=
  if is_request_exception e then
    log Error (MsgHttpFailed e);; update (set_available false)
  else
    log Error (MsgSendFailed e);; update (set_available false).

Definition _send_ir_command (command_key : str) : M fan unit :=
  me ← get_self;
  if negb (contains (ir_codes me) command_key) then
    log Error (MsgNotFound command_key)
  else
    try_except (send_ir_command_try command_key) send_ir_command_except.

Definition async_turn_off : M fan unit :=
  _send_ir_command (lit "power");;
  update (set_is_on false);;
  update (set_percentage (Some 0%Z));;
  update (set_preset_mode None).

Definition async_set_percentage (percentage : Z) : M fan unit :=
  if (percentage =? 0)%Z then async_turn_off
  else
    me ← get_self;
    let speed_level := speed_level (speed_count me) percentage in
    let speed_key := speed_key speed_level in
    if contains (ir_codes me) speed_key then
      _send_ir_command speed_key;;
      update (set_percentage (Some percentage));;
      update (set_is_on true);;
      update (set_preset_mode None)
    else
      log Warning (MsgNotFound speed_key).

Definition async_set_preset_mode (preset_mode : str) : M fan unit :=
  me ← get_self;
  if negb (bool_decide (preset_mode ∈ preset_modes me)) then
    log Warning (MsgNotFound preset_mode)
  else
    let preset_key := preset_key preset_mode in
    if contains (ir_codes me) preset_key then
      _send_ir_command preset_key;;
      update (set_preset_mode (Some preset_mode));;
      update (set_is_on true);;
      update (set_percentage None)
    else
      log Warning (MsgNotFound preset_key).

Definition async_turn_on (percentage : option Z) (preset_mode : option str) : M fan unit :=
  match preset_mode, percentage with
  | Some preset_mode, _ => async_set_preset_mode preset_mode
  | None, Some percentage => async_set_percentage percentage
  | None, None => _send_ir_command (lit "power");; update (set_is_on true)
  end.

Definition async_oscillate (oscillating : bool) : M fan unit :=
  me ← get_self;
  if oscillation_supported me && contains (ir_codes me) (lit "swing") then
    _send_ir_command (lit "swing");;
    update (set_oscillating oscillating)
  else mret tt.

(** The reachability probe: the body is not read. *)
Definition async_update : M fan unit :=
  me ← get_self;
  try_except
    (let url := lit "http://" ++ device_ip me ++ lit "/cm?cmnd=Status" in
     response ← requests_get net url [(lit "timeout", 5%Z)];
     raise_for_status response;;
     update (set_available true))
    (λ e, log Debug (MsgUnavailable e);; update (set_available false)).

End WithNetwork.

(** The commands the host can give a fan. *)
Inductive command :=
| TurnOn (percentage : option Z) (preset_mode : option str)
| TurnOff
| SetPercentage (percentage : Z)
| SetPresetMode (preset_mode : str)
| Oscillate (oscillating : bool)
| Update.

Definition run (net : network) (c : command) : M fan unit :=
  match c with
  | TurnOn p m => async_turn_on net p m
  | TurnOff => async_turn_off net
  | SetPercentage p => async_set_percentage net p
  | SetPresetMode m => async_set_preset_mode net m
  | Oscillate o => async_oscillate net o
  | Update => async_update net
  end.

End Fan.

(** ** climate.py: [TasmotaIRClimate] *)

Module Climate.

Inductive HVACMode := OFF | HEAT | COOL | HEAT_COOL | AUTO | DRY | FAN_ONLY.

(** [HA_TO_TASMOTA_MODE.get(mode, "Auto")] *)
Definition tasmota_mode (m : HVACMode) : str :=
  match m with
  | OFF => lit "Off"
  | AUTO => lit "Auto"
  | COOL => lit "Cool"
  | HEAT => lit "Heat"
  | DRY => lit "Dry"
  | FAN_ONLY => lit "Fan"
  | HEAT_COOL => lit "Auto"
  end.

(** The fan and swing settings are Chinese words, given by their code
    points. *)
Definition fan_auto : str := [0x81EA; 0x52A8].
Definition fan_min : str := [0x6700; 0x5C0F].
Definition fan_low : str := [0x4F4E; 0x901F].
Definition fan_med : str := [0x4E2D; 0x901F].
Definition fan_high : str := [0x9AD8; 0x901F].
Definition fan_max : str := [0x6700; 0x5927].

Definition swing_off : str := [0x5173; 0x95ED].
Definition swing_vertical : str := [0x5782; 0x76F4].
Definition swing_horizontal : str := [0x6C34; 0x5E73].
Definition swing_both : str := [0x53CC; 0x5411].

(** [HA_TO_TASMOTA_FAN.get(fan_mode, "Auto")] *)
Definition tasmota_fan (fan_mode : str) : str :=
  if bool_decide (fan_mode = fan_auto) then lit "Auto"
  else if bool_decide (fan_mode = fan_min) then lit "Min"
  else if bool_decide (fan_mode = fan_low) then lit "Low"
  else if bool_decide (fan_mode = fan_med) then lit "Med"
  else if bool_decide (fan_mode = fan_high) then lit "High"
  else if bool_decide (fan_mode = fan_max) then lit "Max"
  else lit "Auto".

Record climate := MkClimate {
  device_ip : str;
  vendor : str;
  hvac_mode : HVACMode;
  target_temperature : pynum;
  fan_mode : str;
  swing_mode : str;
  available : bool
}.

(** [__init__] *)
Definition init (device_ip vendor : str) : climate :=
  {| device_ip := device_ip;
     vendor := vendor;
     hvac_mode := OFF;
     target_temperature := NumInt 25;
     fan_mode := fan_auto;
     swing_mode := swing_off;
     available := true |}.

Definition set_hvac_mode (m : HVACMode) (c : climate) : climate :=
  MkClimate (device_ip c) (vendor c) m (target_temperature c) (fan_mode c)
            (swing_mode c) (available c).

Definition set_target_temperature (t : pynum) (c : climate) : climate :=
  MkClimate (device_ip c) (vendor c) (hvac_mode c) t (fan_mode c)
            (swing_mode c) (available c).

Definition set_fan_mode (m : str) (c : climate) : climate :=
  MkClimate (device_ip c) (vendor c) (hvac_mode c) (target_temperature c) m
            (swing_mode c) (available c).

Definition set_swing_mode (m : str) (c : climate) : climate :=
  MkClimate (device_ip c) (vendor c) (hvac_mode c) (target_temperature c)
            (fan_mode c) m (available c).

Definition set_available (b : bool) (c : climate) : climate :=
  MkClimate (device_ip c) (vendor c) (hvac_mode c) (target_temperature c)
            (fan_mode c) (swing_mode c) b.

(** [int(x)]: an [int] is kept, a finite [float] is truncated towards
    zero, an infinity raises [OverflowError] and a NaN [ValueError]. *)
Definition int_of (x : pynum) : result Z :=
  match x with
  | NumInt z => Ok z
  | NumFloat (S754_zero _) => Ok 0%Z
  | NumFloat (S754_infinity _) => Raise OverflowError
  | NumFloat S754_nan => Raise ValueError
  | NumFloat (S754_finite s m e) =>
      let magnitude := Z.shiftl (Z.pos m) e in
      Ok (if s then (- magnitude)%Z else magnitude)
  end.

Definition on_off (b : bool) : pyval := PStr (if b then lit "Auto" else lit "Off").

(** The [command_data] literal of [_send_hvac_command]. *)
Definition command_data_of (me : climate) (temp : Z) : list (str * pyval) :=
  [(lit "Vendor", PStr (vendor me));
   (lit "Power",
    PStr (match hvac_mode me with OFF => lit "Off" | _ => lit "On" end));
   (lit "Mode", PStr (tasmota_mode (hvac_mode me)));
   (lit "Temp", PInt temp);
   (lit "Celsius", PStr (lit "On"));
   (lit "FanSpeed", PStr (tasmota_fan (fan_mode me)));
   (lit "SwingV",
    on_off (bool_decide (swing_mode me ∈ [swing_vertical; swing_both])));
   (lit "SwingH",
    on_off (bool_decide (swing_mode me ∈ [swing_horizontal; swing_both])));
   (lit "Quiet", PStr (lit "Off"));
   (lit "Turbo", PStr (lit "Off"));
   (lit "Econo", PStr (lit "Off"));
   (lit "Light", PStr (lit "Off"));
   (lit "Beep", PStr (lit "Off"))].

(** The table [TASMOTA_TO_HA_MODE], in the order it is written. *)
Definition TASMOTA_TO_HA_MODE : list (str * HVACMode) :=
  [(lit "Off", OFF); (lit "Auto", AUTO); (lit "Cool", COOL);
   (lit "Heat", HEAT); (lit "Dry", DRY); (lit "Fan", FAN_ONLY)].

(** [{v: k for k, v in TASMOTA_TO_HA_MODE.items()}] *)
Definition HA_TO_TASMOTA_MODE : list (HVACMode * str) :=
  List.map (λ kv, (kv.2, kv.1)) TASMOTA_TO_HA_MODE.

(** The two tables of fan speeds, each as it is written. *)
Definition TASMOTA_TO_HA_FAN : list (str * str) :=
  [(lit "Auto", fan_auto); (lit "Min", fan_min); (lit "Low", fan_low);
   (lit "Med", fan_med); (lit "High", fan_high); (lit "Max", fan_max)].

Definition HA_TO_TASMOTA_FAN : list (str * str) :=
  [(fan_auto, lit "Auto"); (fan_min, lit "Min"); (fan_low, lit "Low");
   (fan_med, lit "Med"); (fan_high, lit "High"); (fan_max, lit "Max")].

(** [d.get(k)] on a table whose keys are distinct. *)
Definition table_get {K V : Type} `{EqDecision K} (d : list (K * V)) (k : K)
  : option V :=
  snd <$> List.find (λ kv, bool_decide (kv.1 = k)) d.

#[global] Instance HVACMode_eq_dec : EqDecision HVACMode.
Proof. solve_decision. Defined.

(** The properties [hvac_modes], [fan_modes] and [swing_modes]. *)
Definition hvac_modes : list HVACMode := List.map fst HA_TO_TASMOTA_MODE.

(** The properties [min_temp] and [max_temp]. *)
Definition min_temp : Z := 16.
Definition max_temp : Z := 30.

(** [f"tasmota_ir_climate_{entry_id}"] *)
Definition unique_id (entry_id : str) : str := lit "tasmota_ir_climate_" ++ entry_id.

Section WithNetwork.

Variable net : network.

(** The body of the [try] statement of [_send_hvac_command]. *)
Definition send_hvac_command_try : M climate unit :=
  me ← get_self;
  temp ← of_result (int_of (target_temperature me));
  let command_data := command_data_of me temp in
  log Info (MsgSendingHvac command_data);;
  let command_json := Json.json_dumps command_data in
  encoded_command ← quote command_json;
  let url := lit "http://" ++ device_ip me ++ lit "/cm?cmnd=IRHVAC%20"
             ++ encoded_command in
  log Debug (MsgRequest url);;
  response ← requests_get net url [(lit "timeout", 10%Z)];
  raise_for_status response;;
  response_json response;;
  log Info MsgResponse;;
  update (set_available true).

Definition send_hvac_command_except (e : exn) : M climate unit :=
  if is_request_exception e then
    log Error (MsgHttpFailed e);; update (set_available false)
  else
    log Error (MsgSendFailed e);; update (set_available false).

Definition _send_hvac_command : M climate unit :=
  try_except send_hvac_command_try send_hvac_command_except.

(** [temperature] is [kwargs.get(ATTR_TEMPERATURE)]. *)
Definition async_set_temperature (temperature : option pynum) : M climate unit :=
  match temperature with
  | None => mret tt
  | Some temperature =>
      update (set_target_temperature temperature);;
      _send_hvac_command
  end.

Definition async_set_hvac_mode (hvac_mode : HVACMode) : M climate unit :=
  update (set_hvac_mode hvac_mode);;
  _send_hvac_command.

Definition async_set_fan_mode (fan_mode : str) : M climate unit :=
  update (set_fan_mode fan_mode);;
  _send_hvac_command.

Definition async_set_swing_mode (swing_mode : str) : M climate unit :=
  update (set_swing_mode swing_mode);;
  _send_hvac_command.

Definition async_update : M climate unit :=
  me ← get_self;
  try_except
    (let url := lit "http://" ++ device_ip me ++ lit "/cm?cmnd=Status" in
     response ← requests_get net url [(lit "timeout", 5%Z)];
     raise_for_status response;;
     update (set_available true))
    (λ e, log Debug (MsgUnavailable e);; update (set_available false)).

End WithNetwork.

Inductive command :=
| SetTemperature (temperature : option pynum)
| SetHvacMode (hvac_mode : HVACMode)
| SetFanMode (fan_mode : str)
| SetSwingMode (swing_mode : str)
| Update.

Definition run (net : network) (c : command) : M climate unit :=
  match c with
  | SetTemperature t => async_set_temperature net t
  | SetHvacMode m => async_set_hvac_mode net m
  | SetFanMode m => async_set_fan_mode net m
  | SetSwingMode m => async_set_swing_mode net m
  | Update => async_update net
  end.

End Climate.

(** ** button.py: [TasmotaIRButton] *)

Module Button.

Record button := MkButton {
  device_ip : str;
  button_name : str;
  button_data : dict;
  available : bool
}.

(** [__init__] *)
Definition init (device_ip button_name : str) (button_data : dict) : button :=
  {| device_ip := device_ip;
     button_name := button_name;
     button_data := button_data;
     available := true |}.

Definition set_available (b : bool) (x : button) : button :=
  MkButton (device_ip x) (button_name x) (button_data x) b.

(** [s.replace(old, new)] for one-character [old] and [new]. *)
Definition replace_char (old new : N) (s : str) : str :=
  List.map (λ c, if c =? old then new else c) s.

(** [button_name.replace(" ", "_").replace(".", "_").replace("-", "_")] *)
Definition safe_button_name (button_name : str) : str :=
  replace_char 45 95 (replace_char 46 95 (replace_char 32 95 button_name)).

(** [f"tasmota_ir_button_{entry_id}_{safe_button_name}"] *)
Definition unique_id (entry_id button_name : str) : str :=
  lit "tasmota_ir_button_" ++ entry_id ++ lit "_" ++ safe_button_name button_name.

(** [f"{device_name} {button_name}"] *)
Definition attr_name (device_name button_name : str) : str :=
  device_name ++ lit " " ++ button_name.

Section WithNetwork.

Variable net : network.

(** The body of the [try] statement of [async_press]. *)
Definition async_press_try : M button unit :=
  me ← get_self;
  protocol ← getitem (button_data me) (lit "protocol");
  bits ← getitem (button_data me) (lit "bits");
  data ← getitem (button_data me) (lit "data");
  let ir_data := ir_data_of protocol bits data (button_data me) in
  log Info (MsgSending (button_name me) ir_data);;
  let command_json := Json.json_dumps ir_data in
  encoded_command ← quote command_json;
  let url := lit "http://" ++ device_ip me ++ lit "/cm?cmnd=IRsend%20"
             ++ encoded_command in
  log Debug (MsgRequest url);;
  response ← requests_get net url [(lit "timeout", 10%Z)];
  raise_for_status response;;
  response_json response;;
  log Info MsgResponse;;
  update (set_available true).

Definition async_press_except (e : exn) : M button unit :=
  if is_request_exception e then
    log Error (MsgHttpFailed e);; update (set_available false)
  else
    log Error (MsgSendFailed e);; update (set_available false).

Definition async_press : M button unit :=
  try_except async_press_try async_press_except.

Definition async_update : M button unit :=
  me ← get_self;
  try_except
    (let url := lit "http://" ++ device_ip me ++ lit "/cm?cmnd=Status" in
     response ← requests_get net url [(lit "timeout", 5%Z)];
     raise_for_status response;;
     update (set_available true))
    (λ e, log Debug (MsgUnavailable e);; update (set_available false)).

End WithNetwork.

Inductive command := Press | Update.

Definition run (net : network) (c : command) : M button unit :=
  match c with
  | Press => async_press net
  | Update => async_update net
  end.

End Button.

(** ** remote.py: [TasmotaIRRemote] *)

Module Remote.

Record remote := MkRemote {
  device_ip : str;
  buttons : gmap str dict;
  available : bool
}.

(** [__init__] *)
Definition init (device_ip : str) (buttons : gmap str dict) : remote :=
  {| device_ip := device_ip; buttons := buttons; available := true |}.

Definition set_available (b : bool) (x : remote) : remote :=
  MkRemote (device_ip x) (buttons x) b.

(** [f"tasmota_ir_remote_{entry_id}"] *)
Definition unique_id (entry_id : str) : str := lit "tasmota_ir_remote_" ++ entry_id.

(** The property [is_on]: the remote is always on. *)
Definition is_on (me : remote) : bool := true.

Section WithNetwork.

Variable net : network.

(** The body of the [try] statement of [_send_ir_command]. *)
Definition send_ir_command_try (command_name : str) : M remote unit :=
  me ← get_self;
  button ← getitem (buttons me) command_name;
  protocol ← getitem button (lit "protocol");
  bits ← getitem button (lit "bits");
  data ← getitem button (lit "data");
  let ir_data := ir_data_of protocol bits data button in
  log Info (MsgSending command_name ir_data);;
  let command_json := Json.json_dumps ir_data in
  encoded_command ← quote command_json;
  let url := lit "http://" ++ device_ip me ++ lit "/cm?cmnd=IRsend%20"
             ++ encoded_command in
  log Debug (MsgRequest url);;
  response ← requests_get net url [(lit "timeout", 10%Z)];
  raise_for_status response;;
  response_json response;;
  log Info MsgResponse;;
  update (set_available true).

Definition send_ir_command_except (e : exn) : M remote unit :=
  if is_request_exception e then
    log Error (MsgHttpFailed e);; update (set_available false)
  else
    log Error (MsgSendFailed e);; update (set_available false).

Definition _send_ir_command (command_name : str) : M remote unit :=
  me ← get_self;
  if negb (contains (buttons me) command_name) then
    log Error (MsgNotFound command_name)
  else
    try_except (send_ir_command_try command_name) send_ir_command_except.

(** [for cmd in command: ...] *)
Fixpoint async_send_command (command : list str) : M remote unit :=
  match command with
  | [] => mret tt
  | cmd :: command' =>
      me ← get_self;
      (if contains (buttons me) cmd then _send_ir_command cmd
       else log Warning (MsgNotFound cmd));;
      async_send_command command'
  end.

(** [pass] *)
Definition async_turn_on : M remote unit := mret tt.
Definition async_turn_off : M remote unit := mret tt.

Definition async_update : M remote unit :=
  me ← get_self;
  try_except
    (let url := lit "http://" ++ device_ip me ++ lit "/cm?cmnd=Status" in
     response ← requests_get net url [(lit "timeout", 5%Z)];
     raise_for_status response;;
     update (set_available true))
    (λ e, log Debug (MsgUnavailable e);; update (set_available false)).

End WithNetwork.

Inductive command :=
| TurnOn
| TurnOff
| SendCommand (command : list str)
| Update.

Definition run (net : network) (c : command) : M remote unit :=
  match c with
  | TurnOn => async_turn_on
  | TurnOff => async_turn_off
  | SendCommand l => async_send_command net l
  | Update => async_update net
  end.

End Remote.

(** ** __init__.py and the platforms' [async_setup_entry] *)

Module Setup.

(** The data of a configuration entry the set-up reads. The address
    and the name are read with [data[...]] and are taken to be present,
    as the configuration flow stores them; the name is only displayed
    and is not kept here. Every other key is read with [get] and may be
    missing. *)
Record entry_data := EntryData {
  device_type : option str;
  device_ip : str;
  vendor : option str;
  ir_codes : option (gmap str dict);
  fan_config : option Fan.fan_config;
  buttons : option (list (str * dict))
}.

Inductive platform := PClimate | PFan | PButton | PRemote.

Inductive entity :=
| EClimate (c : Climate.climate)
| EFan (f : Fan.fan)
| EButton (b : Button.button)
| ERemote (r : Remote.remote).

(** [DEFAULT_VENDOR] of const.py. *)
Definition DEFAULT_VENDOR : str := lit "COOLIX".

(** [async_setup_entry] of __init__.py: whether it succeeds and the
    platforms it forwards the entry to. The type is
    [entry.data.get("device_type", "climate")]; for a type it does not
    know it logs an error and returns [False]. *)
Definition async_setup_entry (data : entry_data) : bool * list platform :=
  let device_type := default (lit "climate") (device_type data) in
  if bool_decide (device_type = lit "climate") then (true, [PClimate])
  else if bool_decide (device_type = lit "fan") then (true, [PFan])
  else if bool_decide (device_type = lit "remote") then (true, [PButton])
  else (false, []).

(** What [asyncio.gather] with [return_exceptions=True] holds for one
    platform: the value the host's unload returned, or the
    exception it raised. *)
Inductive unload_result :=
| Returned (value : bool)
| Raised (e : exn).

(** [result is True or not isinstance(result, Exception)] *)
Definition result_ok (result : unload_result) : bool :=
  match result with
  | Returned true => true
  | Returned false => true
  | Raised _ => false
  end.

(** What an unload leaves: the platforms it asked the host to unload,
    its result [unload_ok], and the entry ids of [hass.data[DOMAIN]],
    the dict the set-up made sure exists. *)
Record unload := Unload {
  unloaded : list platform;
  unload_ok : bool;
  domain_data : gset str
}.

(** [async_unload_entry] of __init__.py, with its own chain on the
    type. [forward_entry_unload] is what the host's
    [async_forward_entry_unload] gives for a platform. *)
Definition async_unload_entry (forward_entry_unload : platform → unload_result)
  (data : entry_data) (entry_id : str) (domain : gset str) : unload :=
  let device_type := default (lit "climate") (device_type data) in
  let platforms :=
    if bool_decide (device_type = lit "climate") then [PClimate]
    else if bool_decide (device_type = lit "fan") then [PFan]
    else if bool_decide (device_type = lit "remote") then [PButton]
    else [] in
  let unload_results := List.map forward_entry_unload platforms in
  let unload_ok :=
    match unload_results with
    | [] => true
    | _ :: _ => forallb result_ok unload_results
    end in
  Unload platforms unload_ok
    (if unload_ok then domain ∖ {[entry_id]} else domain).

(** [async_setup_entry] of one platform module: the entities it adds.
    Each one compares [config_entry.data.get("device_type")], without a
    default, to its own type. *)
Definition platform_setup_entry (p : platform) (data : entry_data) : list entity :=
  match p with
  | PClimate =>
      if bool_decide (device_type data = Some (lit "climate"))
      then [EClimate (Climate.init (device_ip data)
                        (default DEFAULT_VENDOR (vendor data)))]
      else []
  | PFan =>
      if bool_decide (device_type data = Some (lit "fan"))
      then [EFan (Fan.init (device_ip data) (default ∅ (ir_codes data))
                    (default (Fan.FanConfig None None None) (fan_config data)))]
      else []
  | PButton =>
      if bool_decide (device_type data = Some (lit "remote"))
      then List.map (λ kv, EButton (Button.init (device_ip data) kv.1 kv.2))
             (default [] (buttons data))
      else []
  | PRemote =>
      if bool_decide (device_type data = Some (lit "remote"))
      then [ERemote (Remote.init (device_ip data)
                       (list_to_map (default [] (buttons data))))]
      else []
  end.

(** The entities of an entry: those of the platforms the entry is
    forwarded to. *)
Definition entities_of (data : entry_data) : list entity :=
  flat_map (λ p, platform_setup_entry p data) (async_setup_entry data).2.

End Setup.

(** ** Vocabulary of the properties *)

Module Spec.

Local Open Scope N_scope.

(** [k] is the integer nearest to [m / d], the even one when two are
    equally near. *)
Definition nearest_even (m d k : Z) : Prop :=
  (2 * Z.abs (m - d * k) <= d)%Z
  ∧ ((2 * Z.abs (m - d * k))%Z = d → Z.even k = true).


Definition is_2xx (st : Z) : bool := ((200 <=? st) && (st <? 300))%Z.

(** A command send concludes success when the response passes
    [raise_for_status] and its body is JSON. *)
Definition command_ok (o : http_outcome) : bool :=
  match o with
  | Responds st js => negb (is_error_status st) && js
  | ConnectionFailed | TimedOut => false
  end.

(** The reachability probe concludes success when the response passes
    [raise_for_status]. *)
Definition probe_ok (o : http_outcome) : bool :=
  match o with
  | Responds st _ => negb (is_error_status st)
  | ConnectionFailed | TimedOut => false
  end.

(** The failures of an outbound call: a transport error, a timeout, an
    error status, a body that is not JSON. *)
Definition call_failed (o : http_outcome) : Prop :=
  match o with
  | ConnectionFailed | TimedOut => True
  | Responds st js => is_error_status st = true ∨ js = false
  end.

(** A 2xx status and a JSON body. *)
Definition call_succeeded (o : http_outcome) : Prop :=
  match o with
  | ConnectionFailed | TimedOut => False
  | Responds st js => is_2xx st = true ∧ js = true
  end.


Definition is_get (ev : event) : bool :=
  match ev with
  | HttpGet _ _ => true
  | Log _ _ => false
  end.

(** The events hold no outbound request. *)
Definition no_request (evs : list event) : Prop :=
  Forall (λ ev, is_get ev = false) evs.

(** The exception an except clause reported, if the record is one of
    the failure records. *)
Definition reported_failure (ev : event) : option exn :=
  match ev with
  | Log _ (MsgHttpFailed e) | Log _ (MsgSendFailed e) | Log _ (MsgUnavailable e) => Some e
  | _ => None
  end.

(** Some except clause ran. *)
Definition failure_reported (evs : list event) : Prop :=
  Exists (λ ev, is_Some (reported_failure ev)) evs.

(** The outbound calls among the events [evs] that follow the trace
    [t]: none, or exactly one, with the outcome the network gave it. *)
Inductive exchange (net : network) (t evs : list event) : option http_outcome → Prop :=
| NoCall :
    no_request evs → exchange net t evs None
| OneCall pre url params post :
    evs = pre ++ HttpGet url params :: post →
    no_request pre → no_request post →
    exchange net t evs (Some (net (t ++ pre) url)).

(** *** Vocabulary of the JSON round trip *)

Definition starts_low (s : str) : bool :=
  match s with
  | c :: _ => is_low_surrogate c
  | [] => false
  end.

(** A text [json.loads] can give back: code points only, and no high
    surrogate directly before a low surrogate (the two would be read
    back as one character). Every text [json.loads] returns is of this
    kind, and so is every text without surrogates. *)
Fixpoint json_safe (s : str) : bool :=
  match s with
  | [] => true
  | c :: s' =>
      is_code_point c && negb (is_high_surrogate c && starts_low s') && json_safe s'
  end.

Definition value_safe (v : pyval) : bool :=
  match v with
  | PStr s => json_safe s
  | PNone | PBool _ | PInt _ => true
  end.

Definition item_safe (kv : str * pyval) : bool :=
  json_safe kv.1 && value_safe kv.2.

Definition ascii_text (s : str) : Prop := Forall (λ c, c < 128) s.

(** The value the scanner accumulates over a run of digits. *)
Definition digits_value (acc : N) (ds : str) : N :=
  fold_left (λ a c, a * 10 + (c - 48)) ds acc.

(** What may follow a value inside an object: a comma or the closing
    brace. *)
Definition delimited (rest : str) : Prop :=
  ∃ c rest', rest = c :: rest' ∧ (c = 44 ∨ c = 125).

(** What follows a [\uXXXX] escape does not complete a surrogate
    pair. *)
Definition no_pair_after (uni : N) (s3 : str) : Prop :=
  is_high_surrogate uni = true →
  match s3 with
  | b :: u :: s3' =>
      (b =? 92) && (u =? 117) = true →
      match s3' with
      | l1 :: l2 :: l3 :: l4 :: _ =>
          ∃ u2, Json.decode_uXXXX l1 l2 l3 l4 = Some u2 ∧ is_low_surrogate u2 = false
      | _ => False
      end
  | _ => True
  end.

(** The shapes of one escaped character. *)
Inductive escape_shape (c : N) : str → Prop :=
| ShapePlain : c ≠ 34 → c ≠ 92 → 32 ≤ c → escape_shape c [c]
| ShapeShort e : Json.unescape e = Some c → e ≠ 117 → escape_shape c [92; e]
| ShapeU h1 h2 h3 h4 :
    Json.decode_uXXXX h1 h2 h3 h4 = Some c →
    escape_shape c [92; 117; h1; h2; h3; h4]
| ShapePair hi lo h1 h2 h3 h4 l1 l2 l3 l4 :
    Json.decode_uXXXX h1 h2 h3 h4 = Some hi →
    Json.decode_uXXXX l1 l2 l3 l4 = Some lo →
    is_high_surrogate hi = true → is_low_surrogate lo = true →
    0x10000 + N.lor (N.shiftl (hi - 0xd800) 10) (lo - 0xdc00) = c →
    escape_shape c [92; 117; h1; h2; h3; h4; 92; 117; l1; l2; l3; l4].

(** *** What a send leaves behind *)

(** The summary of one command send from the world [w], for an entity
    whose flag is written by [set_av]: it returns; it touches no field
    but the flag; it makes at most one outbound call; the flag is the
    verdict on that call; without a call, either nothing happened at
    all or building the request raised and the flag is false. *)
Record send_summary {S : Type} (net : network)
  (set_av : bool → S → S) (w : world S) (r : result unit) (w' : world S)
  (evs : list event) (o : option http_outcome) : Prop := {
  sent_returns : r = Ok tt;
  sent_trace : trace w' = trace w ++ evs;
  sent_frame : self w' = self w ∨ ∃ b, self w' = set_av b (self w);
  sent_exchange : exchange net (trace w) evs o;
  sent_verdict :
    match o with
    | Some out =>
        self w' = set_av (command_ok out) (self w)
        ∧ (command_ok out = false → failure_reported evs)
    | None =>
        (self w' = self w ∧ ¬ failure_reported evs)
        ∨ (self w' = set_av false (self w) ∧ failure_reported evs)
    end
}.

(** The keys handed to [_send_ir_command] and logged by it. *)
Definition sent_keys (evs : list event) : list str :=
  omap (λ ev, match ev with
              | Log _ (MsgSending k _) => Some k
              | _ => None
              end) evs.

(** The summary of one reachability probe. *)
Record probe_summary {S : Type} (net : network)
  (set_av : bool → S → S) (w : world S) (r : result unit) (w' : world S)
  (url : str) (post : list event) : Prop := {
  probed_returns : r = Ok tt;
  probed_trace : trace w' = trace w ++ HttpGet url [(lit "timeout", 5%Z)] :: post;
  probed_quiet : no_request post;
  probed_verdict : self w' = set_av (probe_ok (net (trace w) url)) (self w);
  probed_report : probe_ok (net (trace w) url) = false → failure_reported post
}.

(** The discipline of the availability flag between two worlds of one
    entity: if the flag is false afterwards, it was false before or an
    except clause ran in between. *)
Definition flag_discipline {S : Type} (av : S → bool) (w w' : world S) : Prop :=
  ∃ evs, trace w' = trace w ++ evs
         ∧ (av (self w') = false → av (self w) = false ∨ failure_reported evs).

(** The IR code key a fan command resolves to before it sends: the
    speed key of a non-zero percentage, the preset key of a preset
    mode. *)
Definition resolved_key (me : Fan.fan) (c : Fan.command) : option str :=
  match c with
  | Fan.SetPercentage p =>
      if (p =? 0)%Z then None
      else Some (Fan.speed_key (Fan.speed_level (Fan.speed_count me) p))
  | Fan.SetPresetMode m => Some (Fan.preset_key m)
  | _ => None
  end.

(** A JSON text written with apostrophes in place of double quotes. *)
Definition json_text (s : string) : str :=
  List.map (λ c, if c =? 39 then 34 else c) (lit s).

(** The request line of a raw infrared send: [cmnd=IRsend%20] and the
    encoded JSON. *)
Definition irsend_url (device_ip encoded : str) : str :=
  lit "http://" ++ device_ip ++ lit "/cm?cmnd=IRsend%20" ++ encoded.

(** The configured code of the example: NEC, 32 bits, 0x44BB01FE, no
    repeat. *)
Definition nec_example : dict :=
  <[lit "protocol" := PStr (lit "NEC")]>
    (<[lit "bits" := PInt 32]>
       (<[lit "data" := PStr (lit "0x44BB01FE")]>
          (<[lit "repeat" := PInt 0]> ∅))).

(** A configured code has the three fields every send reads. *)
Definition complete_code (code : dict) : Prop :=
  is_Some (code !! lit "protocol")
  ∧ is_Some (code !! lit "bits")
  ∧ is_Some (code !! lit "data").

(** The key is configured, with a complete code: the sender can build
    its request. *)
Definition configured (codes : gmap str dict) (key : str) : Prop :=
  ∃ code, codes !! key = Some code ∧ complete_code code.

(** [int] accepts the stored target temperature: the thermostat can
    build its request. *)
Definition temperature_ok (s : Climate.climate) : Prop :=
  ∃ temp, Climate.int_of (Climate.target_temperature s) = Ok temp.

(** What a send that made no outbound call left behind: the object
    untouched and no failure reported, or a failure reported and the
    flag false. *)
Definition without_call {S : Type} (av : S → bool) (w w' : world S)
  (evs : list event) : Prop :=
  (self w' = self w ∧ ¬ failure_reported evs)
  ∨ (av (self w') = false ∧ failure_reported evs).

(** A sender that is [ready] makes an outbound request. *)
Definition makes_request_when {S : Type} (ready : S → Prop) (m : M S unit) : Prop :=
  ∀ w, ready (self w) →
    ∃ pre url params post,
      trace (m w).2 = trace w ++ pre ++ HttpGet url params :: post.


(** The verdict of a send: it makes its outbound call whenever it is
    [ready] to build the request; after a call the flag is true exactly
    when the response passed [raise_for_status] and its body was JSON;
    and without a call the object is untouched or a failure was
    reported and the flag is false. *)
Definition send_verdict {S : Type} (net : network) (av : S → bool)
  (ready : S → Prop) (m : M S unit) : Prop :=
  ∀ w,
    ∃ evs o,
      trace (m w).2 = trace w ++ evs
      ∧ exchange net (trace w) evs o
      ∧ (ready (self w) → is_Some o)
      ∧ match o with
        | Some out =>
            av (self (m w).2) = true
            ↔ ∃ st, out = Responds st true ∧ is_error_status st = false
        | None => without_call av w (m w).2 evs
        end.

(** The verdict of a probe: it makes one outbound call, and the flag is
    true exactly when the response passed [raise_for_status], whatever
    its body. *)
Definition probe_verdict {S : Type} (net : network) (av : S → bool)
  (m : M S unit) : Prop :=
  ∀ w,
    ∃ url post,
      trace (m w).2 = trace w ++ HttpGet url [(lit "timeout", 5%Z)] :: post
      ∧ no_request post
      ∧ (av (self (m w).2) = true
         ↔ ∃ st js, net (trace w) url = Responds st js ∧ is_error_status st = false).

(** The fan's power code of the sample configuration; it has no repeat
    field. *)
Definition power_example : dict :=
  <[lit "protocol" := PStr (lit "NEC")]>
    (<[lit "bits" := PInt 32]>
       (<[lit "data" := PStr (lit "0x8166817E")]> ∅)).

(** *** A fan, a thermostat and a button to try the statements on *)

Definition example_ip : str := lit "192.168.1.50".

Definition example_codes : gmap str dict :=
  <[lit "power" := nec_example]> (<[lit "speed_2" := nec_example]> ∅).

Definition example_fan : world Fan.fan :=
  World (Fan.init example_ip example_codes (Fan.FanConfig (Some 3%Z) None None)) [].

Definition example_climate : world Climate.climate :=
  World (Climate.init example_ip (lit "COOLIX")) [].

Definition example_button : world Button.button :=
  World (Button.init example_ip (lit "power") nec_example) [].

(** A device that accepts every request, one that answers 200 with a
    body that is not JSON, one that never answers, and one that answers
    301 with a JSON body. *)
Definition net_ok : network := λ _ _, Responds 200 true.
Definition net_garbled : network := λ _ _, Responds 200 false.
Definition net_down : network := λ _ _, TimedOut.
Definition net_moved : network := λ _ _, Responds 301 true.


(** The sample fan, marked unavailable. *)
Definition example_fan_down : world Fan.fan :=
  World (Fan.set_available false
           (Fan.init example_ip example_codes (Fan.FanConfig (Some 3%Z) None None))) [].

(** *** Vocabulary of the further properties *)

(** The changes a fan command can make to the object, from the object
    [s] its send left behind. *)
Inductive fan_effect (s : Fan.fan) : Fan.fan → Prop :=
| EffectNone : fan_effect s s
| EffectOff :
    fan_effect s
      (Fan.set_preset_mode None (Fan.set_percentage (Some 0%Z) (Fan.set_is_on false s)))
| EffectPercentage p :
    p ≠ 0%Z →
    fan_effect s
      (Fan.set_preset_mode None (Fan.set_is_on true (Fan.set_percentage (Some p) s)))
| EffectPreset m :
    fan_effect s
      (Fan.set_percentage None (Fan.set_is_on true (Fan.set_preset_mode (Some m) s)))
| EffectOn : fan_effect s (Fan.set_is_on true s)
| EffectOscillating o : fan_effect s (Fan.set_oscillating o s).

(** A fan never shows a preset mode together with a percentage, and a
    fan that is off shows the percentage 0 and no preset mode. *)
Definition fan_consistent (s : Fan.fan) : Prop :=
  (Fan.preset_mode s = None ∨ Fan.percentage s = None)
  ∧ (Fan.is_on s = false → Fan.percentage s = Some 0%Z ∧ Fan.preset_mode s = None).

(** The configuration of two fan objects is the same. *)
Definition same_fan_config (s s' : Fan.fan) : Prop :=
  Fan.device_ip s' = Fan.device_ip s
  ∧ Fan.ir_codes s' = Fan.ir_codes s
  ∧ Fan.speed_count s' = Fan.speed_count s
  ∧ Fan.preset_modes s' = Fan.preset_modes s
  ∧ Fan.oscillation_supported s' = Fan.oscillation_supported s.

(** The worlds a fan constructed as [s0] goes through under the host's
    commands. *)
Inductive fan_reachable (net : network) (s0 : Fan.fan) : world Fan.fan → Prop :=
| ReachInit : fan_reachable net s0 (World s0 [])
| ReachStep w c : fan_reachable net s0 w → fan_reachable net s0 (Fan.run net c w).2.

(** A flag is among the features. *)
Definition has_feature (features flag : Z) : bool :=
  negb (Z.land features flag =? 0)%Z.

(** The guard of [async_oscillate]. *)
Definition can_oscillate (s : Fan.fan) : bool :=
  Fan.oscillation_supported s && contains (Fan.ir_codes s) (lit "swing").

(** The request line of a composite climate send. *)
Definition irhvac_url (device_ip encoded : str) : str :=
  lit "http://" ++ device_ip ++ lit "/cm?cmnd=IRHVAC%20" ++ encoded.

(** The outbound requests among the events. *)
Definition requests (evs : list event) : list str :=
  omap (λ ev, match ev with
              | HttpGet url _ => Some url
              | Log _ _ => None
              end) evs.

(** From the trace [t], the thermostat sent the command of the object
    [s] with the temperature [temp] and ended in the world [w']. *)
Definition sends_hvac (t : list event) (s : Climate.climate) (temp : Z)
  (w' : world Climate.climate) : Prop :=
  ∃ encoded post,
    Url.quote (Json.json_dumps (Climate.command_data_of s temp)) = Some encoded
    ∧ (∃ b, self w' = Climate.set_available b s)
    ∧ trace w'
      = t ++ Log Info (MsgSendingHvac (Climate.command_data_of s temp))
          :: Log Debug (MsgRequest (irhvac_url (Climate.device_ip s) encoded))
          :: HttpGet (irhvac_url (Climate.device_ip s) encoded)
               [(lit "timeout", 10%Z)]
          :: post.


(** The characters [safe_button_name] replaces. *)
Definition is_separator (c : N) : bool := (c =? 32) || (c =? 46) || (c =? 45).

(** Run from any world, [m] only appends to the trace, and at most [n]
    outbound requests. *)
Definition at_most_requests {S A : Type} (n : nat) (m : M S A) : Prop :=
  ∀ w, ∃ evs, trace (m w).2 = trace w ++ evs ∧ (length (requests evs) ≤ n)%nat.

(** The requests a command of the remote may make: one for each command
    of a list, one for the probe, none to switch on or off. *)
Definition remote_budget (c : Remote.command) : nat :=
  match c with
  | Remote.SendCommand l => length l
  | Remote.Update => 1
  | Remote.TurnOn | Remote.TurnOff => 0
  end.

End Spec.

(** ** Weakest preconditions for the execution monad *)

Module Wp.

(** [Q] holds of the result and the world [m] leaves when run from
    [w]. Every computation of [M] returns or raises, so this is total
    correctness. *)
Definition wp {S A : Type} (m : M S A) (Q : result A → world S → Prop)
  (w : world S) : Prop :=
  Q (m w).1 (m w).2.

(** The command [m] returns and keeps the discipline of the flag. *)
Definition disciplined {S : Type} (av : S → bool) (m : M S unit) : Prop :=
  ∀ w, wp m (λ r w', r = Ok tt ∧ Spec.flag_discipline av w w') w.

End Wp.

Import Spec Wp.

Local Close Scope N_scope.

(** * Properties *)

Local Open Scope N_scope.

(** ** Arithmetic of the encodings *)

(** Division and remainder by constants, through the integers. *)
Ltac ndm := zify; Z.to_euclidean_division_equations; lia.

(** Case analysis on the comparisons of [N] in the goal. *)
Ltac ncases :=
  repeat match goal with
    | |- context [N.eqb ?a ?b] => destruct (N.eqb_spec a b); try lia
    | |- context [N.leb ?a ?b] => destruct (N.leb_spec a b); try lia
    | |- context [N.ltb ?a ?b] => destruct (N.ltb_spec a b); try lia
    end;
  cbn [andb orb negb].

Lemma lor_high_low a b k : b < 2 ^ k → N.lor (a * 2 ^ k) b = a * 2 ^ k + b.
Proof.
  intros Hb. rewrite <- N.shiftl_mul_pow2.
  assert (Hland : N.land (N.shiftl a k) b = 0).
  { apply N.bits_inj_0. intros n. rewrite N.land_spec.
    destruct (N.lt_ge_cases n k) as [Hn|Hn].
    - by rewrite N.shiftl_spec_low.
    - destruct (N.eq_dec b 0) as [->|Hb0].
      + by rewrite N.bits_0, andb_false_r.
      + rewrite (N.bits_above_log2 b n), andb_false_r; [done|].
        apply N.log2_lt_pow2; [lia|].
        eapply N.lt_le_trans; [exact Hb|]. by apply N.pow_le_mono_r. }
  by rewrite N.add_nocarry_lxor, N.lxor_lor.
Qed.

Lemma high_half n : n < 0x100000 →
  N.lor 0xd800 (N.land (N.shiftr n 10) 0x3ff) = 0xd800 + n / 1024.
Proof.
  intros Hn. change 0x3ff with (N.ones 10).
  rewrite N.land_ones, N.shiftr_div_pow2. change (2 ^ 10) with 1024.
  rewrite (N.mod_small (n / 1024) 1024) by ndm.
  apply (lor_high_low 54 (n / 1024) 10). change (2 ^ 10) with 1024. ndm.
Qed.

Lemma low_half n : N.lor 0xdc00 (N.land n 0x3ff) = 0xdc00 + n mod 1024.
Proof.
  change 0x3ff with (N.ones 10). rewrite N.land_ones. change (2 ^ 10) with 1024.
  apply (lor_high_low 55 (n mod 1024) 10). change (2 ^ 10) with 1024. ndm.
Qed.

Lemma join_halves n : n < 0x100000 →
  N.lor (N.shiftl (n / 1024) 10) (n mod 1024) = n.
Proof.
  intros Hn. rewrite N.shiftl_mul_pow2.
  rewrite lor_high_low by (change (2 ^ 10) with 1024; ndm).
  change (2 ^ 10) with 1024. ndm.
Qed.

Lemma hex_val_lower d : d < 16 → Json.hex_val (Json.hex_digit_lower d) = Some d.
Proof.
  intros Hd. unfold Json.hex_val, Json.hex_digit_lower.
  destruct (N.ltb_spec d 10); ncases; f_equal; lia.
Qed.

Lemma hex_val_upper d : d < 16 → Json.hex_val (Url.hex_digit_upper d) = Some d.
Proof.
  intros Hd. unfold Json.hex_val, Url.hex_digit_upper.
  destruct (N.ltb_spec d 10); ncases; f_equal; lia.
Qed.

Lemma decode_hex4 v h1 h2 h3 h4 : v < 0x10000 →
  Json.hex4 v = [h1; h2; h3; h4] → Json.decode_uXXXX h1 h2 h3 h4 = Some v.
Proof.
  intros Hv [= <- <- <- <-]. unfold Json.decode_uXXXX.
  rewrite !hex_val_lower by ndm. cbn. f_equal. ndm.
Qed.

(** ** [str(int)] and its scanner *)

Lemma is_digit_char d : d < 10 → Json.is_digit (48 + d) = true.
Proof. intros. unfold Json.is_digit. ncases; done. Qed.

Lemma digits_value_cons a c ds :
  digits_value a (c :: ds) = digits_value (a * 10 + (c - 48)) ds.
Proof. reflexivity. Qed.

Lemma digits_aux_value fuel n acc :
  n < 2 ^ N.of_nat fuel →
  digits_value 0 (digits_aux fuel n acc) = digits_value n acc.
Proof.
  revert n acc. induction fuel as [|fuel IH]; intros n acc Hn.
  - change (2 ^ N.of_nat 0) with 1 in Hn. assert (n = 0) as -> by lia. reflexivity.
  - cbn [digits_aux]. destruct (N.ltb_spec n 10) as [Hlt|Hge].
    + rewrite digits_value_cons. f_equal. ndm.
    + rewrite IH.
      * rewrite digits_value_cons. f_equal. ndm.
      * rewrite Nat2N.inj_succ, N.pow_succ_r' in Hn. ndm.
Qed.

Lemma digits_aux_all_digits fuel n acc :
  Forall (λ c, Json.is_digit c = true) acc →
  Forall (λ c, Json.is_digit c = true) (digits_aux fuel n acc).
Proof.
  revert n acc. induction fuel as [|fuel IH]; intros n acc Hacc; [done|].
  cbn [digits_aux].
  assert (Forall (λ c, Json.is_digit c = true) ((48 + n mod 10) :: acc)).
  { constructor; [|done]. apply is_digit_char. ndm. }
  destruct (n <? 10); auto.
Qed.

(** The leading digit of a positive number is not zero. *)
Lemma digits_aux_head fuel n acc :
  0 < n → n < 2 ^ N.of_nat fuel →
  ∃ d ds, digits_aux fuel n acc = d :: ds ∧ 49 ≤ d ≤ 57.
Proof.
  revert n acc. induction fuel as [|fuel IH]; intros n acc Hpos Hn.
  - change (2 ^ N.of_nat 0) with 1 in Hn. lia.
  - cbn [digits_aux]. destruct (N.ltb_spec n 10) as [Hlt|Hge].
    + eexists _, _. split; [reflexivity|]. rewrite N.mod_small by lia. lia.
    + apply IH; [ndm|]. rewrite Nat2N.inj_succ, N.pow_succ_r' in Hn. ndm.
Qed.

Lemma str_of_N_fuel n : n < 2 ^ N.of_nat (S (N.to_nat (N.log2 n))).
Proof.
  rewrite Nat2N.inj_succ, N2Nat.id.
  destruct (N.eq_dec n 0) as [->|Hn]; [done|].
  apply N.log2_spec. lia.
Qed.

Lemma scan_digits_app ds a rest :
  Forall (λ c, Json.is_digit c = true) ds →
  match rest with c :: _ => Json.is_digit c = false | [] => True end →
  Json.scan_digits a (ds ++ rest) = (digits_value a ds, rest).
Proof.
  intros Hds Hrest. revert a. induction Hds as [|c ds Hc _ IH]; intros a.
  - cbn. destruct rest as [|c rest]; [done|]. cbn. by rewrite Hrest.
  - cbn. rewrite Hc. apply IH.
Qed.

Lemma scan_nat_str_of_N n rest :
  match rest with c :: _ => Json.is_digit c = false | [] => True end →
  Json.scan_nat (str_of_N n ++ rest) = Some (n, rest).
Proof.
  intros Hrest. unfold str_of_N.
  pose proof (str_of_N_fuel n) as Hfuel.
  destruct (N.eq_dec n 0) as [->|Hn]; [done|].
  destruct (digits_aux_head _ n [] ltac:(lia) Hfuel) as (d & ds & Hd & Hrange).
  unfold Json.scan_nat. rewrite Hd. cbn [app].
  destruct (N.eqb_spec d 48); [lia|].
  assert (Json.is_digit d = true) as -> by (unfold Json.is_digit; ncases; done).
  change (d :: ds ++ rest) with ((d :: ds) ++ rest). rewrite <- Hd.
  rewrite scan_digits_app; [|by apply digits_aux_all_digits|done].
  by rewrite digits_aux_value.
Qed.

Lemma str_of_N_head n : ∃ d ds, str_of_N n = d :: ds ∧ 48 ≤ d ≤ 57.
Proof.
  destruct (N.eq_dec n 0) as [->|Hn].
  - exists 48, []. split; [reflexivity|lia].
  - destruct (digits_aux_head _ n [] ltac:(lia) (str_of_N_fuel n)) as (d & ds & Hd & ?).
    exists d, ds. split; [done|lia].
Qed.

Lemma scan_int_str_of_int z rest :
  delimited rest →
  Json.scan_int (str_of_int z ++ rest) = Some (z, rest).
Proof.
  intros (c & rest' & -> & Hc).
  assert (Hnd : Json.is_digit c = false) by (unfold Json.is_digit; destruct Hc as [->| ->]; done).
  assert (Hnf : Json.starts_float_tail (c :: rest') = false) by (destruct Hc as [->| ->]; done).
  unfold str_of_int. destruct (Z.ltb_spec z 0) as [Hneg|Hpos].
  - cbn [Json.scan_int app]. cbn [N.eqb Pos.eqb].
    rewrite scan_nat_str_of_N by done. rewrite Hnf. f_equal. f_equal. lia.
  - destruct (str_of_N_head (Z.to_N z)) as (d & ds & Hd & Hrange).
    unfold Json.scan_int. rewrite Hd. cbn [app].
    destruct (N.eqb_spec d 45); [lia|].
    change (d :: ds ++ c :: rest') with ((d :: ds) ++ c :: rest'). rewrite <- Hd.
    rewrite scan_nat_str_of_N by done. rewrite Hnf. f_equal. f_equal. lia.
Qed.

(** ** Strings of [json.dumps] and [scanstring] *)

Lemma scanstring_plain c s :
  c ≠ 34 → c ≠ 92 → 32 ≤ c →
  Json.scanstring (c :: s) = Json.cons_fst c (Json.scanstring s).
Proof.
  intros H1 H2 H3. cbn [Json.scanstring].
  destruct (N.eqb_spec c 34); [done|]. destruct (N.eqb_spec c 92); [done|].
  destruct (N.ltb_spec c 32); [lia|]. done.
Qed.

Lemma scanstring_short e c s :
  Json.unescape e = Some c → e ≠ 117 →
  Json.scanstring (92 :: e :: s) = Json.cons_fst c (Json.scanstring s).
Proof.
  intros He Hu. cbn [Json.scanstring]. cbn [N.eqb Pos.eqb].
  destruct (N.eqb_spec e 117); [done|]. by rewrite He.
Qed.

Lemma scanstring_u uni h1 h2 h3 h4 s3 :
  Json.decode_uXXXX h1 h2 h3 h4 = Some uni →
  no_pair_after uni s3 →
  Json.scanstring (92 :: 117 :: h1 :: h2 :: h3 :: h4 :: s3)
  = Json.cons_fst uni (Json.scanstring s3).
Proof.
  intros Hd Hno. cbn [Json.scanstring]. cbn [N.eqb Pos.eqb]. rewrite Hd.
  unfold no_pair_after in Hno.
  destruct (is_high_surrogate uni); [|done]. specialize (Hno eq_refl).
  destruct s3 as [|b [|u s3']]; [done..|].
  destruct ((b =? 92) && (u =? 117)); [|done]. specialize (Hno eq_refl).
  destruct s3' as [|l1 [|l2 [|l3 [|l4 s4]]]]; try done.
  destruct Hno as (u2 & -> & ->). done.
Qed.

Lemma scanstring_pair hi lo h1 h2 h3 h4 l1 l2 l3 l4 s4 :
  Json.decode_uXXXX h1 h2 h3 h4 = Some hi →
  Json.decode_uXXXX l1 l2 l3 l4 = Some lo →
  is_high_surrogate hi = true → is_low_surrogate lo = true →
  Json.scanstring (92 :: 117 :: h1 :: h2 :: h3 :: h4 :: 92 :: 117 :: l1 :: l2 :: l3 :: l4 :: s4)
  = Json.cons_fst (0x10000 + N.lor (N.shiftl (hi - 0xd800) 10) (lo - 0xdc00))
      (Json.scanstring s4).
Proof.
  intros Hh Hl Hhi Hlo. cbn [Json.scanstring]. cbn [N.eqb Pos.eqb andb].
  by rewrite Hh, Hhi, Hl, Hlo.
Qed.

Lemma escape_char_shape c :
  is_code_point c = true → escape_shape c (Json.escape_char c).
Proof.
  unfold is_code_point. intros Hc%N.ltb_lt. unfold Json.escape_char.
  destruct (N.eqb_spec c 92) as [->|]; [by apply (ShapeShort _ 92)|].
  destruct (N.eqb_spec c 34) as [->|]; [by apply (ShapeShort _ 34)|].
  destruct (N.eqb_spec c 8) as [->|]; [by apply (ShapeShort _ 98)|].
  destruct (N.eqb_spec c 12) as [->|]; [by apply (ShapeShort _ 102)|].
  destruct (N.eqb_spec c 10) as [->|]; [by apply (ShapeShort _ 110)|].
  destruct (N.eqb_spec c 13) as [->|]; [by apply (ShapeShort _ 114)|].
  destruct (N.eqb_spec c 9) as [->|]; [by apply (ShapeShort _ 116)|].
  destruct (N.leb_spec 32 c); cbn [andb].
  { destruct (N.leb_spec c 126); [by apply ShapePlain|].
    destruct (N.ltb_spec c 0x10000).
    - apply ShapeU. by apply decode_hex4.
    - cbv zeta. rewrite high_half, low_half by lia.
      eapply (ShapePair _ (0xd800 + (c - 0x10000) / 1024) (0xdc00 + (c - 0x10000) mod 1024));
        [apply decode_hex4; [ndm|reflexivity]..| | |].
      + unfold is_high_surrogate. apply andb_true_intro. split; apply N.leb_le; ndm.
      + unfold is_low_surrogate. apply andb_true_intro. split; apply N.leb_le; ndm.
      + replace (0xd800 + (c - 0x10000) / 1024 - 0xd800) with ((c - 0x10000) / 1024) by ndm.
        replace (0xdc00 + (c - 0x10000) mod 1024 - 0xdc00) with ((c - 0x10000) mod 1024) by ndm.
        rewrite join_halves by lia. lia. }
  destruct (N.ltb_spec c 0x10000); [|lia].
  apply ShapeU. by apply decode_hex4.
Qed.

Lemma high_not_low c : is_high_surrogate c = true → is_low_surrogate c = false.
Proof. unfold is_high_surrogate, is_low_surrogate. ncases; done. Qed.

Lemma json_safe_cons c s :
  json_safe (c :: s) = true →
  is_code_point c = true
  ∧ (is_high_surrogate c = true → starts_low s = false)
  ∧ json_safe s = true.
Proof.
  cbn [json_safe]. intros [[Hc Hp]%andb_prop Hs]%andb_prop. split_and!; [done| |done].
  intros Hh. rewrite Hh in Hp. by destruct (starts_low s).
Qed.

Lemma no_pair_after_tail c s rest :
  json_safe s = true →
  (is_high_surrogate c = true → starts_low s = false) →
  no_pair_after c (flat_map Json.escape_char s ++ 34 :: rest).
Proof.
  intros Hs Hn Hhigh. specialize (Hn Hhigh). destruct s as [|c' s'].
  - cbn. destruct rest; [done|]. intros [=].
  - apply json_safe_cons in Hs as (Hc' & _ & _). cbn [flat_map]. rewrite <- app_assoc.
    cbn [starts_low] in Hn.
    destruct (escape_char_shape c' Hc') as [? Hne|e ? Hu|h1 h2 h3 h4 Hd|hi lo h1 h2 h3 h4 l1 l2 l3 l4 Hd1 Hd2 Hhi ? ?];
      cbn [app].
    + destruct (flat_map _ _ ++ _); [done|].
      destruct (N.eqb_spec c' 92); [done|]. intros [=].
    + cbn [N.eqb Pos.eqb andb]. destruct (N.eqb_spec e 117); [done|]. intros [=].
    + intros _. eauto.
    + intros _. exists hi. split; [done|]. by apply high_not_low.
Qed.

Lemma scanstring_escape s rest :
  json_safe s = true →
  Json.scanstring (flat_map Json.escape_char s ++ 34 :: rest) = Some (s, rest).
Proof.
  induction s as [|c s IH]; intros Hs; [done|].
  apply json_safe_cons in Hs as (Hc & Hp & Hs). cbn [flat_map]. rewrite <- app_assoc.
  pose proof (no_pair_after_tail c s rest Hs Hp) as Hno.
  specialize (IH Hs).
  destruct (escape_char_shape c Hc) as [| | |hi lo ? ? ? ? ? ? ? ? ? ? ? ? Hjoin]; cbn [app].
  - rewrite scanstring_plain, IH; done.
  - rewrite (scanstring_short _ c), IH; done.
  - rewrite (scanstring_u c), IH; done.
  - rewrite (scanstring_pair hi lo), IH, Hjoin; done.
Qed.

(** [scanstring] reads back what [encode_basestring_ascii] wrote. *)
Lemma scanstring_encode s rest :
  json_safe s = true →
  ∃ t, Json.encode_basestring_ascii s ++ rest = 34 :: t
       ∧ Json.scanstring t = Some (s, rest).
Proof.
  intros Hs. exists (flat_map Json.escape_char s ++ 34 :: rest). split.
  - unfold Json.encode_basestring_ascii. cbn [app]. by rewrite <- app_assoc.
  - by apply scanstring_escape.
Qed.

(** ** Objects of [json.dumps] and [json.loads] *)

Lemma str_of_int_head z :
  ∃ d ds, str_of_int z = d :: ds ∧ (d = 45 ∨ 48 ≤ d ≤ 57).
Proof.
  unfold str_of_int. destruct (z <? 0)%Z.
  - eexists _, _. split; [reflexivity|]. by left.
  - destruct (str_of_N_head (Z.to_N z)) as (d & ds & -> & ?). eauto.
Qed.

Lemma scan_value_dumps v rest :
  value_safe v = true → delimited rest →
  Json.scan_value (Json.dumps_value v ++ rest) = Some (v, rest).
Proof.
  intros Hv Hrest. destruct v as [|[|]|z|s]; try reflexivity.
  - cbn [Json.dumps_value].
    destruct (str_of_int_head z) as (d & ds & Hd & Hrange).
    pose proof (scan_int_str_of_int z rest Hrest) as Hscan.
    rewrite Hd in *. cbn [app] in *. unfold Json.scan_value.
    destruct (N.eqb_spec d 34); [lia|]. destruct (N.eqb_spec d 110); [lia|].
    destruct (N.eqb_spec d 116); [lia|]. destruct (N.eqb_spec d 102); [lia|].
    by rewrite Hscan.
  - cbn [Json.dumps_value].
    destruct (scanstring_encode s rest Hv) as (t & -> & Ht).
    cbn [Json.scan_value N.eqb Pos.eqb]. by rewrite Ht.
Qed.

Lemma dumps_value_head v :
  ∃ c t, Json.dumps_value v = c :: t ∧ Json.is_ws c = false.
Proof.
  destruct v as [|[|]|z|s]; try (eexists _, _; split; reflexivity).
  cbn [Json.dumps_value]. destruct (str_of_int_head z) as (d & ds & -> & Hrange).
  exists d, ds. split; [done|]. unfold Json.is_ws. ncases; done.
Qed.

Lemma skip_ws_head c t : Json.is_ws c = false → Json.skip_ws (c :: t) = c :: t.
Proof. intros H. cbn. by rewrite H. Qed.

Lemma scan_members_dumps items fuel rest :
  items ≠ [] →
  Forall (λ kv, item_safe kv = true) items →
  (length items ≤ fuel)%nat →
  ∃ t, Json.dumps_items items ++ 125 :: rest = 34 :: t
       ∧ Json.scan_members fuel t = Some (items, rest).
Proof.
  intros Hne Hsafe. revert fuel.
  induction Hsafe as [|[k v] items [Hk Hv]%andb_prop Hsafe IH]; [done|].
  intros fuel Hfuel. cbn [fst snd] in *.
  destruct fuel as [|fuel]; [cbn in Hfuel; lia|]. cbn [length] in Hfuel.
  assert (Hitem : ∀ R, delimited R →
            ∃ t, Json.dumps_item (k, v) ++ R = 34 :: t
                 ∧ Json.scanstring t = Some (k, 58 :: Json.dumps_value v ++ R)).
  { intros R HR. unfold Json.dumps_item. cbn [fst snd]. rewrite <- app_assoc. cbn [app].
    by apply scanstring_encode. }
  assert (Hval : ∀ R, delimited R →
            Json.scan_value (Json.skip_ws (Json.dumps_value v ++ R)) = Some (v, R)).
  { intros R HR. destruct (dumps_value_head v) as (c & t & Hc & Hws).
    rewrite Hc. cbn [app]. rewrite skip_ws_head by done.
    change (c :: t ++ R) with ((c :: t) ++ R). rewrite <- Hc.
    by apply scan_value_dumps. }
  destruct items as [|kv' items'].
  - cbn [Json.dumps_items].
    assert (HR : delimited (125 :: rest)) by (eexists _, _; eauto).
    destruct (Hitem _ HR) as (t & -> & Ht). exists t. split; [done|].
    cbn [Json.scan_members]. rewrite Ht. cbn [mbind option_bind].
    rewrite skip_ws_head by done. cbn [N.eqb Pos.eqb].
    rewrite Hval by done. cbn [mbind option_bind].
    rewrite skip_ws_head by done. done.
  - destruct (IH ltac:(done) fuel ltac:(lia)) as (t' & Ht' & Hscan').
    change (Json.dumps_items ((k, v) :: kv' :: items'))
      with (Json.dumps_item (k, v) ++ 44 :: Json.dumps_items (kv' :: items')).
    rewrite <- app_assoc. cbn [app].
    assert (HR : delimited (44 :: Json.dumps_items (kv' :: items') ++ 125 :: rest))
      by (eexists _, _; eauto).
    destruct (Hitem _ HR) as (t & -> & Ht). exists t. split; [done|].
    cbn [Json.scan_members]. rewrite Ht. cbn [mbind option_bind].
    rewrite skip_ws_head by done. cbn [N.eqb Pos.eqb].
    rewrite Hval by done. cbn [mbind option_bind].
    rewrite skip_ws_head by done. cbn [N.eqb Pos.eqb].
    rewrite Ht'. rewrite skip_ws_head by done. cbn [N.eqb Pos.eqb].
    rewrite Hscan'. done.
Qed.

Lemma dumps_items_length items :
  (length items ≤ length (Json.dumps_items items))%nat.
Proof.
  induction items as [|kv [|kv' items] IH]; [done| |].
  - cbn. lia.
  - change (Json.dumps_items (kv :: kv' :: items))
      with (Json.dumps_item kv ++ 44 :: Json.dumps_items (kv' :: items)).
    rewrite length_app. cbn [length] in *. lia.
Qed.

(** [json.loads] reads back every flat object [json.dumps] wrote. *)
Lemma json_loads_dumps items :
  Forall (λ kv, item_safe kv = true) items →
  Json.json_loads (Json.json_dumps items) = Some items.
Proof.
  intros Hsafe. unfold Json.json_loads, Json.json_dumps.
  rewrite skip_ws_head by done. cbn [N.eqb Pos.eqb].
  destruct items as [|kv items]; [done|].
  destruct (scan_members_dumps (kv :: items)
              (length (Json.dumps_items (kv :: items) ++ [125])) []
              ltac:(done) Hsafe) as (t & Ht & Hscan).
  { rewrite length_app. pose proof (dumps_items_length (kv :: items)). lia. }
  unfold Json.scan_object. rewrite Ht. rewrite skip_ws_head by done.
  cbn [N.eqb Pos.eqb]. rewrite <- Ht, Hscan. done.
Qed.

(** ** [quote] and [unquote] on ASCII text *)

Lemma hex_digit_lower_ascii d : d < 16 → Json.hex_digit_lower d < 128.
Proof. intros. unfold Json.hex_digit_lower. destruct (d <? 10); lia. Qed.

Lemma hex_digit_upper_ascii d : d < 16 → Url.hex_digit_upper d < 128.
Proof. intros. unfold Url.hex_digit_upper. destruct (d <? 10); lia. Qed.

Lemma u_escape_ascii n : ascii_text (Json.u_escape n).
Proof.
  unfold Json.u_escape, Json.hex4.
  repeat constructor; try lia; apply hex_digit_lower_ascii; ndm.
Qed.

Lemma escape_char_ascii c : ascii_text (Json.escape_char c).
Proof.
  unfold Json.escape_char.
  repeat match goal with
         | |- context [N.eqb ?a ?b] =>
             destruct (N.eqb_spec a b); [repeat constructor; lia|]
         end.
  destruct (N.leb_spec 32 c); cbn [andb].
  - destruct (N.leb_spec c 126); [repeat constructor; lia|].
    destruct (c <? 0x10000); [apply u_escape_ascii|].
    apply Forall_app. split; apply u_escape_ascii.
  - destruct (c <? 0x10000); [apply u_escape_ascii|].
    apply Forall_app. split; apply u_escape_ascii.
Qed.

Lemma encode_basestring_ascii_ascii s : ascii_text (Json.encode_basestring_ascii s).
Proof.
  unfold Json.encode_basestring_ascii. constructor; [lia|].
  apply Forall_app. split; [|repeat constructor; lia].
  induction s as [|c s IH]; [constructor|].
  cbn [flat_map]. apply Forall_app. split; [apply escape_char_ascii|done].
Qed.

Lemma digit_ascii c : Json.is_digit c = true → c < 128.
Proof. unfold Json.is_digit. intros [_ ?%N.leb_le]%andb_prop. lia. Qed.

Lemma str_of_int_ascii z : ascii_text (str_of_int z).
Proof.
  assert (H : ∀ n, ascii_text (str_of_N n)).
  { intros n. unfold str_of_N.
    eapply Forall_impl; [apply digits_aux_all_digits; constructor|].
    intros c. apply digit_ascii. }
  unfold str_of_int. destruct (z <? 0)%Z; [constructor; [lia|]|]; apply H.
Qed.

Lemma dumps_value_ascii v : ascii_text (Json.dumps_value v).
Proof.
  destruct v as [|[|]|z|s]; cbn [Json.dumps_value].
  1-3: repeat constructor; cbn; lia.
  - apply str_of_int_ascii.
  - apply encode_basestring_ascii_ascii.
Qed.

Lemma dumps_item_ascii kv : ascii_text (Json.dumps_item kv).
Proof.
  unfold Json.dumps_item. apply Forall_app. split.
  - apply encode_basestring_ascii_ascii.
  - constructor; [lia|apply dumps_value_ascii].
Qed.

(** With [ensure_ascii], [json.dumps] writes ASCII only. *)
Lemma json_dumps_ascii items : ascii_text (Json.json_dumps items).
Proof.
  unfold Json.json_dumps. constructor; [lia|].
  apply Forall_app. split; [|repeat constructor; lia].
  induction items as [|kv [|kv' items] IH]; [constructor|apply dumps_item_ascii|].
  change (Json.dumps_items (kv :: kv' :: items))
    with (Json.dumps_item kv ++ 44 :: Json.dumps_items (kv' :: items)).
  apply Forall_app. split; [apply dumps_item_ascii|]. constructor; [lia|done].
Qed.

Lemma utf8_encode_str_ascii s : ascii_text s → Url.utf8_encode_str s = Some s.
Proof.
  induction 1 as [|c s Hc _ IH]; [done|].
  cbn [Url.utf8_encode_str]. unfold Url.utf8_encode.
  destruct (N.ltb_spec c 0x80); [|lia]. cbn. by rewrite IH.
Qed.

Lemma utf8_decode_ascii s : ascii_text s → Url.utf8_decode s = Some s.
Proof.
  induction 1 as [|c s Hc _ IH]; [done|].
  cbn [Url.utf8_decode]. destruct (N.ltb_spec c 0x80); [|lia]. by rewrite IH.
Qed.

Lemma quote_byte_ascii b : b < 128 → ascii_text (Url.quote_byte b).
Proof.
  intros Hb. unfold Url.quote_byte, Url.percent.
  destruct (_ || _); repeat constructor; try lia; apply hex_digit_upper_ascii; ndm.
Qed.

Lemma quoted_ascii s : ascii_text s → ascii_text (flat_map Url.quote_byte s).
Proof.
  induction 1 as [|c s Hc _ IH]; [constructor|].
  cbn [flat_map]. apply Forall_app. split; [by apply quote_byte_ascii|done].
Qed.

Lemma percent_decode_quote_byte b t :
  b < 256 →
  Url.percent_decode (Url.quote_byte b ++ t) = b :: Url.percent_decode t.
Proof.
  intros Hb. unfold Url.quote_byte.
  destruct (Url.is_always_safe b || (b =? 47)) eqn:Hsafe.
  - cbn [app Url.percent_decode].
    destruct (N.eqb_spec b 37) as [->|]; [done|]. done.
  - unfold Url.percent. cbn [app Url.percent_decode N.eqb Pos.eqb].
    rewrite !hex_val_upper by ndm. f_equal. ndm.
Qed.

Lemma percent_decode_quoted s :
  ascii_text s → Url.percent_decode (flat_map Url.quote_byte s) = s.
Proof.
  induction 1 as [|c s Hc _ IH]; [done|].
  cbn [flat_map]. rewrite percent_decode_quote_byte by lia. by rewrite IH.
Qed.

(** On ASCII text [quote] succeeds and [unquote] undoes it. *)
Lemma quote_unquote_ascii s :
  ascii_text s →
  Url.quote s = Some (flat_map Url.quote_byte s)
  ∧ Url.unquote (flat_map Url.quote_byte s) = Some s.
Proof.
  intros Hs. unfold Url.quote, Url.unquote.
  rewrite utf8_encode_str_ascii by done.
  rewrite utf8_encode_str_ascii by (by apply quoted_ascii).
  cbn [mbind option_bind]. rewrite percent_decode_quoted by done.
  by rewrite utf8_decode_ascii.
Qed.


Local Close Scope N_scope.

(** ** Rules of the weakest precondition *)

Section WpRules.

Context {S : Type}.
Implicit Types w : world S.

Lemma wp_mono {A : Type} (m : M S A) (Q Q' : result A → world S → Prop) w :
  wp m Q w → (∀ r w', Q r w' → Q' r w') → wp m Q' w.
Proof. unfold wp. auto. Qed.

Lemma wp_bind {A B : Type} (m : M S A) (k : A → M S B) Q w :
  wp m (λ r w', match r with
                | Ok a => wp (k a) Q w'
                | Raise e => Q (Raise e) w'
                end) w →
  wp (m ≫= k) Q w.
Proof. unfold wp, mbind, M_bind. destruct (m w) as [[a|e] w']; simpl; auto. Qed.

Lemma wp_try {A : Type} (m : M S A) h Q w :
  wp m (λ r w', match r with
                | Ok a => Q (Ok a) w'
                | Raise e => wp (h e) Q w'
                end) w →
  wp (try_except m h) Q w.
Proof. unfold wp, try_except. destruct (m w) as [[a|e] w']; simpl; auto. Qed.

Lemma wp_get_self (Q : result S → world S → Prop) w :
  Q (Ok (self w)) w → wp get_self Q w.
Proof. done. Qed.

Lemma wp_ret {A : Type} (a : A) (Q : result A → world S → Prop) w :
  Q (Ok a) w → wp (mret a) Q w.
Proof. done. Qed.

Lemma wp_raise {A : Type} e (Q : result A → world S → Prop) w :
  Q (Raise e) w → wp (raise e) Q w.
Proof. done. Qed.

Lemma wp_of_result {A : Type} (r : result A) (Q : result A → world S → Prop) w :
  Q r w → wp (of_result r) Q w.
Proof. done. Qed.

Lemma wp_update f (Q : result unit → world S → Prop) w :
  Q (Ok tt) (World (f (self w)) (trace w)) → wp (update f) Q w.
Proof. done. Qed.

Lemma wp_log l m (Q : result unit → world S → Prop) w :
  Q (Ok tt) (World (self w) (trace w ++ [Log l m])) → wp (log l m) Q w.
Proof. done. Qed.

Lemma wp_getitem {V : Type} (d : gmap str V) k (Q : result V → world S → Prop) w :
  match d !! k with
  | Some v => Q (Ok v) w
  | None => Q (Raise (KeyError k)) w
  end →
  wp (getitem d k) Q w.
Proof. unfold wp, getitem. destruct (d !! k); done. Qed.

Lemma wp_quote s (Q : result str → world S → Prop) w :
  match Url.quote s with
  | Some q => Q (Ok q) w
  | None => Q (Raise UnicodeEncodeError) w
  end →
  wp (quote s) Q w.
Proof. unfold wp, quote. destruct (Url.quote s); done. Qed.

Lemma wp_requests_get net url params (Q : result response → world S → Prop) w :
  match net (trace w) url with
  | ConnectionFailed =>
      Q (Raise ConnectionError) (World (self w) (trace w ++ [HttpGet url params]))
  | TimedOut =>
      Q (Raise Timeout) (World (self w) (trace w ++ [HttpGet url params]))
  | Responds st js =>
      Q (Ok (Response st js)) (World (self w) (trace w ++ [HttpGet url params]))
  end →
  wp (requests_get net url params) Q w.
Proof. unfold wp, requests_get. destruct (net (trace w) url); done. Qed.

Lemma wp_raise_for_status r (Q : result unit → world S → Prop) w :
  (if is_error_status (status_code r)
   then Q (Raise (HTTPError (status_code r))) w
   else Q (Ok tt) w) →
  wp (raise_for_status r) Q w.
Proof. unfold wp, raise_for_status. destruct (is_error_status _); done. Qed.

Lemma wp_response_json r (Q : result unit → world S → Prop) w :
  (if body_is_json r then Q (Ok tt) w else Q (Raise JSONDecodeError) w) →
  wp (response_json r) Q w.
Proof. unfold wp, response_json. destruct (body_is_json _); done. Qed.

Lemma wp_if {A : Type} (b : bool) (m1 m2 : M S A) Q w :
  (if b then wp m1 Q w else wp m2 Q w) → wp (if b then m1 else m2) Q w.
Proof. destruct b; done. Qed.

End WpRules.

(** One step of symbolic execution; a branch of the code becomes a case
    of the proof. *)
Ltac wp_step :=
  lazymatch goal with
  | |- wp (mbind _ _) _ _ => apply wp_bind
  | |- wp (try_except _ _) _ _ => apply wp_try
  | |- wp get_self _ _ => apply wp_get_self
  | |- wp (mret _) _ _ => apply wp_ret
  | |- wp (raise _) _ _ => apply wp_raise
  | |- wp (update _) _ _ => apply wp_update
  | |- wp (of_result ?r) _ _ => apply wp_of_result; destruct r eqn:?
  | |- wp (log _ _) _ _ => apply wp_log
  | |- wp (getitem ?d ?k) _ _ => apply wp_getitem; destruct (d !! k) eqn:?
  | |- wp (quote ?s) _ _ => apply wp_quote; destruct (Url.quote s) eqn:?
  | |- wp (requests_get ?net ?url _) _ ?w =>
      apply wp_requests_get; destruct (net (trace w) url) eqn:?
  | |- wp (raise_for_status ?r) _ _ =>
      apply wp_raise_for_status; destruct (is_error_status (status_code r)) eqn:?
  | |- wp (response_json ?r) _ _ =>
      apply wp_response_json; destruct (body_is_json r) eqn:?
  | |- wp (if ?b then _ else _) _ _ =>
      first [ progress cbn [is_request_exception]
            | apply wp_if; destruct b eqn:? ]
  end; cbv beta iota; cbn [self trace status_code body_is_json] in *.

Ltac wp_run := repeat wp_step.

Lemma no_request_logs (evs : list event) :
  forallb (λ ev, negb (is_get ev)) evs = true → no_request evs.
Proof.
  rewrite forallb_forall. intros H. apply Forall_forall. intros ev Hev.
  apply list_elem_of_In in Hev. apply H in Hev. by destruct (is_get ev).
Qed.

Lemma not_failure_reported (evs : list event) :
  forallb (λ ev, match reported_failure ev with Some _ => false | None => true end) evs = true →
  ¬ failure_reported evs.
Proof.
  rewrite forallb_forall. intros H Hex. apply Exists_exists in Hex as (ev & Hin & [e He]).
  apply list_elem_of_In in Hin. apply H in Hin. by rewrite He in Hin.
Qed.

Lemma failure_reported_last (evs : list event) ev :
  is_Some (reported_failure ev) → failure_reported (evs ++ [ev]).
Proof. intros H. apply Exists_app. right. by constructor. Qed.

Ltac trace_norm :=
  cbn [self trace] in *; rewrite <- ?app_assoc in *; cbn [app] in *.

Ltac solve_no_request := apply no_request_logs; reflexivity.

(** A leaf without an outbound call. *)
Ltac leaf_no_call :=
  trace_norm; eexists _, None; split;
  [ reflexivity
  | cbn [trace]; reflexivity
  | cbn [self]; first [ left; reflexivity | right; eexists; reflexivity ]
  | apply NoCall; solve_no_request
  | cbn [self];
    first [ left; split; [reflexivity | apply not_failure_reported; reflexivity]
          | right; split; [reflexivity | by repeat first [ apply Exists_cons_hd; by eexists | apply Exists_cons_tl ] ] ] ].

Ltac solve_failure_reported :=
  by repeat first [ apply Exists_cons_hd; by eexists | apply Exists_cons_tl ].

(** A leaf after the outbound call. *)
Ltac leaf_call :=
  trace_norm;
  lazymatch goal with
  | H : ?net (trace ?w ++ ?pre) ?url = _
    |- ∃ evs o, send_summary ?net _ ?w _ _ evs o =>
      eexists _, (Some (net (trace w ++ pre) url)); split;
      [ reflexivity
      | cbn [trace]; reflexivity
      | right; eexists; reflexivity
      | eapply (OneCall _ _ _ pre); [reflexivity | solve_no_request | solve_no_request]
      | rewrite H; cbn [command_ok];
        repeat match goal with E : _ = ?b |- _ => rewrite E end;
        cbn [negb andb]; split;
        [ reflexivity | intros; first [ discriminate | solve_failure_reported ] ] ]
  end.


(** Closes the summary of a send on one path of its code. *)
Ltac solve_summary :=
  trace_norm; split;
  [ reflexivity
  | cbn [trace]; reflexivity
  | cbn [self]; first [ left; reflexivity | right; eexists; reflexivity ]
  | first
      [ apply NoCall; solve_no_request
      | lazymatch goal with
        | H : ?net (trace ?w ++ ?pre) ?url = _ |- exchange ?net (trace ?w) _ _ =>
            eapply (OneCall _ _ _ pre url);
            [reflexivity | solve_no_request | solve_no_request]
        end ]
  | cbn [self];
    first
      [ left; split; [reflexivity | apply not_failure_reported; reflexivity]
      | right; split; [reflexivity | solve_failure_reported]
      | match goal with H : ?net _ _ = _ |- _ => rewrite H end;
        cbn [command_ok];
        repeat match goal with E : _ = ?b |- _ => rewrite E end;
        cbn [negb andb]; split;
        [ reflexivity | intros; first [ discriminate | solve_failure_reported ] ] ] ].

(** Closes the summary of a probe on one path of its code. *)
Ltac solve_probe :=
  trace_norm; split;
  [ reflexivity
  | cbn [trace]; reflexivity
  | solve_no_request
  | cbn [self]; match goal with H : ?net _ _ = _ |- _ => rewrite H end;
    cbn [probe_ok];
    repeat match goal with E : _ = ?b |- _ => rewrite E end; reflexivity
  | match goal with H : ?net _ _ = _ |- _ => rewrite H end;
    cbn [probe_ok];
    repeat match goal with E : _ = ?b |- _ => rewrite E end;
    cbn [negb]; intros; first [ discriminate | solve_failure_reported ] ].

(** ** fan.py *)

Section FanFacts.

Variable net : network.

Lemma fan_send_ir_command_summary key w :
  wp (Fan._send_ir_command net key)
     (λ r w', ∃ evs o,
        send_summary net Fan.set_available w r w' evs o
        ∧ (sent_keys evs = [] ∨ sent_keys evs = [key])
        ∧ (contains (Fan.ir_codes (self w)) key = false →
           self w' = self w ∧ no_request evs)) w.
Proof.
  unfold Fan._send_ir_command, Fan.send_ir_command_try, Fan.send_ir_command_except.
  wp_run; eexists _, _; (split; [solve_summary|]); (split;
    [ first [ left; reflexivity | right; reflexivity ]
    | intros Hc; first [ split; [reflexivity | solve_no_request]
                       | exfalso; unfold contains in *;
                         repeat match goal with E : _ !! _ = _ |- _ => rewrite E in * end;
                         discriminate ] ]).
Qed.

Lemma fan_update_summary w :
  wp (Fan.async_update net)
     (λ r w', ∃ url post, probe_summary net Fan.set_available w r w' url post) w.
Proof.
  unfold Fan.async_update. wp_run; eexists _, _; solve_probe.
Qed.

End FanFacts.

(** ** Rounding and clamping *)

Lemma round_div_nearest m d : (0 < d)%Z → nearest_even m d (round_div m d).
Proof.
  intros Hd. unfold nearest_even, round_div.
  pose proof (Z.div_mod m d ltac:(lia)) as Hm.
  pose proof (Z.mod_pos_bound m d Hd) as Hr.
  set (q := (m / d)%Z) in *. set (r := (m mod d)%Z) in *.
  assert (Hq1 : (d * (q + 1) = d * q + d)%Z) by ring.
  destruct (Z.ltb_spec (2 * r) d).
  { split; [lia|]. intros. exfalso. lia. }
  destruct (Z.ltb_spec d (2 * r)).
  { rewrite Hq1. split; [lia|]. intros. exfalso. lia. }
  destruct (Z.even q) eqn:Heven.
  { split; [lia|done]. }
  rewrite Hq1. split; [lia|]. intros _. by rewrite Z.even_add, Heven.
Qed.

Lemma nearest_even_unique m d k k' :
  (0 < d)%Z → nearest_even m d k → nearest_even m d k' → k = k'.
Proof.
  intros Hd [H1 H2] [H3 H4].
  assert (k' = k ∨ k' = k + 1 ∨ k' = k - 1)%Z as [->|[->| ->]]; [nia|done| |].
  - assert (Hq1 : (d * (k + 1) = d * k + d)%Z) by ring. rewrite Hq1 in *.
    assert (E : (2 * Z.abs (m - d * k))%Z = d) by lia.
    assert (E' : (2 * Z.abs (m - (d * k + d)))%Z = d) by lia.
    specialize (H2 E). specialize (H4 E'). rewrite Z.even_add, H2 in H4. done.
  - assert (Hq1 : (d * (k - 1) = d * k - d)%Z) by ring. rewrite Hq1 in *.
    assert (E : (2 * Z.abs (m - d * k))%Z = d) by lia.
    assert (E' : (2 * Z.abs (m - (d * k - d)))%Z = d) by lia.
    specialize (H2 E). specialize (H4 E'). rewrite Z.even_sub, H2 in H4. done.
Qed.



(** ** fan.py: the commands *)

Section FanCommands.

Variable net : network.

(** After [_send_ir_command], whatever it did. *)
Lemma wp_fan_send_then {A : Type} key (k : unit → M Fan.fan A) Q w :
  (∀ w1 evs o,
     send_summary net Fan.set_available w (Ok tt) w1 evs o →
     sent_keys evs = [] ∨ sent_keys evs = [key] →
     (contains (Fan.ir_codes (self w)) key = false → self w1 = self w ∧ no_request evs) →
     wp (k tt) Q w1) →
  wp (Fan._send_ir_command net key ≫= k) Q w.
Proof.
  intros Hk. apply wp_bind. eapply wp_mono; [apply fan_send_ir_command_summary|].
  intros r w1 (evs & o & Hs & Hkeys & Hidle).
  pose proof (sent_returns _ _ _ _ _ _ _ Hs) as Hr. subst r. eauto.
Qed.

Lemma fan_turn_off_run w :
  ∃ w1 evs o,
    send_summary net Fan.set_available w (Ok tt) w1 evs o
    ∧ (sent_keys evs = [] ∨ sent_keys evs = [lit "power"])
    ∧ Fan.async_turn_off net w
      = (Ok tt,
         World (Fan.set_preset_mode None
                  (Fan.set_percentage (Some 0%Z) (Fan.set_is_on false (self w1))))
               (trace w1)).
Proof.
  assert (H : wp (Fan.async_turn_off net)
                (λ r w', ∃ w1 evs o,
                   send_summary net Fan.set_available w (Ok tt) w1 evs o
                   ∧ (sent_keys evs = [] ∨ sent_keys evs = [lit "power"])
                   ∧ (r, w')
                     = (Ok tt,
                        World (Fan.set_preset_mode None
                                 (Fan.set_percentage (Some 0%Z)
                                    (Fan.set_is_on false (self w1))))
                              (trace w1))) w).
  { unfold Fan.async_turn_off. apply wp_fan_send_then. intros w1 evs o Hs Hk _.
    wp_run. eauto 10. }
  unfold wp in H. by rewrite <- surjective_pairing in H.
Qed.

Lemma fan_set_percentage_run p w :
  p ≠ 0%Z →
  let key := Fan.speed_key (Fan.speed_level (Fan.speed_count (self w)) p) in
  contains (Fan.ir_codes (self w)) key = true →
  ∃ w1 evs o,
    send_summary net Fan.set_available w (Ok tt) w1 evs o
    ∧ (sent_keys evs = [] ∨ sent_keys evs = [key])
    ∧ Fan.async_set_percentage net p w
      = (Ok tt,
         World (Fan.set_preset_mode None
                  (Fan.set_is_on true (Fan.set_percentage (Some p) (self w1))))
               (trace w1)).
Proof.
  intros Hp key Hkey.
  assert (H : wp (Fan.async_set_percentage net p)
                (λ r w', ∃ w1 evs o,
                   send_summary net Fan.set_available w (Ok tt) w1 evs o
                   ∧ (sent_keys evs = [] ∨ sent_keys evs = [key])
                   ∧ (r, w')
                     = (Ok tt,
                        World (Fan.set_preset_mode None
                                 (Fan.set_is_on true
                                    (Fan.set_percentage (Some p) (self w1))))
                              (trace w1))) w).
  { unfold Fan.async_set_percentage. destruct (Z.eqb_spec p 0); [done|].
    apply wp_bind, wp_get_self. cbv beta iota zeta. fold key. rewrite Hkey.
    apply wp_fan_send_then. intros w1 evs o Hs Hk _. wp_run. eauto 10. }
  unfold wp in H. by rewrite <- surjective_pairing in H.
Qed.

Lemma fan_set_percentage_idle p w :
  p ≠ 0%Z →
  let key := Fan.speed_key (Fan.speed_level (Fan.speed_count (self w)) p) in
  contains (Fan.ir_codes (self w)) key = false →
  Fan.async_set_percentage net p w
  = (Ok tt, World (self w) (trace w ++ [Log Warning (MsgNotFound key)])).
Proof.
  intros Hp key Hkey. unfold Fan.async_set_percentage.
  destruct (Z.eqb_spec p 0); [done|].
  unfold mbind, M_bind, get_self. cbv beta iota zeta. fold key. by rewrite Hkey.
Qed.

Lemma fan_set_preset_mode_run m w :
  m ∈ Fan.preset_modes (self w) →
  contains (Fan.ir_codes (self w)) (Fan.preset_key m) = true →
  ∃ w1 evs o,
    send_summary net Fan.set_available w (Ok tt) w1 evs o
    ∧ (sent_keys evs = [] ∨ sent_keys evs = [Fan.preset_key m])
    ∧ Fan.async_set_preset_mode net m w
      = (Ok tt,
         World (Fan.set_percentage None
                  (Fan.set_is_on true (Fan.set_preset_mode (Some m) (self w1))))
               (trace w1)).
Proof.
  intros Hm Hkey.
  assert (H : wp (Fan.async_set_preset_mode net m)
                (λ r w', ∃ w1 evs o,
                   send_summary net Fan.set_available w (Ok tt) w1 evs o
                   ∧ (sent_keys evs = [] ∨ sent_keys evs = [Fan.preset_key m])
                   ∧ (r, w')
                     = (Ok tt,
                        World (Fan.set_percentage None
                                 (Fan.set_is_on true
                                    (Fan.set_preset_mode (Some m) (self w1))))
                              (trace w1))) w).
  { unfold Fan.async_set_preset_mode.
    apply wp_bind, wp_get_self. cbv beta iota zeta.
    rewrite bool_decide_eq_true_2 by done. cbn [negb]. rewrite Hkey.
    apply wp_fan_send_then. intros w1 evs o Hs Hk _. wp_run. eauto 10. }
  unfold wp in H. by rewrite <- surjective_pairing in H.
Qed.

Lemma fan_set_preset_mode_idle m w :
  m ∉ Fan.preset_modes (self w)
  ∨ contains (Fan.ir_codes (self w)) (Fan.preset_key m) = false →
  ∃ what,
    Fan.async_set_preset_mode net m w
    = (Ok tt, World (self w) (trace w ++ [Log Warning (MsgNotFound what)])).
Proof.
  intros H. unfold Fan.async_set_preset_mode, mbind, M_bind, get_self.
  cbv beta iota zeta.
  destruct (decide (m ∈ Fan.preset_modes (self w))) as [Hin|Hnot].
  - rewrite bool_decide_eq_true_2 by done. cbn [negb].
    destruct H as [?| ->]; [done|]. eauto.
  - rewrite bool_decide_eq_false_2 by done. cbn [negb]. eauto.
Qed.

End FanCommands.

(** ** climate.py, button.py and remote.py: sends and probes *)

Section OtherEntities.

Variable net : network.

Lemma climate_send_hvac_command_summary w :
  wp (Climate._send_hvac_command net)
     (λ r w', ∃ evs o, send_summary net Climate.set_available w r w' evs o) w.
Proof.
  unfold Climate._send_hvac_command, Climate.send_hvac_command_try,
    Climate.send_hvac_command_except.
  wp_run; eexists _, _; solve_summary.
Qed.

Lemma climate_update_summary w :
  wp (Climate.async_update net)
     (λ r w', ∃ url post, probe_summary net Climate.set_available w r w' url post) w.
Proof. unfold Climate.async_update. wp_run; eexists _, _; solve_probe. Qed.

Lemma button_press_summary w :
  wp (Button.async_press net)
     (λ r w', ∃ evs o, send_summary net Button.set_available w r w' evs o) w.
Proof.
  unfold Button.async_press, Button.async_press_try, Button.async_press_except.
  wp_run; eexists _, _; solve_summary.
Qed.

Lemma button_update_summary w :
  wp (Button.async_update net)
     (λ r w', ∃ url post, probe_summary net Button.set_available w r w' url post) w.
Proof. unfold Button.async_update. wp_run; eexists _, _; solve_probe. Qed.

Lemma remote_send_ir_command_summary name w :
  wp (Remote._send_ir_command net name)
     (λ r w', ∃ evs o, send_summary net Remote.set_available w r w' evs o) w.
Proof.
  unfold Remote._send_ir_command, Remote.send_ir_command_try,
    Remote.send_ir_command_except.
  wp_run; eexists _, _; solve_summary.
Qed.

Lemma remote_update_summary w :
  wp (Remote.async_update net)
     (λ r w', ∃ url post, probe_summary net Remote.set_available w r w' url post) w.
Proof. unfold Remote.async_update. wp_run; eexists _, _; solve_probe. Qed.

End OtherEntities.

(** ** The discipline of the availability flag *)

Section FlagDiscipline.

Context {S : Type} (av : S → bool) (set_av : bool → S → S).
Hypothesis av_set_av : ∀ b s, av (set_av b s) = b.

Lemma flag_discipline_refl (w : world S) : flag_discipline av w w.
Proof. exists []. split; [by rewrite app_nil_r|auto]. Qed.

Lemma flag_discipline_extend (w w1 w2 : world S) evs2 :
  flag_discipline av w w1 →
  trace w2 = trace w1 ++ evs2 →
  av (self w2) = av (self w1) →
  flag_discipline av w w2.
Proof.
  intros (evs & Ht & Hf) Ht2 Hav. exists (evs ++ evs2). split.
  - by rewrite Ht2, Ht, app_assoc.
  - rewrite Hav. intros [?|?]%Hf; [by left|right]. apply Exists_app. by left.
Qed.

Lemma flag_discipline_trans (w w1 w2 : world S) :
  flag_discipline av w w1 → flag_discipline av w1 w2 → flag_discipline av w w2.
Proof.
  intros (evs1 & Ht1 & Hf1) (evs2 & Ht2 & Hf2). exists (evs1 ++ evs2). split.
  - by rewrite Ht2, Ht1, app_assoc.
  - intros [Hmid|?]%Hf2.
    + apply Hf1 in Hmid as [?|?]; [by left|right]. apply Exists_app. by left.
    + right. apply Exists_app. by right.
Qed.

Lemma flag_discipline_send net (w w1 : world S) r evs o :
  send_summary net set_av w r w1 evs o → flag_discipline av w w1.
Proof.
  intros [_ Ht _ _ Hv]. exists evs. split; [done|].
  destruct o as [out|].
  - destruct Hv as [-> Hrep]. rewrite av_set_av. auto.
  - destruct Hv as [[-> _]|[-> ?]]; auto.
Qed.

Lemma flag_discipline_probe net (w w1 : world S) r url post :
  probe_summary net set_av w r w1 url post → flag_discipline av w w1.
Proof.
  intros [_ Ht _ Hv Hrep]. eexists. split; [done|].
  rewrite Hv, av_set_av. intros ?%Hrep. right. by apply Exists_cons_tl.
Qed.

End FlagDiscipline.

Lemma call_failed_not_ok o : call_failed o → command_ok o = false.
Proof.
  destruct o as [| |st js]; [done..|]. cbn. intros [->| ->]; [done|].
  by rewrite andb_false_r.
Qed.

Lemma call_succeeded_ok o : call_succeeded o → command_ok o = true.
Proof.
  destruct o as [| |st js]; [done..|]. cbn. intros [H2xx ->].
  unfold is_2xx in H2xx. unfold is_error_status.
  apply andb_prop in H2xx as [?%Z.leb_le ?%Z.ltb_lt].
  destruct (Z.leb_spec 400 st); [lia|]. done.
Qed.

Lemma command_ok_spec o :
  command_ok o = true
  ↔ ∃ st, o = Responds st true ∧ is_error_status st = false.
Proof.
  split.
  - destruct o as [| |st js]; [done..|]. cbn.
    intros [?%negb_true_iff ->]%andb_prop. eauto.
  - intros (st & -> & Hst). cbn. by rewrite Hst.
Qed.

Lemma probe_ok_spec o :
  probe_ok o = true
  ↔ ∃ st js, o = Responds st js ∧ is_error_status st = false.
Proof.
  split.
  - destruct o as [| |st js]; [done..|]. cbn. intros ?%negb_true_iff. eauto.
  - intros (st & js & -> & Hst). cbn. by rewrite Hst.
Qed.

(** A call in the middle of a command, by what is known of it. *)
Lemma wp_call {S A B : Type} (m : M S A) (k : A → M S B)
  (P : result A → world S → Prop) Q w :
  wp m P w →
  (∀ r w1, P r w1 →
     match r with
     | Ok a => wp (k a) Q w1
     | Raise e => Q (Raise e) w1
     end) →
  wp (m ≫= k) Q w.
Proof. intros Hm Hk. apply wp_bind. eapply wp_mono; [exact Hm|]. exact Hk. Qed.

Section Disciplined.

Context {S : Type} (av : S → bool).

Lemma disciplined_bind (m : M S unit) (k : unit → M S unit) :
  disciplined av m → (∀ x, disciplined av (k x)) → disciplined av (m ≫= k).
Proof.
  intros Hm Hk w. eapply wp_call; [apply Hm|].
  intros r w1 [-> Hf]. eapply wp_mono; [apply Hk|].
  intros r w2 [-> Hf2]. split; [done|]. by eapply flag_discipline_trans.
Qed.

Lemma disciplined_get_self (k : S → M S unit) :
  (∀ me, disciplined av (k me)) → disciplined av (get_self ≫= k).
Proof. intros Hk w. apply wp_bind, wp_get_self. apply Hk. Qed.

Lemma disciplined_ret : disciplined av (mret tt).
Proof. intros w. apply wp_ret. split; [done|]. apply flag_discipline_refl. Qed.

Lemma disciplined_update (f : S → S) :
  (∀ s, av (f s) = av s) → disciplined av (update f).
Proof.
  intros Hf w. apply wp_update. split; [done|].
  eapply (flag_discipline_extend av w w _ []); [apply flag_discipline_refl| |apply Hf].
  by rewrite app_nil_r.
Qed.

Lemma disciplined_log l m : disciplined av (log l m).
Proof.
  intros w. apply wp_log. split; [done|].
  by eapply (flag_discipline_extend av w w _ [_]); [apply flag_discipline_refl|..].
Qed.

Lemma disciplined_if (b : bool) (m1 m2 : M S unit) :
  disciplined av m1 → disciplined av m2 → disciplined av (if b then m1 else m2).
Proof. by destruct b. Qed.

Lemma disciplined_send net set_av (m : M S unit) :
  (∀ b s, av (set_av b s) = b) →
  (∀ w, wp m (λ r w', ∃ evs o, send_summary net set_av w r w' evs o) w) →
  disciplined av m.
Proof.
  intros Hav Hm w. eapply wp_mono; [apply Hm|].
  intros r w' (evs & o & Hs). split; [by destruct Hs|].
  by eapply flag_discipline_send.
Qed.

Lemma disciplined_probe net set_av (m : M S unit) :
  (∀ b s, av (set_av b s) = b) →
  (∀ w, wp m (λ r w', ∃ url post, probe_summary net set_av w r w' url post) w) →
  disciplined av m.
Proof.
  intros Hav Hm w. eapply wp_mono; [apply Hm|].
  intros r w' (url & post & Hs). split; [by destruct Hs|].
  by eapply flag_discipline_probe.
Qed.

End Disciplined.

(** Composes the discipline of a command from that of its parts; [known]
    closes the calls whose discipline is already proved. *)
Ltac solve_disciplined_with known :=
  repeat first
    [ known
    | apply disciplined_ret
    | apply disciplined_log
    | apply disciplined_update; reflexivity
    | apply disciplined_get_self; intros ?
    | apply disciplined_bind; [|intros ?]
    | apply disciplined_if ].

Ltac solve_disciplined := solve_disciplined_with assumption.

Section AllCommands.

Variable net : network.

Lemma fan_send_disciplined key :
  disciplined Fan.available (Fan._send_ir_command net key).
Proof.
  apply (disciplined_send _ net Fan.set_available); [done|].
  intros w. eapply wp_mono; [apply fan_send_ir_command_summary|].
  intros r w' (evs & o & ? & _). eauto.
Qed.

Lemma fan_run_disciplined c : disciplined Fan.available (Fan.run net c).
Proof.
  pose proof fan_send_disciplined as Hsend.
  assert (Hoff : disciplined Fan.available (Fan.async_turn_off net)).
  { unfold Fan.async_turn_off. solve_disciplined_with ltac:(apply Hsend). }
  assert (Hpct : ∀ p, disciplined Fan.available (Fan.async_set_percentage net p)).
  { intros p. unfold Fan.async_set_percentage. solve_disciplined_with ltac:(apply Hsend). }
  assert (Hpre : ∀ m, disciplined Fan.available (Fan.async_set_preset_mode net m)).
  { intros m. unfold Fan.async_set_preset_mode. solve_disciplined_with ltac:(apply Hsend). }
  destruct c as [p m| | | |o|]; cbn [Fan.run]; auto.
  - unfold Fan.async_turn_on. destruct m, p; auto. solve_disciplined_with ltac:(apply Hsend).
  - unfold Fan.async_oscillate. solve_disciplined_with ltac:(apply Hsend).
  - apply (disciplined_probe _ net Fan.set_available); [done|].
    apply fan_update_summary.
Qed.

Lemma climate_run_disciplined c : disciplined Climate.available (Climate.run net c).
Proof.
  assert (Hsend : disciplined Climate.available (Climate._send_hvac_command net)).
  { apply (disciplined_send _ net Climate.set_available); [done|].
    apply climate_send_hvac_command_summary. }
  destruct c as [[t|]| | | |]; cbn [Climate.run Climate.async_set_temperature].
  1-5: unfold Climate.async_set_hvac_mode, Climate.async_set_fan_mode,
         Climate.async_set_swing_mode; solve_disciplined.
  apply (disciplined_probe _ net Climate.set_available); [done|].
  apply climate_update_summary.
Qed.

Lemma button_run_disciplined c : disciplined Button.available (Button.run net c).
Proof.
  destruct c; cbn [Button.run].
  - apply (disciplined_send _ net Button.set_available); [done|].
    apply button_press_summary.
  - apply (disciplined_probe _ net Button.set_available); [done|].
    apply button_update_summary.
Qed.

Lemma remote_run_disciplined c : disciplined Remote.available (Remote.run net c).
Proof.
  assert (Hsend : ∀ name, disciplined Remote.available (Remote._send_ir_command net name)).
  { intros name. apply (disciplined_send _ net Remote.set_available); [done|].
    apply remote_send_ir_command_summary. }
  destruct c as [| |l|]; cbn [Remote.run].
  - apply disciplined_ret.
  - apply disciplined_ret.
  - induction l as [|cmd l IH]; cbn [Remote.async_send_command]; solve_disciplined_with ltac:(first [apply Hsend | apply IH]).
  - apply (disciplined_probe _ net Remote.set_available); [done|].
    apply remote_update_summary.
Qed.

End AllCommands.

(** ** What a send logs and requests *)

Lemma quote_json_dumps items :
  Url.quote (Json.json_dumps items)
  = Some (flat_map Url.quote_byte (Json.json_dumps items)).
Proof. apply quote_unquote_ascii, json_dumps_ascii. Qed.

Lemma ir_data_of_repeat (protocol bits data : pyval) (code : dict) :
  ir_data_of protocol bits data code
  = [(lit "Protocol", protocol); (lit "Bits", bits); (lit "Data", data);
     (lit "Repeat", default (PInt 0) (code !! lit "repeat"))].
Proof. unfold ir_data_of, dict_get. by destruct (code !! lit "repeat"). Qed.

(** Closes the paths a hypothesis on the configuration excludes. *)
Ltac wp_known :=
  wp_run; unfold contains in *;
  repeat match goal with
    | H : ?x = Some _, H' : context [match ?x with _ => _ end] |- _ =>
        rewrite H in H'; cbn [negb] in H'
    end;
  simplify_eq.

Section SendTrace.

Variable net : network.
Variables (code : dict) (protocol bits data : pyval).

Local Abbreviation ir_data := (ir_data_of protocol bits data code).
Local Abbreviation encoded := (flat_map Url.quote_byte (Json.json_dumps ir_data)).
Local Abbreviation well_formed :=
  (code !! lit "protocol" = Some protocol
   ∧ code !! lit "bits" = Some bits
   ∧ code !! lit "data" = Some data).

Lemma fan_send_trace key (w : world Fan.fan) :
  well_formed → Fan.ir_codes (self w) !! key = Some code →
  ∃ post,
    trace (Fan._send_ir_command net key w).2
    = trace w ++ Log Info (MsgSending key ir_data)
        :: Log Debug (MsgRequest (irsend_url (Fan.device_ip (self w)) encoded))
        :: HttpGet (irsend_url (Fan.device_ip (self w)) encoded) [(lit "timeout", 10%Z)]
        :: post.
Proof.
  intros (Hprotocol & Hbits & Hdata) Hcode.
  pose proof (quote_json_dumps ir_data) as Hq.
  change (wp (Fan._send_ir_command net key)
            (λ _ w', ∃ post,
               trace w'
               = trace w ++ Log Info (MsgSending key ir_data)
                   :: Log Debug (MsgRequest (irsend_url (Fan.device_ip (self w)) encoded))
                   :: HttpGet (irsend_url (Fan.device_ip (self w)) encoded)
                        [(lit "timeout", 10%Z)]
                   :: post) w).
  unfold Fan._send_ir_command, Fan.send_ir_command_try, Fan.send_ir_command_except.
  wp_known; trace_norm; eexists; reflexivity.
Qed.

Lemma remote_send_trace name (w : world Remote.remote) :
  well_formed → Remote.buttons (self w) !! name = Some code →
  ∃ post,
    trace (Remote._send_ir_command net name w).2
    = trace w ++ Log Info (MsgSending name ir_data)
        :: Log Debug (MsgRequest (irsend_url (Remote.device_ip (self w)) encoded))
        :: HttpGet (irsend_url (Remote.device_ip (self w)) encoded) [(lit "timeout", 10%Z)]
        :: post.
Proof.
  intros (Hprotocol & Hbits & Hdata) Hcode.
  pose proof (quote_json_dumps ir_data) as Hq.
  change (wp (Remote._send_ir_command net name)
            (λ _ w', ∃ post,
               trace w'
               = trace w ++ Log Info (MsgSending name ir_data)
                   :: Log Debug (MsgRequest (irsend_url (Remote.device_ip (self w)) encoded))
                   :: HttpGet (irsend_url (Remote.device_ip (self w)) encoded)
                        [(lit "timeout", 10%Z)]
                   :: post) w).
  unfold Remote._send_ir_command, Remote.send_ir_command_try,
    Remote.send_ir_command_except.
  wp_known; trace_norm; eexists; reflexivity.
Qed.

Lemma button_press_trace (w : world Button.button) :
  well_formed → Button.button_data (self w) = code →
  ∃ post,
    trace (Button.async_press net w).2
    = trace w ++ Log Info (MsgSending (Button.button_name (self w)) ir_data)
        :: Log Debug (MsgRequest (irsend_url (Button.device_ip (self w)) encoded))
        :: HttpGet (irsend_url (Button.device_ip (self w)) encoded) [(lit "timeout", 10%Z)]
        :: post.
Proof.
  intros (Hprotocol & Hbits & Hdata) Hcode.
  pose proof (quote_json_dumps ir_data) as Hq.
  change (wp (Button.async_press net)
            (λ _ w', ∃ post,
               trace w'
               = trace w ++ Log Info (MsgSending (Button.button_name (self w)) ir_data)
                   :: Log Debug (MsgRequest (irsend_url (Button.device_ip (self w)) encoded))
                   :: HttpGet (irsend_url (Button.device_ip (self w)) encoded)
                        [(lit "timeout", 10%Z)]
                   :: post) w).
  rewrite <- Hcode in *.
  unfold Button.async_press, Button.async_press_try, Button.async_press_except.
  wp_known; trace_norm; eexists; reflexivity.
Qed.

End SendTrace.

Section ClimateTrace.

Variable net : network.

(** What [_send_hvac_command] does when the temperature is a number
    [int] accepts. *)
Lemma climate_send_trace (w : world Climate.climate) temp :
  Climate.int_of (Climate.target_temperature (self w)) = Ok temp →
  let command_data := Climate.command_data_of (self w) temp in
  let encoded := flat_map Url.quote_byte (Json.json_dumps command_data) in
  let url := irhvac_url (Climate.device_ip (self w)) encoded in
  ∃ post,
    trace (Climate._send_hvac_command net w).2
    = trace w ++ Log Info (MsgSendingHvac command_data)
        :: Log Debug (MsgRequest url)
        :: HttpGet url [(lit "timeout", 10%Z)]
        :: post.
Proof.
  intros Htemp command_data encoded url.
  pose proof (quote_json_dumps command_data) as Hq.
  change (wp (Climate._send_hvac_command net)
            (λ _ w', ∃ post,
               trace w'
               = trace w ++ Log Info (MsgSendingHvac command_data)
                   :: Log Debug (MsgRequest url)
                   :: HttpGet url [(lit "timeout", 10%Z)]
                   :: post) w).
  subst command_data encoded url.
  unfold Climate._send_hvac_command, Climate.send_hvac_command_try,
    Climate.send_hvac_command_except.
  wp_known; trace_norm; eexists; reflexivity.
Qed.

End ClimateTrace.

(** A send whose trace shows a request made its outbound call. *)
Lemma summary_calls {S : Type} net (set_av : bool → S → S)
  (w : world S) r w' evs o pre url params post :
  send_summary net set_av w r w' evs o →
  trace w' = trace w ++ pre ++ HttpGet url params :: post →
  is_Some o.
Proof.
  intros Hs Htrace. rewrite (sent_trace _ _ _ _ _ _ _ Hs) in Htrace.
  apply app_inv_head in Htrace. subst evs.
  destruct (sent_exchange _ _ _ _ _ _ _ Hs) as [Hno|]; [|by eexists].
  unfold no_request in Hno. rewrite Forall_app, Forall_cons in Hno.
  by destruct Hno as (_ & ? & _).
Qed.

(** The outbound requests of events without one, and of an exchange. *)
Lemma requests_no_request (evs : list event) : no_request evs → requests evs = [].
Proof.
  unfold no_request, requests. induction 1 as [|ev evs Hev _ IH]; [done|].
  destruct ev; [|done]. cbn [omap list_omap]. exact IH.
Qed.

Lemma requests_exchange net t evs o :
  exchange net t evs o → (length (requests evs) ≤ 1)%nat.
Proof.
  intros [Hno|pre url params post -> Hpre Hpost].
  - rewrite (requests_no_request _ Hno). cbn. lia.
  - unfold requests. rewrite omap_app. cbn [omap list_omap].
    fold (requests pre) (requests post).
    rewrite (requests_no_request _ Hpre), (requests_no_request _ Hpost). done.
Qed.

(** ** The claims on the fan's percentage *)

Lemma speed_key_not_power level : Fan.speed_key level ≠ lit "power".
Proof. unfold Fan.speed_key. intros H. by vm_compute in H. Qed.

Lemma summary_verdict {S : Type} net (av : S → bool) set_av
  (w : world S) r w' evs o :
  (∀ b s, av (set_av b s) = b) →
  send_summary net set_av w r w' evs o →
  ∀ out, o = Some out → av (self w') = command_ok out.
Proof.
  intros Hav [_ _ _ _ Hv] out ->. destruct Hv as [-> _]. apply Hav.
Qed.



Lemma no_request_of_requests (evs : list event) : requests evs = [] → no_request evs.
Proof.
  unfold no_request, requests. induction evs as [|[l m|url params] evs IH]; intros H.
  - constructor.
  - constructor; [done|]. by apply IH.
  - discriminate.
Qed.

Lemma fan_turn_off_trace net (w : world Fan.fan) :
  trace (Fan.async_turn_off net w).2
  = trace (Fan._send_ir_command net (lit "power") w).2.
Proof.
  unfold Fan.async_turn_off, mbind, M_bind.
  by destruct (Fan._send_ir_command net (lit "power") w) as [[[]|e] w1].
Qed.

(** C4. A call of the fan's set-percentage operation with [p = 0] is
    the turn-off operation: it returns with the fan off, the percentage
    0 and no preset mode; the only key it hands to the sender is
    [power], no [speed_<level>] key is sent, and it makes at most one
    request. When [power] is configured with protocol, bits and data,
    the power code is sent: the call logs it and requests the URL whose
    query is [cmnd=IRsend%20] followed by the encoded power code, and
    nothing else is sent after it. *)
Theorem fan_set_percentage_zero_turns_off (net : network) (w : world Fan.fan) :
  Fan.async_set_percentage net 0 w = Fan.async_turn_off net w
  ∧ (Fan.async_set_percentage net 0 w).1 = Ok tt
  ∧ Fan.is_on (self (Fan.async_set_percentage net 0 w).2) = false
  ∧ Fan.percentage (self (Fan.async_set_percentage net 0 w).2) = Some 0%Z
  ∧ Fan.preset_mode (self (Fan.async_set_percentage net 0 w).2) = None
  ∧ (∃ evs,
       trace (Fan.async_set_percentage net 0 w).2 = trace w ++ evs
       ∧ (sent_keys evs = [] ∨ sent_keys evs = [lit "power"])
       ∧ (∀ level, Fan.speed_key level ∉ sent_keys evs)
       ∧ (length (requests evs) ≤ 1)%nat)
  ∧ (∀ code protocol bits data,
       Fan.ir_codes (self w) !! lit "power" = Some code →
       code !! lit "protocol" = Some protocol →
       code !! lit "bits" = Some bits →
       code !! lit "data" = Some data →
       let ir_data := ir_data_of protocol bits data code in
       let url :=
         irsend_url (Fan.device_ip (self w))
           (flat_map Url.quote_byte (Json.json_dumps ir_data)) in
       ∃ post,
         trace (Fan.async_set_percentage net 0 w).2
         = trace w ++ Log Info (MsgSending (lit "power") ir_data)
             :: Log Debug (MsgRequest url)
             :: HttpGet url [(lit "timeout", 10%Z)]
             :: post
         ∧ no_request post
         ∧ sent_keys post = []).
Proof.
  change (Fan.async_set_percentage net 0 w) with (Fan.async_turn_off net w).
  pose proof (fan_turn_off_trace net w) as Htrace.
  destruct (fan_turn_off_run net w) as (w1 & evs & o & Hs & Hkeys & Hrun).
  rewrite Hrun in *. cbn [fst snd self trace] in *.
  pose proof (sent_trace _ _ _ _ _ _ _ Hs) as Hevs.
  pose proof (requests_exchange _ _ _ _ (sent_exchange _ _ _ _ _ _ _ Hs)) as Hone.
  split_and!; try done.
  - exists evs. split_and!; [done|done| |done].
    intros level. destruct Hkeys as [-> | ->].
    + apply not_elem_of_nil.
    + intros ?%list_elem_of_singleton. by eapply speed_key_not_power.
  - intros code protocol bits data Hcode Hprotocol Hbits Hdata.
    destruct (fan_send_trace net code protocol bits data (lit "power") w
                (conj Hprotocol (conj Hbits Hdata)) Hcode) as [post Hpost].
    exists post. rewrite Htrace, Hpost. split; [done|].
    rewrite Htrace, Hpost in Hevs. apply app_inv_head in Hevs. subst evs.
    split.
    + apply no_request_of_requests.
      cbn [requests omap list_omap] in Hone. fold (requests post) in Hone.
      destruct (requests post); [done|cbn in Hone; lia].
    + cbn [sent_keys omap list_omap] in Hkeys. fold (sent_keys post) in Hkeys.
      destruct Hkeys as [Hk|Hk]; [discriminate|]. by injection Hk.
Qed.

Lemma fan_set_percentage_zero_turns_off_witness :
  let ir_data :=
    ir_data_of (PStr (lit "NEC")) (PInt 32) (PStr (lit "0x44BB01FE")) nec_example in
  let url :=
    irsend_url example_ip (flat_map Url.quote_byte (Json.json_dumps ir_data)) in
  ∃ post,
    trace (Fan.async_set_percentage net_ok 0 example_fan).2
    = trace example_fan ++ Log Info (MsgSending (lit "power") ir_data)
        :: Log Debug (MsgRequest url)
        :: HttpGet url [(lit "timeout", 10%Z)]
        :: post
    ∧ no_request post
    ∧ sent_keys post = [].
Proof.
  exact (proj2 (proj2 (proj2 (proj2 (proj2 (proj2
           (fan_set_percentage_zero_turns_off net_ok example_fan))))))
           nec_example (PStr (lit "NEC")) (PInt 32) (PStr (lit "0x44BB01FE"))
           ltac:(vm_compute; reflexivity) ltac:(vm_compute; reflexivity)
           ltac:(vm_compute; reflexivity) ltac:(vm_compute; reflexivity)).
Defined.

(** C9. A set-percentage or set-preset-mode call whose resolved key
    ([speed_<level>] or [preset_<mode>]) is not among the configured IR
    codes returns without an outbound request and leaves the whole
    object, hence the stored percentage, the on/off state, the preset
    mode and the availability flag, as it was. *)
Theorem fan_unconfigured_key_changes_nothing
  (net : network) (w : world Fan.fan) (c : Fan.command) (key : str) :
  resolved_key (self w) c = Some key →
  contains (Fan.ir_codes (self w)) key = false →
  (Fan.run net c w).1 = Ok tt
  ∧ self (Fan.run net c w).2 = self w
  ∧ ∃ evs, trace (Fan.run net c w).2 = trace w ++ evs ∧ no_request evs.
Proof.
  intros Hres Hkey. destruct c as [| |p|m| |]; try done; cbn [Fan.run resolved_key] in *.
  - destruct (Z.eqb_spec p 0); [done|]. injection Hres as <-.
    rewrite (fan_set_percentage_idle net p w) by done.
    split_and!; [done..|]. eexists. split; [reflexivity|]. solve_no_request.
  - injection Hres as <-.
    destruct (fan_set_preset_mode_idle net m w) as [what ->]; [by right|].
    split_and!; [done..|]. eexists. split; [reflexivity|]. solve_no_request.
Qed.

Lemma fan_unconfigured_key_changes_nothing_witness :
  self (Fan.run net_ok (Fan.SetPercentage 100) example_fan).2 = self example_fan.
Proof.
  apply (fan_unconfigured_key_changes_nothing net_ok example_fan
           (Fan.SetPercentage 100) (lit "speed_3")); vm_compute; reflexivity.
Defined.

(** ** The claims on the availability flag *)




(** What a summary without a call says of the flag. *)
Lemma without_call_of_summary {S : Type} net (av : S → bool) set_av
  (w : world S) r w' evs :
  (∀ b s, av (set_av b s) = b) →
  send_summary net set_av w r w' evs None →
  without_call av w w' evs.
Proof.
  intros Hav Hs. destruct (sent_verdict _ _ _ _ _ _ _ Hs) as [?|[Hself ?]]; [by left|].
  right. by rewrite Hself, Hav.
Qed.


Lemma send_verdict_of_summary {S : Type} net (av : S → bool) set_av
  (ready : S → Prop) (m : M S unit) :
  (∀ b s, av (set_av b s) = b) →
  (∀ w, wp m (λ r w', ∃ evs o, send_summary net set_av w r w' evs o) w) →
  makes_request_when ready m →
  send_verdict net av ready m.
Proof.
  intros Hav Hm Hready w. destruct (Hm w) as (evs & o & Hs).
  exists evs, o. split_and!; [by destruct Hs..| |].
  - intros Hr. destruct (Hready w Hr) as (pre & url & params & post & Ht).
    by eapply summary_calls.
  - destruct o as [out|].
    + rewrite (summary_verdict _ _ _ _ _ _ _ _ Hav Hs out eq_refl).
      apply command_ok_spec.
    + by eapply without_call_of_summary.
Qed.

Lemma probe_verdict_of_summary {S : Type} net (av : S → bool) set_av
  (m : M S unit) :
  (∀ b s, av (set_av b s) = b) →
  (∀ w, wp m (λ r w', ∃ url post, probe_summary net set_av w r w' url post) w) →
  probe_verdict net av m.
Proof.
  intros Hav Hm w. destruct (Hm w) as (url & post & [_ Ht Hq Hv _]).
  exists url, post. split_and!; [done..|].
  rewrite Hv, Hav. apply probe_ok_spec.
Qed.

Lemma fan_send_summary_plain net key w :
  wp (Fan._send_ir_command net key)
     (λ r w', ∃ evs o, send_summary net Fan.set_available w r w' evs o) w.
Proof.
  eapply wp_mono; [apply fan_send_ir_command_summary|].
  intros r w' (evs & o & ? & _). eauto.
Qed.

Section Ready.

Variable net : network.

Lemma fan_send_ready key :
  makes_request_when (λ s, configured (Fan.ir_codes s) key)
    (Fan._send_ir_command net key).
Proof.
  intros w (code & Hcode & [protocol Hp] & [bits Hb] & [data Hd]).
  destruct (fan_send_trace net code protocol bits data key w
              (conj Hp (conj Hb Hd)) Hcode) as [post Hpost].
  eexists [_; _], _, _, post. exact Hpost.
Qed.

Lemma remote_send_ready name :
  makes_request_when (λ s, configured (Remote.buttons s) name)
    (Remote._send_ir_command net name).
Proof.
  intros w (code & Hcode & [protocol Hp] & [bits Hb] & [data Hd]).
  destruct (remote_send_trace net code protocol bits data name w
              (conj Hp (conj Hb Hd)) Hcode) as [post Hpost].
  eexists [_; _], _, _, post. exact Hpost.
Qed.

Lemma button_press_ready :
  makes_request_when (λ s, complete_code (Button.button_data s))
    (Button.async_press net).
Proof.
  intros w ([protocol Hp] & [bits Hb] & [data Hd]).
  destruct (button_press_trace net (Button.button_data (self w)) protocol bits data w
              (conj Hp (conj Hb Hd)) eq_refl) as [post Hpost].
  eexists [_; _], _, _, post. exact Hpost.
Qed.

Lemma climate_send_ready :
  makes_request_when temperature_ok (Climate._send_hvac_command net).
Proof.
  intros w [temp Htemp].
  destruct (climate_send_trace net w temp Htemp) as [post Hpost].
  eexists [_; _], _, _, post. exact Hpost.
Qed.

End Ready.



(** C6, as the code has it. A command send makes its outbound call
    whenever it can build the request, and after a call it concludes
    success, and leaves the flag true, exactly when the response has a
    status [raise_for_status] accepts (any status outside 400 to 599,
    so every 2xx status) and a JSON body; without a call the object is
    untouched, or a failure was reported and the flag is false. The
    reachability probe makes one call and concludes success exactly
    when the response has such a status; it does not read the body.
    This holds of the senders and probes of all four entities. *)
Theorem outbound_call_success_criteria (net : network) :
  ((∀ key, send_verdict net Fan.available
             (λ s, configured (Fan.ir_codes s) key) (Fan._send_ir_command net key))
   ∧ send_verdict net Climate.available temperature_ok
       (Climate._send_hvac_command net)
   ∧ send_verdict net Button.available
       (λ s, complete_code (Button.button_data s)) (Button.async_press net)
   ∧ (∀ name, send_verdict net Remote.available
                (λ s, configured (Remote.buttons s) name)
                (Remote._send_ir_command net name)))
  ∧ (probe_verdict net Fan.available (Fan.async_update net)
     ∧ probe_verdict net Climate.available (Climate.async_update net)
     ∧ probe_verdict net Button.available (Button.async_update net)
     ∧ probe_verdict net Remote.available (Remote.async_update net)).
Proof.
  split; split_and!; intros.
  - apply (send_verdict_of_summary net _ Fan.set_available); [done| |].
    + intros w. apply fan_send_summary_plain.
    + apply fan_send_ready.
  - apply (send_verdict_of_summary net _ Climate.set_available); [done| |].
    + apply climate_send_hvac_command_summary.
    + apply climate_send_ready.
  - apply (send_verdict_of_summary net _ Button.set_available); [done| |].
    + apply button_press_summary.
    + apply button_press_ready.
  - apply (send_verdict_of_summary net _ Remote.set_available); [done| |].
    + intros w. apply remote_send_ir_command_summary.
    + apply remote_send_ready.
  - apply (probe_verdict_of_summary net _ Fan.set_available); [done|].
    apply fan_update_summary.
  - apply (probe_verdict_of_summary net _ Climate.set_available); [done|].
    apply climate_update_summary.
  - apply (probe_verdict_of_summary net _ Button.set_available); [done|].
    apply button_update_summary.
  - apply (probe_verdict_of_summary net _ Remote.set_available); [done|].
    apply remote_update_summary.
Qed.

(** C6, as stated, fails twice. On the probe: against a device that
    answers 200 with a body that is not JSON, the fan's periodic update
    makes its Status call and leaves the flag true. On the status:
    against a device that answers 301 with a JSON body, the send of the
    power code by a fan that was unavailable leaves the flag true. In
    neither case did the call succeed in the sense of a 2xx status and
    a parseable body. *)
Lemma success_needs_neither_2xx_nor_parseable_body_counterexample :
  ¬ (∀ (net : network) (w : world Fan.fan) url post,
       trace (Fan.async_update net w).2
       = trace w ++ HttpGet url [(lit "timeout", 5%Z)] :: post →
       Fan.available (self (Fan.async_update net w).2) = true →
       call_succeeded (net (trace w) url))
  ∧ ¬ (∀ (net : network) (w : world Fan.fan) key pre url params post,
         trace (Fan._send_ir_command net key w).2
         = trace w ++ pre ++ HttpGet url params :: post →
         Fan.available (self (Fan._send_ir_command net key w).2) = true →
         call_succeeded (net (trace w ++ pre) url)).
Proof.
  split; intros H.
  - specialize (H net_garbled example_fan
                  (lit "http://" ++ example_ip ++ lit "/cm?cmnd=Status") []
                  eq_refl eq_refl).
    by destruct H.
  - set (ir_data := ir_data_of (PStr (lit "NEC")) (PInt 32)
                      (PStr (lit "0x44BB01FE")) nec_example).
    set (url := irsend_url example_ip
                  (flat_map Url.quote_byte (Json.json_dumps ir_data))).
    specialize (H net_moved example_fan_down (lit "power")
                  [Log Info (MsgSending (lit "power") ir_data);
                   Log Debug (MsgRequest url)]
                  url [(lit "timeout", 10%Z)] [Log Info MsgResponse]
                  ltac:(vm_compute; reflexivity) ltac:(vm_compute; reflexivity)).
    by destruct H.
Qed.

(** C8. The four entities are constructed with the availability flag
    true, and every command the host can give them returns and keeps
    the discipline of the flag: if the flag is false after the command,
    it was false before it or an except clause ran during it, that is,
    an operation failed. *)
Theorem availability_true_at_construction_false_only_after_failure :
  ((∀ ip codes cfg, Fan.available (Fan.init ip codes cfg) = true)
   ∧ (∀ ip vendor, Climate.available (Climate.init ip vendor) = true)
   ∧ (∀ ip name data, Button.available (Button.init ip name data) = true)
   ∧ (∀ ip buttons, Remote.available (Remote.init ip buttons) = true))
  ∧ (∀ net,
       (∀ c, disciplined Fan.available (Fan.run net c))
       ∧ (∀ c, disciplined Climate.available (Climate.run net c))
       ∧ (∀ c, disciplined Button.available (Button.run net c))
       ∧ (∀ c, disciplined Remote.available (Remote.run net c))).
Proof.
  split; [done|]. intros net. split_and!; intros c.
  - apply fan_run_disciplined.
  - apply climate_run_disciplined.
  - apply button_run_disciplined.
  - apply remote_run_disciplined.
Qed.

(** C10. A set-percentage call with [0 < p ≤ 100] whose speed key is
    configured returns with the percentage [p] stored and the fan on,
    and a set-temperature call with a temperature returns with that
    temperature stored, whatever became of the outbound request; when
    the request was made and failed, the availability flag is false
    afterwards. *)
Theorem state_updated_whatever_the_send_did (net : network) :
  (∀ (w : world Fan.fan) p,
     (0 < p ≤ 100)%Z →
     contains (Fan.ir_codes (self w))
       (Fan.speed_key (Fan.speed_level (Fan.speed_count (self w)) p)) = true →
     (Fan.async_set_percentage net p w).1 = Ok tt
     ∧ Fan.percentage (self (Fan.async_set_percentage net p w).2) = Some p
     ∧ Fan.is_on (self (Fan.async_set_percentage net p w).2) = true
     ∧ ∃ evs o,
         trace (Fan.async_set_percentage net p w).2 = trace w ++ evs
         ∧ exchange net (trace w) evs o
         ∧ ∀ out, o = Some out → call_failed out →
             Fan.available (self (Fan.async_set_percentage net p w).2) = false)
  ∧ (∀ (w : world Climate.climate) t,
       (Climate.async_set_temperature net (Some t) w).1 = Ok tt
       ∧ Climate.target_temperature
           (self (Climate.async_set_temperature net (Some t) w).2) = t
       ∧ ∃ evs o,
           trace (Climate.async_set_temperature net (Some t) w).2 = trace w ++ evs
           ∧ exchange net (trace w) evs o
           ∧ ∀ out, o = Some out → call_failed out →
               Climate.available
                 (self (Climate.async_set_temperature net (Some t) w).2) = false).
Proof.
  split.
  - intros w p Hp Hkey.
    destruct (fan_set_percentage_run net p w ltac:(lia) Hkey)
      as (w1 & evs & o & Hs & _ & ->).
    cbn [fst snd self trace]. split_and!; [done..|].
    exists evs, o. split_and!; [by destruct Hs..|].
    intros out Ho Hfail.
    change (Fan.available (self w1) = false).
    rewrite (summary_verdict net Fan.available Fan.set_available _ _ _ _ _
               ltac:(done) Hs out Ho).
    by apply call_failed_not_ok.
  - intros w t. cbn [Climate.async_set_temperature].
    set (w0 := World (Climate.set_target_temperature t (self w)) (trace w)).
    assert (Hrun : (update (Climate.set_target_temperature t);;
                    Climate._send_hvac_command net) w
                   = Climate._send_hvac_command net w0) by done.
    rewrite Hrun.
    destruct (climate_send_hvac_command_summary net w0) as (evs & o & Hs).
    split_and!.
    + by destruct Hs.
    + destruct (sent_frame _ _ _ _ _ _ _ Hs) as [->|[b ->]]; done.
    + exists evs, o. split_and!; [by destruct Hs..|].
      intros out Ho Hfail.
      rewrite (summary_verdict net Climate.available Climate.set_available _ _ _ _ _
                 ltac:(done) Hs out Ho).
      by apply call_failed_not_ok.
Qed.

Lemma state_updated_whatever_the_send_did_witness :
  Fan.percentage (self (Fan.async_set_percentage net_down 50%Z example_fan).2)
  = Some 50%Z
  ∧ Fan.available (self (Fan.async_set_percentage net_down 50%Z example_fan).2)
    = false.
Proof.
  destruct (proj1 (state_updated_whatever_the_send_did net_down) example_fan 50%Z
              ltac:(lia) ltac:(vm_compute; reflexivity))
    as (_ & Hpct & _ & evs & o & Htrace & Hex & Hfail).
  split; [exact Hpct|]. vm_compute. reflexivity.
Defined.
(** ** The claims on the encoded command *)

(** C7. A configured code with protocol, bits and data is encoded with
    [Repeat] equal to its repeat field when it has one and to 0 when it
    has none: that object is what the fan, the remote and the button
    log, serialise, percent-encode and request. *)
Theorem repeat_defaults_to_zero
  (net : network) (code : dict) (protocol bits data : pyval) :
  code !! lit "protocol" = Some protocol →
  code !! lit "bits" = Some bits →
  code !! lit "data" = Some data →
  let repeat := default (PInt 0) (code !! lit "repeat") in
  let ir_data :=
    [(lit "Protocol", protocol); (lit "Bits", bits); (lit "Data", data);
     (lit "Repeat", repeat)] in
  ∃ encoded,
    Url.quote (Json.json_dumps ir_data) = Some encoded
    ∧ (∀ key (w : world Fan.fan),
         Fan.ir_codes (self w) !! key = Some code →
         ∃ post,
           trace (Fan._send_ir_command net key w).2
           = trace w ++ Log Info (MsgSending key ir_data)
               :: Log Debug (MsgRequest (irsend_url (Fan.device_ip (self w)) encoded))
               :: HttpGet (irsend_url (Fan.device_ip (self w)) encoded)
                    [(lit "timeout", 10%Z)]
               :: post)
    ∧ (∀ name (w : world Remote.remote),
         Remote.buttons (self w) !! name = Some code →
         ∃ post,
           trace (Remote._send_ir_command net name w).2
           = trace w ++ Log Info (MsgSending name ir_data)
               :: Log Debug (MsgRequest (irsend_url (Remote.device_ip (self w)) encoded))
               :: HttpGet (irsend_url (Remote.device_ip (self w)) encoded)
                    [(lit "timeout", 10%Z)]
               :: post)
    ∧ (∀ w : world Button.button,
         Button.button_data (self w) = code →
         ∃ post,
           trace (Button.async_press net w).2
           = trace w ++ Log Info (MsgSending (Button.button_name (self w)) ir_data)
               :: Log Debug (MsgRequest (irsend_url (Button.device_ip (self w)) encoded))
               :: HttpGet (irsend_url (Button.device_ip (self w)) encoded)
                    [(lit "timeout", 10%Z)]
               :: post).
Proof.
  intros Hprotocol Hbits Hdata repeat ir_data.
  assert (Hir : ir_data_of protocol bits data code = ir_data)
    by apply ir_data_of_repeat.
  exists (flat_map Url.quote_byte (Json.json_dumps ir_data)).
  split; [apply quote_json_dumps|]. rewrite <- Hir. split_and!; intros.
  - by apply fan_send_trace.
  - by apply remote_send_trace.
  - by apply button_press_trace.
Qed.

Lemma repeat_defaults_to_zero_witness :
  ∃ encoded,
    Url.quote
      (Json.json_dumps
         [(lit "Protocol", PStr (lit "NEC")); (lit "Bits", PInt 32);
          (lit "Data", PStr (lit "0x8166817E")); (lit "Repeat", PInt 0)])
    = Some encoded.
Proof.
  destruct (repeat_defaults_to_zero net_ok power_example
              (PStr (lit "NEC")) (PInt 32) (PStr (lit "0x8166817E"))
              ltac:(vm_compute; reflexivity) ltac:(vm_compute; reflexivity)
              ltac:(vm_compute; reflexivity))
    as (encoded & Hq & _).
  exists encoded. exact Hq.
Defined.

(** C5. The command NEC, 32 bits, data 0x44BB01FE, repeat 0 is
    serialised to the JSON text
    [{"Protocol":"NEC","Bits":32,"Data":"0x44BB01FE","Repeat":0}],
    which holds no whitespace; its percent-encoding is the text
    [%7B%22Protocol%22...%7D] below; and the button requests the URL
    whose query is [cmnd=IRsend%20] followed by that encoding. *)
Theorem nec_example_command_string (net : network) (w : world Button.button) :
  Button.button_data (self w) = nec_example →
  let json :=
    json_text "{'Protocol':'NEC','Bits':32,'Data':'0x44BB01FE','Repeat':0}" in
  let encoded :=
    lit "%7B%22Protocol%22%3A%22NEC%22%2C%22Bits%22%3A32%2C%22Data%22%3A%220x44BB01FE%22%2C%22Repeat%22%3A0%7D" in
  let url :=
    lit "http://" ++ Button.device_ip (self w) ++ lit "/cm?"
      ++ lit "cmnd=" ++ lit "IRsend" ++ lit "%20" ++ encoded in
  Url.quote json = Some encoded
  ∧ forallb (λ c, negb (Json.is_ws c)) json = true
  ∧ ∃ ir_data post,
      Json.json_dumps ir_data = json
      ∧ trace (Button.async_press net w).2
        = trace w ++ Log Info (MsgSending (Button.button_name (self w)) ir_data)
            :: Log Debug (MsgRequest url)
            :: HttpGet url [(lit "timeout", 10%Z)]
            :: post.
Proof.
  intros Hdata json encoded url.
  split; [by vm_compute|]. split; [by vm_compute|].
  destruct (button_press_trace net nec_example
              (PStr (lit "NEC")) (PInt 32) (PStr (lit "0x44BB01FE")) w
              ltac:(split_and!; by vm_compute) Hdata) as [post Hpost].
  exists (ir_data_of (PStr (lit "NEC")) (PInt 32) (PStr (lit "0x44BB01FE")) nec_example),
    post.
  split; [by vm_compute|].
  replace url with
    (irsend_url (Button.device_ip (self w))
       (flat_map Url.quote_byte
          (Json.json_dumps
             (ir_data_of (PStr (lit "NEC")) (PInt 32) (PStr (lit "0x44BB01FE"))
                nec_example)))) by (by vm_compute).
  exact Hpost.
Qed.

Lemma nec_example_command_string_witness :
  Url.quote
    (json_text "{'Protocol':'NEC','Bits':32,'Data':'0x44BB01FE','Repeat':0}")
  = Some
      (lit "%7B%22Protocol%22%3A%22NEC%22%2C%22Bits%22%3A32%2C%22Data%22%3A%220x44BB01FE%22%2C%22Repeat%22%3A0%7D").
Proof.
  exact (proj1 (nec_example_command_string net_ok example_button eq_refl)).
Defined.

(** C2. An infrared command whose protocol is a string, whose bits are
    an integer, whose data is a string, an integer or another scalar
    and whose repeat is an integer survives the round trip: the
    entities' JSON serialisation and percent-encoding succeed, and
    percent-decoding followed by JSON parsing gives back an object with
    the same four fields. The strings are texts [json.loads] can
    return: code points, with no high surrogate directly before a low
    one. *)
Theorem infrared_command_round_trip
  (code : dict) (protocol : str) (bits : Z) (data : pyval) (repeat : Z) :
  json_safe protocol = true →
  value_safe data = true →
  dict_get code (lit "repeat") (PInt 0) = PInt repeat →
  (0 ≤ repeat)%Z →
  ∃ encoded,
    Url.quote (Json.json_dumps (ir_data_of (PStr protocol) (PInt bits) data code))
    = Some encoded
    ∧ (Url.unquote encoded ≫= Json.json_loads)
      = Some [(lit "Protocol", PStr protocol); (lit "Bits", PInt bits);
              (lit "Data", data); (lit "Repeat", PInt repeat)].
Proof.
  intros Hprotocol Hdata Hrepeat _. unfold ir_data_of. rewrite Hrepeat.
  set (ir_data := [(lit "Protocol", PStr protocol); _; _; _]).
  destruct (quote_unquote_ascii _ (json_dumps_ascii ir_data)) as [Hq Hu].
  eexists. split; [exact Hq|]. rewrite Hu. cbn [mbind option_bind].
  apply json_loads_dumps. unfold item_safe.
  repeat constructor; cbn [fst snd value_safe]; by rewrite ?Hprotocol, ?Hdata.
Qed.

Lemma infrared_command_round_trip_witness :
  ∃ encoded,
    Url.quote
      (Json.json_dumps
         (ir_data_of (PStr (lit "NEC")) (PInt 32) (PStr (lit "0x44BB01FE"))
            nec_example))
    = Some encoded
    ∧ (Url.unquote encoded ≫= Json.json_loads)
      = Some [(lit "Protocol", PStr (lit "NEC")); (lit "Bits", PInt 32);
              (lit "Data", PStr (lit "0x44BB01FE")); (lit "Repeat", PInt 0)].
Proof.
  apply (infrared_command_round_trip nec_example (lit "NEC") 32
           (PStr (lit "0x44BB01FE")) 0);
    [vm_compute; reflexivity..|lia].
Defined.

(** * Further properties of the code *)

(** ** The speed level *)

Lemma forallb_seqZ (f : Z → bool) (lo len x : Z) :
  forallb f (seqZ lo len) = true → (lo ≤ x < lo + len)%Z → f x = true.
Proof.
  intros Hall Hx. rewrite forallb_forall in Hall. apply Hall.
  apply list_elem_of_In, elem_of_seqZ. lia.
Qed.

(** The binary64 computation and the exact one, compared on every fan
    of 0 to 100 speeds and every percentage from 0 to 100. *)
Lemma speed_level_float_grid :
  forallb (λ n, forallb (λ p,
    bool_decide (Fan.speed_level_float n p = Some (Fan.speed_level n p)))
    (seqZ 0 101)) (seqZ 0 101) = true.
Proof. vm_compute. reflexivity. Qed.

(** X1. On binary64, as Python computes it, the speed level of every
    percentage from 0 to 100 on a fan of 0 to 100 speeds is the level
    of the exact computation. *)
Theorem speed_level_float_agrees (n p : Z) :
  (0 ≤ n ≤ 100)%Z → (0 ≤ p ≤ 100)%Z →
  Fan.speed_level_float n p = Some (Fan.speed_level n p).
Proof.
  intros Hn Hp. pose proof speed_level_float_grid as Hgrid.
  apply (forallb_seqZ _ 0 101 n) in Hgrid; [|lia].
  apply (forallb_seqZ _ 0 101 p) in Hgrid; [|lia].
  by apply bool_decide_eq_true in Hgrid.
Qed.

Lemma speed_level_float_agrees_witness :
  Fan.speed_level_float 5 50 = Some 2%Z.
Proof.
  exact (speed_level_float_agrees 5 50 ltac:(lia) ltac:(lia)).
Defined.

Lemma round_div_monotone m m' d :
  (0 < d)%Z → (m ≤ m')%Z → (round_div m d ≤ round_div m' d)%Z.
Proof.
  intros Hd Hm.
  destruct (round_div_nearest m d Hd) as [H1 H2].
  destruct (round_div_nearest m' d Hd) as [H3 H4].
  destruct (Z.le_gt_cases (round_div m d) (round_div m' d)) as [|Hgt]; [done|].
  exfalso. set (k := round_div m d) in *. set (k' := round_div m' d) in *.
  assert (Hk : (d * k' + d ≤ d * k)%Z) by nia.
  assert (m = m') by lia. subst m'.
  assert (k = k') by (by eapply nearest_even_unique). lia.
Qed.

Lemma speed_level_bounds n p : (1 ≤ n)%Z → (1 ≤ Fan.speed_level n p ≤ n)%Z.
Proof. intros Hn. unfold Fan.speed_level. lia. Qed.

Lemma speed_level_monotone n p p' :
  (1 ≤ n)%Z → (p ≤ p')%Z → (Fan.speed_level n p ≤ Fan.speed_level n p')%Z.
Proof.
  intros Hn Hp. unfold Fan.speed_level.
  pose proof (round_div_monotone (p * n) (p' * n) 100 ltac:(lia) ltac:(nia)).
  lia.
Qed.

(** X2. On a fan of 1 to 100 speeds and for the percentages 0 to 100
    the host passes, the level Python computes on binary64 lies
    between 1 and the speed count, and a larger percentage never
    resolves a smaller level. *)
Theorem speed_level_bounded_and_monotone (n p p' : Z) :
  (1 ≤ n ≤ 100)%Z → (0 ≤ p ≤ p')%Z → (p' ≤ 100)%Z →
  ∃ l l',
    Fan.speed_level_float n p = Some l
    ∧ Fan.speed_level_float n p' = Some l'
    ∧ (1 ≤ l)%Z ∧ (l ≤ l')%Z ∧ (l' ≤ n)%Z.
Proof.
  intros Hn Hp Hp'.
  assert (Hfloat : ∀ q, (0 ≤ q ≤ 100)%Z →
            Fan.speed_level_float n q = Some (Fan.speed_level n q)).
  { intros q Hq. pose proof speed_level_float_grid as Hgrid.
    apply (forallb_seqZ _ 0 101 n) in Hgrid; [|lia].
    apply (forallb_seqZ _ 0 101 q) in Hgrid; [|lia].
    by apply bool_decide_eq_true in Hgrid. }
  exists (Fan.speed_level n p), (Fan.speed_level n p').
  split_and!; [apply Hfloat; lia|apply Hfloat; lia|..].
  - apply speed_level_bounds. lia.
  - apply speed_level_monotone; lia.
  - apply speed_level_bounds. lia.
Qed.

Lemma speed_level_bounded_and_monotone_witness :
  ∃ l l',
    Fan.speed_level_float 3 1 = Some l
    ∧ Fan.speed_level_float 3 50 = Some l'
    ∧ (1 ≤ l)%Z ∧ (l ≤ l')%Z ∧ (l' ≤ 3)%Z.
Proof.
  exact (speed_level_bounded_and_monotone 3 1 50 ltac:(lia) ltac:(lia) ltac:(lia)).
Defined.

(** With 101 speeds no percentage selects the level 51: 50 percent
    gives 50.5, rounded to 50, and 51 percent gives 52. *)
Lemma level_51_of_101_is_skipped (p : Z) : Fan.speed_level 101 p ≠ 51%Z.
Proof.
  destruct (Z.le_gt_cases p 50) as [Hp|Hp].
  - pose proof (speed_level_monotone 101 p 50 ltac:(lia) Hp) as H.
    change (Fan.speed_level 101 50) with 50%Z in H. lia.
  - pose proof (speed_level_monotone 101 51 p ltac:(lia) ltac:(lia)) as H.
    change (Fan.speed_level 101 51) with 52%Z in H. lia.
Qed.

(** X3. On a fan of 1 to 100 speeds every level can be selected: each
    level from 1 to the speed count is the level of some percentage
    from 1 to 100. The bound is needed, see
    [level_51_of_101_is_skipped]. *)
Theorem every_speed_level_is_reachable (n l : Z) :
  (1 ≤ n ≤ 100)%Z → (1 ≤ l ≤ n)%Z →
  ∃ p, (0 < p ≤ 100)%Z ∧ Fan.speed_level n p = l.
Proof.
  intros Hn Hl.
  assert (Hgrid :
    forallb (λ n, forallb (λ l,
      existsb (λ p, Fan.speed_level n p =? l)%Z (seqZ 1 100))
      (seqZ 1 n)) (seqZ 1 100) = true) by (vm_compute; reflexivity).
  apply (forallb_seqZ _ 1 100 n) in Hgrid; [|lia].
  apply (forallb_seqZ _ 1 n l) in Hgrid; [|lia].
  apply existsb_exists in Hgrid as (p & Hin & Hp).
  apply list_elem_of_In, elem_of_seqZ in Hin. apply Z.eqb_eq in Hp.
  exists p. split; [lia|done].
Qed.

Lemma every_speed_level_is_reachable_witness :
  ∃ p, (0 < p ≤ 100)%Z ∧ Fan.speed_level 5 p = 3%Z.
Proof.
  exact (every_speed_level_is_reachable 5 3 ltac:(lia) ltac:(lia)).
Defined.

(** ** The fan's commands *)

Section FanMore.

Variable net : network.

Lemma fan_turn_on_plain_run w :
  ∃ w1 evs o,
    send_summary net Fan.set_available w (Ok tt) w1 evs o
    ∧ (sent_keys evs = [] ∨ sent_keys evs = [lit "power"])
    ∧ Fan.async_turn_on net None None w
      = (Ok tt, World (Fan.set_is_on true (self w1)) (trace w1)).
Proof.
  assert (H : wp (Fan.async_turn_on net None None)
                (λ r w', ∃ w1 evs o,
                   send_summary net Fan.set_available w (Ok tt) w1 evs o
                   ∧ (sent_keys evs = [] ∨ sent_keys evs = [lit "power"])
                   ∧ (r, w') = (Ok tt, World (Fan.set_is_on true (self w1)) (trace w1))) w).
  { cbn [Fan.async_turn_on]. apply wp_fan_send_then. intros w1 evs o Hs Hk _.
    wp_run. eauto 10. }
  unfold wp in H. by rewrite <- surjective_pairing in H.
Qed.

Lemma fan_oscillate_run o w :
  can_oscillate (self w) = true →
  ∃ w1 evs out,
    send_summary net Fan.set_available w (Ok tt) w1 evs out
    ∧ (sent_keys evs = [] ∨ sent_keys evs = [lit "swing"])
    ∧ Fan.async_oscillate net o w
      = (Ok tt, World (Fan.set_oscillating o (self w1)) (trace w1)).
Proof.
  intros Hcan.
  assert (H : wp (Fan.async_oscillate net o)
                (λ r w', ∃ w1 evs out,
                   send_summary net Fan.set_available w (Ok tt) w1 evs out
                   ∧ (sent_keys evs = [] ∨ sent_keys evs = [lit "swing"])
                   ∧ (r, w')
                     = (Ok tt, World (Fan.set_oscillating o (self w1)) (trace w1))) w).
  { unfold Fan.async_oscillate. apply wp_bind, wp_get_self.
    unfold can_oscillate in Hcan. rewrite Hcan.
    apply wp_fan_send_then. intros w1 evs out Hs Hk _. wp_run. eauto 10. }
  unfold wp in H. by rewrite <- surjective_pairing in H.
Qed.

Lemma fan_oscillate_idle o w :
  can_oscillate (self w) = false → Fan.async_oscillate net o w = (Ok tt, w).
Proof.
  intros Hcan. unfold Fan.async_oscillate, mbind, M_bind, get_self.
  unfold can_oscillate in Hcan. by rewrite Hcan.
Qed.

(** The object a send leaves behind differs from the one it found in
    the flag at most. *)
Lemma send_summary_self w w1 evs o :
  send_summary net Fan.set_available w (Ok tt) w1 evs o →
  ∃ b, self w1 = Fan.set_available b (self w).
Proof.
  intros Hs. destruct (sent_frame _ _ _ _ _ _ _ Hs) as [->|[b ->]]; [|eauto].
  exists (Fan.available (self w)). by destruct (self w).
Qed.

(** X4. [async_turn_on] gives the preset mode precedence over the
    percentage; with the percentage 0 and no preset mode it is the
    turn-off operation and leaves the fan off; with neither it hands
    [power] to the sender and marks the fan on, whatever the send did,
    without touching the stored percentage or preset mode, so that a
    fan turned off and on again is on at the percentage 0. *)
Theorem fan_turn_on_dispatch (w : world Fan.fan) :
  (∀ p m, Fan.async_turn_on net p (Some m) w = Fan.async_set_preset_mode net m w)
  ∧ (Fan.async_turn_on net (Some 0%Z) None w = Fan.async_turn_off net w
     ∧ Fan.is_on (self (Fan.async_turn_on net (Some 0%Z) None w).2) = false)
  ∧ ((Fan.async_turn_on net None None w).1 = Ok tt
     ∧ Fan.is_on (self (Fan.async_turn_on net None None w).2) = true
     ∧ Fan.percentage (self (Fan.async_turn_on net None None w).2)
       = Fan.percentage (self w)
     ∧ Fan.preset_mode (self (Fan.async_turn_on net None None w).2)
       = Fan.preset_mode (self w)
     ∧ ∃ evs,
         trace (Fan.async_turn_on net None None w).2 = trace w ++ evs
         ∧ (sent_keys evs = [] ∨ sent_keys evs = [lit "power"]))
  ∧ (let w1 := (Fan.async_turn_off net w).2 in
     let w2 := (Fan.async_turn_on net None None w1).2 in
     Fan.is_on (self w2) = true ∧ Fan.percentage (self w2) = Some 0%Z).
Proof.
  split_and!.
  - intros [p|] m; reflexivity.
  - reflexivity.
  - change (Fan.async_turn_on net (Some 0%Z) None w) with (Fan.async_turn_off net w).
    by destruct (fan_turn_off_run net w) as (w1 & evs & o & _ & _ & ->).
  - by destruct (fan_turn_on_plain_run w) as (w1 & evs & o & _ & _ & ->).
  - by destruct (fan_turn_on_plain_run w) as (w1 & evs & o & _ & _ & ->).
  - destruct (fan_turn_on_plain_run w) as (w1 & evs & o & Hs & _ & ->).
    by destruct (send_summary_self _ _ _ _ Hs) as [b ->].
  - destruct (fan_turn_on_plain_run w) as (w1 & evs & o & Hs & _ & ->).
    by destruct (send_summary_self _ _ _ _ Hs) as [b ->].
  - destruct (fan_turn_on_plain_run w) as (w1 & evs & o & Hs & Hk & ->).
    exists evs. split; [by destruct Hs|done].
  - cbv zeta. destruct (fan_turn_off_run net w) as (w1 & evs & o & Hs & _ & ->).
    cbn [snd].
    destruct (fan_turn_on_plain_run
                (World (Fan.set_preset_mode None
                          (Fan.set_percentage (Some 0%Z)
                             (Fan.set_is_on false (self w1)))) (trace w1)))
      as (w2 & evs2 & o2 & Hs2 & _ & ->).
    by destruct (send_summary_self _ _ _ _ Hs2) as [b ->].
Qed.

(** Every command changes the object by one of the six effects, after
    a change of the flag. *)
Lemma fan_run_effect c w :
  ∃ b, fan_effect (Fan.set_available b (self w)) (self (Fan.run net c w).2).
Proof.
  assert (Hnone : ∃ b, fan_effect (Fan.set_available b (self w)) (self w)).
  { exists (Fan.available (self w)).
    replace (Fan.set_available _ _) with (self w) by (by destruct (self w)).
    constructor. }
  assert (Hoff : ∃ b, fan_effect (Fan.set_available b (self w))
                        (self (Fan.async_turn_off net w).2)).
  { destruct (fan_turn_off_run net w) as (w1 & evs & o & Hs & _ & ->).
    destruct (send_summary_self _ _ _ _ Hs) as [b ->]. exists b. constructor. }
  assert (Hpct : ∀ p, ∃ b, fan_effect (Fan.set_available b (self w))
                             (self (Fan.async_set_percentage net p w).2)).
  { intros p. destruct (Z.eq_dec p 0%Z) as [->|Hp]; [exact Hoff|].
    destruct (contains (Fan.ir_codes (self w))
                (Fan.speed_key (Fan.speed_level (Fan.speed_count (self w)) p)))
      eqn:Hkey.
    - destruct (fan_set_percentage_run net p w Hp Hkey)
        as (w1 & evs & o & Hs & _ & ->).
      destruct (send_summary_self _ _ _ _ Hs) as [b ->]. exists b. by constructor.
    - by rewrite (fan_set_percentage_idle net p w Hp Hkey). }
  assert (Hpre : ∀ m, ∃ b, fan_effect (Fan.set_available b (self w))
                             (self (Fan.async_set_preset_mode net m w).2)).
  { intros m.
    destruct (decide (m ∈ Fan.preset_modes (self w))) as [Hin|Hnot];
      [destruct (contains (Fan.ir_codes (self w)) (Fan.preset_key m)) eqn:Hkey|].
    - destruct (fan_set_preset_mode_run net m w Hin Hkey)
        as (w1 & evs & o & Hs & _ & ->).
      destruct (send_summary_self _ _ _ _ Hs) as [b ->]. exists b. constructor.
    - by destruct (fan_set_preset_mode_idle net m w (or_intror Hkey)) as [what ->].
    - by destruct (fan_set_preset_mode_idle net m w (or_introl Hnot)) as [what ->]. }
  destruct c as [p m| |p|m|o|]; cbn [Fan.run]; auto.
  - destruct m as [m|]; [apply Hpre|]. destruct p as [p|]; [apply Hpct|].
    destruct (fan_turn_on_plain_run w) as (w1 & evs & o & Hs & _ & ->).
    destruct (send_summary_self _ _ _ _ Hs) as [b ->]. exists b. constructor.
  - destruct (can_oscillate (self w)) eqn:Hcan.
    + destruct (fan_oscillate_run o w Hcan) as (w1 & evs & out & Hs & _ & ->).
      destruct (send_summary_self _ _ _ _ Hs) as [b ->]. exists b. constructor.
    + by rewrite fan_oscillate_idle.
  - destruct (fan_update_summary net w) as (url & post & [_ _ _ -> _]).
    eexists. constructor.
Qed.

Lemma fan_effect_invariants s b s' :
  fan_effect (Fan.set_available b s) s' →
  same_fan_config s s' ∧ (fan_consistent s → fan_consistent s').
Proof.
  unfold same_fan_config, fan_consistent.
  destruct s. inversion 1; subst; cbn; split; try done; intros [? ?]; split; try done;
    auto; try (intros; discriminate).
Qed.

(** X5. Whatever commands the host gives and whatever the network
    does, a fan keeps the configuration it was constructed with, never
    shows a preset mode together with a percentage, and while it is off
    shows the percentage 0 and no preset mode. *)
Theorem fan_reachable_states_are_consistent
  (ip : str) (codes : gmap str dict) (cfg : Fan.fan_config) (w : world Fan.fan) :
  fan_reachable net (Fan.init ip codes cfg) w →
  same_fan_config (Fan.init ip codes cfg) (self w) ∧ fan_consistent (self w).
Proof.
  induction 1 as [|w c Hreach [Hcfg Hcons]].
  - split; [done|]. split; [by left|done].
  - destruct (fan_run_effect c w) as [b Heff].
    apply fan_effect_invariants in Heff as [Hcfg' Hcons'].
    split; [|auto]. unfold same_fan_config in *.
    destruct Hcfg as (? & ? & ? & ? & ?), Hcfg' as (? & ? & ? & ? & ?).
    split_and!; congruence.
Qed.

End FanMore.

Lemma fan_reachable_states_are_consistent_witness :
  fan_consistent
    (self (Fan.run net_down (Fan.SetPresetMode (lit "sleep"))
             (Fan.run net_down (Fan.SetPercentage 50) example_fan).2).2).
Proof.
  exact (proj2 (fan_reachable_states_are_consistent net_down example_ip
                  example_codes (Fan.FanConfig (Some 3%Z) None None) _
                  (ReachStep _ _ _ _ (ReachStep _ _ _ _ (ReachInit _ _))))).
Defined.

(** ** The fan's features and what it then does *)

Section FanFeatures.

Variable net : network.

Lemma has_feature_spec (s : Fan.fan) :
  has_feature (Fan.supported_features s) Fan.OSCILLATE = can_oscillate s
  ∧ has_feature (Fan.supported_features s) Fan.SET_SPEED
    = Fan.any_configured (Fan.ir_codes s)
        (List.map Fan.speed_key (seqZ 1 (Fan.speed_count s)))
  ∧ has_feature (Fan.supported_features s) Fan.PRESET_MODE
    = match Fan.preset_modes s with
      | [] => false
      | _ :: _ =>
          Fan.any_configured (Fan.ir_codes s)
            (List.map Fan.preset_key (Fan.preset_modes s))
      end.
Proof.
  unfold Fan.supported_features, can_oscillate. cbv zeta.
  destruct (Fan.oscillation_supported s && contains (Fan.ir_codes s) (lit "swing"));
    destruct (Fan.any_configured (Fan.ir_codes s)
                (List.map Fan.speed_key (seqZ 1 (Fan.speed_count s))));
    destruct (Fan.preset_modes s) as [|m ms]; try done;
    destruct (Fan.any_configured (Fan.ir_codes s) (List.map Fan.preset_key (m :: ms)));
    done.
Qed.

Lemma any_configured_false codes keys key :
  Fan.any_configured codes keys = false → key ∈ keys → contains codes key = false.
Proof.
  unfold Fan.any_configured. intros Hnone Hin.
  destruct (contains codes key) eqn:Hkey; [|done].
  assert (existsb (contains codes) keys = true); [|congruence].
  apply existsb_exists. exists key. split; [by apply list_elem_of_In|done].
Qed.

(** X6. A fan whose [supported_features] lack a flag does nothing on
    the matching command: without OSCILLATE, [async_oscillate] returns
    with the world untouched; without SET_SPEED, on a fan of at least
    one speed, no non-zero percentage leads to a request or a change;
    without PRESET_MODE, no preset mode does. With OSCILLATE,
    [async_oscillate] stores the requested value whatever the send did
    and hands only [swing] to the sender. *)
Theorem fan_features_match_behaviour (w : world Fan.fan) :
  let features := Fan.supported_features (self w) in
  (has_feature features Fan.OSCILLATE = false →
   ∀ o, Fan.async_oscillate net o w = (Ok tt, w))
  ∧ (has_feature features Fan.OSCILLATE = true →
     ∀ o, (Fan.async_oscillate net o w).1 = Ok tt
          ∧ Fan.oscillating (self (Fan.async_oscillate net o w).2) = o
          ∧ ∃ evs, trace (Fan.async_oscillate net o w).2 = trace w ++ evs
                   ∧ (sent_keys evs = [] ∨ sent_keys evs = [lit "swing"]))
  ∧ (has_feature features Fan.SET_SPEED = false →
     (1 ≤ Fan.speed_count (self w))%Z →
     ∀ p, p ≠ 0%Z →
          self (Fan.async_set_percentage net p w).2 = self w
          ∧ requests (trace (Fan.async_set_percentage net p w).2) = requests (trace w))
  ∧ (has_feature features Fan.PRESET_MODE = false →
     ∀ m, self (Fan.async_set_preset_mode net m w).2 = self w
          ∧ requests (trace (Fan.async_set_preset_mode net m w).2)
            = requests (trace w)).
Proof.
  intros features. destruct (has_feature_spec (self w)) as (Hosc & Hspeed & Hpreset).
  fold features in Hosc, Hspeed, Hpreset. split_and!.
  - rewrite Hosc. intros Hcan o. by apply fan_oscillate_idle.
  - rewrite Hosc. intros Hcan o.
    destruct (fan_oscillate_run net o w Hcan) as (w1 & evs & out & Hs & Hk & ->).
    split_and!; [done| |].
    + by destruct (send_summary_self net _ _ _ _ Hs) as [b ->].
    + exists evs. split; [by destruct Hs|done].
  - rewrite Hspeed. intros Hnone Hn p Hp.
    rewrite (fan_set_percentage_idle net p w Hp).
    + split; [done|]. cbn [snd trace]. unfold requests. by rewrite omap_app, app_nil_r.
    + eapply any_configured_false; [exact Hnone|].
      apply list_elem_of_fmap. eexists. split; [reflexivity|].
      apply elem_of_seqZ.
      pose proof (speed_level_bounds _ p Hn). lia.
  - rewrite Hpreset. intros Hnone m.
    destruct (fan_set_preset_mode_idle net m w) as [what ->].
    + destruct (decide (m ∈ Fan.preset_modes (self w))) as [Hin|]; [right|by left].
      destruct (Fan.preset_modes (self w)) as [|m0 ms] eqn:Hmodes;
        [by apply elem_of_nil in Hin|].
      eapply any_configured_false; [exact Hnone|].
      apply list_elem_of_fmap. eauto.
    + split; [done|]. cbn [snd trace]. unfold requests. by rewrite omap_app, app_nil_r.
Qed.

End FanFeatures.

(** ** The thermostat *)

Section ClimateMore.

Variable net : network.

Lemma tasmota_fan_safe fan_mode : json_safe (Climate.tasmota_fan fan_mode) = true.
Proof. unfold Climate.tasmota_fan. repeat case_bool_decide; reflexivity. Qed.

Lemma command_data_safe me temp :
  json_safe (Climate.vendor me) = true →
  Forall (λ kv, item_safe kv = true) (Climate.command_data_of me temp).
Proof.
  intros Hvendor. unfold Climate.command_data_of, item_safe, Climate.on_off.
  repeat constructor; cbn [fst snd value_safe];
    rewrite ?Hvendor, ?tasmota_fan_safe; try reflexivity.
  - by destruct (Climate.hvac_mode me).
  - by destruct (Climate.hvac_mode me).
  - by case_bool_decide.
  - by case_bool_decide.
Qed.

(** What it does when [int] raises. *)
Lemma climate_send_poisoned (w : world Climate.climate) e :
  Climate.int_of (Climate.target_temperature (self w)) = Raise e →
  Climate._send_hvac_command net w
  = (Ok tt,
     World (Climate.set_available false (self w))
           (trace w ++ [Log Error (MsgSendFailed e)])).
Proof.
  intros Htemp.
  unfold Climate._send_hvac_command, Climate.send_hvac_command_try,
    Climate.send_hvac_command_except, try_except, mbind, M_bind, get_self, of_result.
  rewrite Htemp.
  assert (is_request_exception e = false) as ->.
  { destruct (Climate.target_temperature (self w)) as [z|[| | |]]; by simplify_eq/=. }
  reflexivity.
Qed.

(** X7. The composite climate command survives the round trip. When
    the vendor is a text [json.loads] can return and [int] accepts the
    target temperature, [_send_hvac_command] logs the thirteen fields,
    requests the URL whose query is [cmnd=IRHVAC%20] followed by their
    percent-encoded JSON serialisation, and percent-decoding followed
    by JSON parsing gives the thirteen fields back. *)
Theorem hvac_command_round_trip (w : world Climate.climate) (temp : Z) :
  json_safe (Climate.vendor (self w)) = true →
  Climate.int_of (Climate.target_temperature (self w)) = Ok temp →
  let command_data := Climate.command_data_of (self w) temp in
  ∃ encoded post,
    Url.quote (Json.json_dumps command_data) = Some encoded
    ∧ (Url.unquote encoded ≫= Json.json_loads) = Some command_data
    ∧ trace (Climate._send_hvac_command net w).2
      = trace w ++ Log Info (MsgSendingHvac command_data)
          :: Log Debug (MsgRequest (irhvac_url (Climate.device_ip (self w)) encoded))
          :: HttpGet (irhvac_url (Climate.device_ip (self w)) encoded)
               [(lit "timeout", 10%Z)]
          :: post.
Proof.
  intros Hvendor Htemp command_data.
  destruct (quote_unquote_ascii _ (json_dumps_ascii command_data)) as [Hq Hu].
  destruct (climate_send_trace net w temp Htemp) as [post Hpost].
  eexists _, post. split_and!; [exact Hq| |exact Hpost].
  rewrite Hu. cbn [mbind option_bind].
  by apply json_loads_dumps, command_data_safe.
Qed.

(** X8. A target temperature [int] rejects, an infinity or a NaN,
    poisons the thermostat. [async_set_temperature] stores it, makes no
    request and leaves the flag false; and as long as it is stored,
    every other setter stores its value, makes no request and leaves
    the flag false as well. *)
Theorem non_finite_temperature_blocks_every_send (w : world Climate.climate) :
  (∀ t, (∃ e, Climate.int_of t = Raise e)
        ↔ (t = NumFloat S754_nan ∨ ∃ s, t = NumFloat (S754_infinity s)))
  ∧ (∀ t e,
       Climate.int_of t = Raise e →
       Climate.async_set_temperature net (Some t) w
       = (Ok tt,
          World (Climate.set_available false
                   (Climate.set_target_temperature t (self w)))
                (trace w ++ [Log Error (MsgSendFailed e)])))
  ∧ (∀ e,
       Climate.int_of (Climate.target_temperature (self w)) = Raise e →
       (∀ m, Climate.async_set_hvac_mode net m w
             = (Ok tt,
                World (Climate.set_available false (Climate.set_hvac_mode m (self w)))
                      (trace w ++ [Log Error (MsgSendFailed e)])))
       ∧ (∀ m, Climate.async_set_fan_mode net m w
               = (Ok tt,
                  World (Climate.set_available false (Climate.set_fan_mode m (self w)))
                        (trace w ++ [Log Error (MsgSendFailed e)])))
       ∧ (∀ m, Climate.async_set_swing_mode net m w
               = (Ok tt,
                  World (Climate.set_available false (Climate.set_swing_mode m (self w)))
                        (trace w ++ [Log Error (MsgSendFailed e)])))).
Proof.
  split_and!.
  - intros t. split.
    + intros [e He]. destruct t as [z|[s|s| |s m x]]; try done; eauto.
    + intros [->|[s ->]]; eexists; reflexivity.
  - intros t e He. cbn [Climate.async_set_temperature].
    set (w0 := World (Climate.set_target_temperature t (self w)) (trace w)).
    change ((update (Climate.set_target_temperature t);;
             Climate._send_hvac_command net) w)
      with (Climate._send_hvac_command net w0).
    by rewrite (climate_send_poisoned w0 e).
  - intros e He. split_and!; intros m.
    + set (w0 := World (Climate.set_hvac_mode m (self w)) (trace w)).
      change (Climate.async_set_hvac_mode net m w)
        with (Climate._send_hvac_command net w0).
      by rewrite (climate_send_poisoned w0 e).
    + set (w0 := World (Climate.set_fan_mode m (self w)) (trace w)).
      change (Climate.async_set_fan_mode net m w)
        with (Climate._send_hvac_command net w0).
      by rewrite (climate_send_poisoned w0 e).
    + set (w0 := World (Climate.set_swing_mode m (self w)) (trace w)).
      change (Climate.async_set_swing_mode net m w)
        with (Climate._send_hvac_command net w0).
      by rewrite (climate_send_poisoned w0 e).
Qed.

(** X9. The climate setters store the requested value before they
    send, so the command they send is built from the new state: with a
    temperature [int] accepts, each setter logs and requests the
    command data of the updated object, and a call without a
    temperature does nothing at all. *)
Theorem climate_setters_send_the_updated_state (w : world Climate.climate) :
  Climate.async_set_temperature net None w = (Ok tt, w)
  ∧ (∀ t temp,
       Climate.int_of t = Ok temp →
       sends_hvac (trace w) (Climate.set_target_temperature t (self w)) temp
         (Climate.async_set_temperature net (Some t) w).2)
  ∧ (∀ temp,
       Climate.int_of (Climate.target_temperature (self w)) = Ok temp →
       (∀ m, sends_hvac (trace w) (Climate.set_hvac_mode m (self w)) temp
               (Climate.async_set_hvac_mode net m w).2)
       ∧ (∀ m, sends_hvac (trace w) (Climate.set_fan_mode m (self w)) temp
                 (Climate.async_set_fan_mode net m w).2)
       ∧ (∀ m, sends_hvac (trace w) (Climate.set_swing_mode m (self w)) temp
                 (Climate.async_set_swing_mode net m w).2)).
Proof.
  assert (Hsend : ∀ s temp,
            Climate.int_of (Climate.target_temperature s) = Ok temp →
            sends_hvac (trace w) s temp
              (Climate._send_hvac_command net (World s (trace w))).2).
  { intros s temp Htemp. unfold sends_hvac.
    destruct (climate_send_trace net (World s (trace w)) temp Htemp) as [post Hpost].
    destruct (climate_send_hvac_command_summary net (World s (trace w)))
      as (evs & o & Hs).
    eexists _, post. split; [apply quote_json_dumps|].
    split; [|exact Hpost].
    destruct (sent_frame _ _ _ _ _ _ _ Hs) as [Hsame|[b Hb]].
    - exists (Climate.available s). rewrite Hsame. cbn [self]. by destruct s.
    - exists b. exact Hb. }
  split_and!; [done| |].
  - intros t temp Htemp. by apply Hsend.
  - intros temp Htemp. split_and!; intros m; by apply Hsend.
Qed.

End ClimateMore.

Lemma hvac_command_round_trip_witness :
  ∃ encoded,
    Url.quote
      (Json.json_dumps (Climate.command_data_of (self example_climate) 25))
    = Some encoded.
Proof.
  destruct (hvac_command_round_trip net_ok example_climate 25
              ltac:(vm_compute; reflexivity) ltac:(reflexivity))
    as (encoded & post & Hq & _).
  exists encoded. exact Hq.
Defined.

(** ** The tables of the thermostat *)

Lemma hvac_modes_cases m :
  m ∈ Climate.hvac_modes → m ≠ Climate.HEAT_COOL.
Proof.
  unfold Climate.hvac_modes, Climate.HA_TO_TASMOTA_MODE, Climate.TASMOTA_TO_HA_MODE.
  cbn [List.map fst snd]. rewrite !elem_of_cons, elem_of_nil.
  intros [->|[->|[->|[->|[->|[->|[]]]]]]]; done.
Qed.





Lemma table_get_cons {K V : Type} `{EqDecision K} (k0 : K) (v0 : V) d k :
  Climate.table_get ((k0, v0) :: d) k
  = if bool_decide (k0 = k) then Some v0 else Climate.table_get d k.
Proof. unfold Climate.table_get. cbn. by case_bool_decide. Qed.

Lemma fan_tables_inverse k v :
  Climate.table_get Climate.TASMOTA_TO_HA_FAN k = Some v
  ↔ Climate.table_get Climate.HA_TO_TASMOTA_FAN v = Some k.
Proof.
  unfold Climate.TASMOTA_TO_HA_FAN, Climate.HA_TO_TASMOTA_FAN.
  split; intros H; rewrite !table_get_cons in H;
    repeat (case_bool_decide; [simplify_eq; by vm_compute|]);
    by vm_compute in H.
Qed.

(** X11. The tables of the thermostat agree with each other. The mode
    sent is the entry of [HA_TO_TASMOTA_MODE], Auto when there is none,
    and [TASMOTA_TO_HA_MODE] maps it back for every advertised mode;
    the two hand-written tables of fan speeds are inverses of each
    other, and the fan speed sent is the entry of [HA_TO_TASMOTA_FAN],
    Auto when there is none. *)
Theorem climate_tables_agree :
  (∀ m, Climate.tasmota_mode m
        = default (lit "Auto") (Climate.table_get Climate.HA_TO_TASMOTA_MODE m))
  ∧ (∀ m, m ∈ Climate.hvac_modes →
          Climate.table_get Climate.TASMOTA_TO_HA_MODE (Climate.tasmota_mode m)
          = Some m)
  ∧ Climate.tasmota_mode Climate.HEAT_COOL = Climate.tasmota_mode Climate.AUTO
  ∧ (∀ k v, Climate.table_get Climate.TASMOTA_TO_HA_FAN k = Some v
            ↔ Climate.table_get Climate.HA_TO_TASMOTA_FAN v = Some k)
  ∧ (∀ f, Climate.tasmota_fan f
          = default (lit "Auto") (Climate.table_get Climate.HA_TO_TASMOTA_FAN f)).
Proof.
  split_and!.
  - intros []; by vm_compute.
  - intros m Hm%hvac_modes_cases. destruct m; try done; by vm_compute.
  - done.
  - apply fan_tables_inverse.
  - intros f. unfold Climate.tasmota_fan, Climate.HA_TO_TASMOTA_FAN.
    rewrite !table_get_cons.
    destruct (decide (f = Climate.fan_auto)) as [->|]; [by vm_compute|].
    destruct (decide (f = Climate.fan_min)) as [->|]; [by vm_compute|].
    destruct (decide (f = Climate.fan_low)) as [->|]; [by vm_compute|].
    destruct (decide (f = Climate.fan_med)) as [->|]; [by vm_compute|].
    destruct (decide (f = Climate.fan_high)) as [->|]; [by vm_compute|].
    destruct (decide (f = Climate.fan_max)) as [->|]; [by vm_compute|].
    by rewrite !bool_decide_eq_false_2 by done.
Qed.

(** ** The identifiers of the entities *)

Local Open Scope N_scope.

Lemma replace_char_length old new s :
  length (Button.replace_char old new s) = length s.
Proof. unfold Button.replace_char. by rewrite length_map. Qed.

Lemma safe_button_name_cons c s :
  Button.safe_button_name (c :: s)
  = (if is_separator c then 95 else c) :: Button.safe_button_name s.
Proof.
  unfold Button.safe_button_name, Button.replace_char, is_separator.
  cbn [List.map]. f_equal.
  destruct (N.eqb_spec c 32) as [->|]; [done|].
  destruct (N.eqb_spec c 46) as [->|]; [done|].
  destruct (N.eqb_spec c 45) as [->|]; [done|]. done.
Qed.

Lemma safe_button_name_clean s :
  Forall (λ c, is_separator c = false) (Button.safe_button_name s).
Proof.
  induction s as [|c s IH]; [constructor|].
  rewrite safe_button_name_cons. constructor; [|done].
  destruct (is_separator c) eqn:Hc; done.
Qed.

Lemma safe_button_name_id s :
  Forall (λ c, is_separator c = false) s → Button.safe_button_name s = s.
Proof.
  induction 1 as [|c s Hc _ IH]; [done|].
  by rewrite safe_button_name_cons, Hc, IH.
Qed.

(** X12. The identifier of a button. The sanitised name has the length
    of the name and holds no space, dot or hyphen; a name without them
    is kept, so sanitising twice changes nothing more; two buttons of
    one entry get the same identifier exactly when their sanitised
    names agree, as those of [vol up] and [vol-up] do; and the
    identifiers of a fan, a thermostat, a button and a remote never
    coincide. *)
Theorem button_unique_id_properties (entry_id : str) :
  (∀ name,
     length (Button.safe_button_name name) = length name
     ∧ Forall (λ c, is_separator c = false) (Button.safe_button_name name)
     ∧ Button.safe_button_name (Button.safe_button_name name)
       = Button.safe_button_name name)
  ∧ (∀ name name',
       Button.unique_id entry_id name = Button.unique_id entry_id name'
       ↔ Button.safe_button_name name = Button.safe_button_name name')
  ∧ (lit "vol up" ≠ lit "vol-up"
     ∧ Button.unique_id entry_id (lit "vol up")
       = Button.unique_id entry_id (lit "vol-up"))
  ∧ (∀ e1 e2 e3 e4 name,
       Fan.unique_id e1 ≠ Climate.unique_id e2
       ∧ Fan.unique_id e1 ≠ Button.unique_id e3 name
       ∧ Fan.unique_id e1 ≠ Remote.unique_id e4
       ∧ Climate.unique_id e2 ≠ Button.unique_id e3 name
       ∧ Climate.unique_id e2 ≠ Remote.unique_id e4
       ∧ Button.unique_id e3 name ≠ Remote.unique_id e4).
Proof.
  split_and!.
  - intros name. split_and!.
    + unfold Button.safe_button_name. by rewrite !replace_char_length.
    + apply safe_button_name_clean.
    + apply safe_button_name_id, safe_button_name_clean.
  - intros name name'. unfold Button.unique_id. split.
    + by intros ?%app_inv_head%app_inv_head%app_inv_head.
    + by intros ->.
  - done.
  - unfold Button.unique_id.
    by replace (Button.safe_button_name (lit "vol up"))
      with (Button.safe_button_name (lit "vol-up")) by (by vm_compute).
  - intros e1 e2 e3 e4 name.
    unfold Fan.unique_id, Climate.unique_id, Button.unique_id, Remote.unique_id.
    split_and!; intros H; by vm_compute in H.
Qed.

Local Close Scope N_scope.

(** ** The remote's command lists *)

Section RemoteMore.

Variable net : network.

(** One known, complete command: one record of the key, one request,
    and the configuration as it was. *)
Lemma remote_send_known name code (w : world Remote.remote) :
  Remote.buttons (self w) !! name = Some code →
  complete_code code →
  ∃ evs b,
    Remote._send_ir_command net name w
    = (Ok tt, World (Remote.set_available b (self w)) (trace w ++ evs))
    ∧ sent_keys evs = [name]
    ∧ length (requests evs) = 1%nat.
Proof.
  intros Hcode ([protocol Hp] & [bits Hb] & [data Hd]).
  pose proof (quote_json_dumps (ir_data_of protocol bits data code)) as Hq.
  assert (H : wp (Remote._send_ir_command net name)
                (λ r w', ∃ evs b,
                   (r, w')
                   = (Ok tt, World (Remote.set_available b (self w)) (trace w ++ evs))
                   ∧ sent_keys evs = [name]
                   ∧ length (requests evs) = 1%nat) w).
  { unfold Remote._send_ir_command, Remote.send_ir_command_try,
      Remote.send_ir_command_except.
    wp_known; trace_norm; eexists _, _; (split; [reflexivity|]); split; reflexivity. }
  unfold wp in H. by rewrite <- surjective_pairing in H.
Qed.

Lemma remote_send_command_cons cmd commands (w : world Remote.remote) :
  Remote.async_send_command net (cmd :: commands) w
  = ((if contains (Remote.buttons (self w)) cmd
      then Remote._send_ir_command net cmd
      else log Warning (MsgNotFound cmd));;
     Remote.async_send_command net commands) w.
Proof. reflexivity. Qed.

(** X13. [async_send_command] works through its list in order. With
    complete codes it hands to the sender exactly the configured
    commands of the list, in the order of the list, makes one request
    for each of them and none for the others, whatever the network
    does, and returns. *)
Theorem remote_sends_known_commands_in_order
  (commands : list str) (w : world Remote.remote) :
  (∀ name code, Remote.buttons (self w) !! name = Some code → complete_code code) →
  (Remote.async_send_command net commands w).1 = Ok tt
  ∧ Remote.buttons (self (Remote.async_send_command net commands w).2)
    = Remote.buttons (self w)
  ∧ ∃ evs,
      trace (Remote.async_send_command net commands w).2 = trace w ++ evs
      ∧ sent_keys evs = List.filter (contains (Remote.buttons (self w))) commands
      ∧ length (requests evs) = length (sent_keys evs).
Proof.
  revert w. induction commands as [|cmd commands IH]; intros w Hcodes.
  - split_and!; [done..|]. exists []. by rewrite app_nil_r.
  - rewrite remote_send_command_cons. cbn [List.filter].
    destruct (Remote.buttons (self w) !! cmd) as [code|] eqn:Hcmd.
    + assert (Hk : contains (Remote.buttons (self w)) cmd = true)
        by (unfold contains; by rewrite Hcmd).
      rewrite !Hk.
      destruct (remote_send_known cmd code w Hcmd (Hcodes _ _ Hcmd))
        as (evs1 & b & Hrun & Hkeys & Hreq).
      unfold mbind, M_bind. rewrite Hrun.
      set (w1 := World (Remote.set_available b (self w)) (trace w ++ evs1)).
      destruct (IH w1 Hcodes) as (Hok & Hbuttons & evs2 & Htrace & Hkeys2 & Hreq2).
      split_and!; [done|done|]. exists (evs1 ++ evs2). split_and!.
      * rewrite Htrace. subst w1. cbn [trace]. by rewrite app_assoc.
      * unfold sent_keys in *. rewrite omap_app, Hkeys, Hkeys2. done.
      * unfold sent_keys, requests in *.
        rewrite !omap_app, !length_app, Hreq, Hreq2, Hkeys. done.
    + assert (Hk : contains (Remote.buttons (self w)) cmd = false)
        by (unfold contains; by rewrite Hcmd).
      rewrite !Hk. unfold mbind, M_bind, log, emit.
      set (w1 := World (self w) (trace w ++ [Log Warning (MsgNotFound cmd)])).
      destruct (IH w1 Hcodes) as (Hok & Hbuttons & evs2 & Htrace & Hkeys2 & Hreq2).
      split_and!; [done|done|]. exists (Log Warning (MsgNotFound cmd) :: evs2).
      split_and!; [|done|done].
      rewrite Htrace. subst w1. cbn [trace]. by rewrite <- app_assoc.
Qed.

(** X14. Sending a list of commands is sending its parts one after the
    other. *)
Theorem remote_send_command_app
  (commands commands' : list str) (w : world Remote.remote) :
  Remote.async_send_command net (commands ++ commands') w
  = (Remote.async_send_command net commands;;
     Remote.async_send_command net commands') w.
Proof.
  revert w. induction commands as [|cmd commands IH]; intros w; [done|].
  cbn [app]. unfold mbind, M_bind in *.
  rewrite (remote_send_command_cons cmd (commands ++ commands')),
    (remote_send_command_cons cmd commands).
  unfold mbind, M_bind.
  destruct ((if contains (Remote.buttons (self w)) cmd
             then Remote._send_ir_command net cmd
             else log Warning (MsgNotFound cmd)) w) as [[[]|e] w1]; [|reflexivity].
  apply IH.
Qed.

End RemoteMore.

Lemma nec_example_complete : complete_code nec_example.
Proof. split_and!; eexists; vm_compute; reflexivity. Qed.

Lemma remote_sends_known_commands_in_order_witness :
  (Remote.async_send_command net_down [lit "power"; lit "mute"; lit "power"]
     (World (Remote.init example_ip example_codes) [])).1 = Ok tt.
Proof.
  refine (proj1 (remote_sends_known_commands_in_order net_down
                   [lit "power"; lit "mute"; lit "power"]
                   (World (Remote.init example_ip example_codes) []) _)).
  intros name code Hcode. cbn [self Remote.init Remote.buttons] in Hcode.
  unfold example_codes in Hcode.
  apply lookup_insert_Some in Hcode as [[_ <-]|[_ Hcode]];
    [|apply lookup_insert_Some in Hcode as [[_ <-]|[_ Hcode]]];
    [apply nec_example_complete..|by rewrite lookup_empty in Hcode].
Defined.

(** ** How many requests a command makes *)

Section Budget.

Context {S : Type}.

Lemma at_most_bind {A B : Type} n k (m : M S A) (f : A → M S B) :
  at_most_requests n m → (∀ x, at_most_requests k (f x)) →
  at_most_requests (n + k) (m ≫= f).
Proof.
  intros Hm Hf w. unfold mbind, M_bind.
  destruct (Hm w) as (evs & Ht & Hn). destruct (m w) as [[x|e] w1]; cbn [snd] in *.
  - destruct (Hf x w1) as (evs' & Ht' & Hk). exists (evs ++ evs'). split.
    + by rewrite Ht', Ht, app_assoc.
    + unfold requests in *. rewrite omap_app, length_app. lia.
  - exists evs. split; [done|lia].
Qed.

Lemma at_most_get_self {B : Type} n (f : S → M S B) :
  (∀ me, at_most_requests n (f me)) → at_most_requests n (get_self ≫= f).
Proof. intros Hf w. apply (Hf (self w) w). Qed.

Lemma at_most_ret {A : Type} n (a : A) : at_most_requests (S:=S) n (mret a).
Proof. intros w. exists []. split; [by rewrite app_nil_r|cbn; lia]. Qed.

Lemma at_most_update n (f : S → S) : at_most_requests n (update f).
Proof. intros w. exists []. split; [by rewrite app_nil_r|cbn; lia]. Qed.

Lemma at_most_log n l msg : at_most_requests (S:=S) n (log l msg).
Proof. intros w. exists [Log l msg]. split; [done|cbn; lia]. Qed.

Lemma at_most_if {A : Type} n (b : bool) (m1 m2 : M S A) :
  at_most_requests n m1 → at_most_requests n m2 →
  at_most_requests n (if b then m1 else m2).
Proof. by destruct b. Qed.

Lemma at_most_send net set_av (m : M S unit) :
  (∀ w, wp m (λ r w', ∃ evs o, send_summary net set_av w r w' evs o) w) →
  at_most_requests 1 m.
Proof.
  intros Hm w. destruct (Hm w) as (evs & o & Hs). exists evs. split.
  - by destruct Hs.
  - eapply requests_exchange. by destruct Hs.
Qed.

Lemma at_most_probe net set_av (m : M S unit) :
  (∀ w, wp m (λ r w', ∃ url post, probe_summary net set_av w r w' url post) w) →
  at_most_requests 1 m.
Proof.
  intros Hm w. destruct (Hm w) as (url & post & Hs). eexists. split.
  - by destruct Hs.
  - cbn [requests omap list_omap]. fold (requests post).
    rewrite (requests_no_request post); [done|]. by destruct Hs.
Qed.

End Budget.

(** Composes the budget of a command from those of its parts; [known]
    closes the sends. *)
Ltac solve_at_most_with known :=
  repeat first
    [ known
    | apply at_most_ret
    | apply at_most_log
    | apply at_most_update
    | apply at_most_get_self; intros ?
    | apply at_most_if
    | apply (at_most_bind 1 0); [known|intros ?]
    | apply (at_most_bind 0); [|intros ?] ].

Section CommandBudget.

Variable net : network.

Lemma fan_send_at_most key : at_most_requests 1 (Fan._send_ir_command net key).
Proof.
  apply (at_most_send net Fan.set_available). intros w.
  eapply wp_mono; [apply fan_send_ir_command_summary|].
  intros r w' (evs & o & ? & _). eauto.
Qed.

Lemma remote_send_at_most name : at_most_requests 1 (Remote._send_ir_command net name).
Proof.
  apply (at_most_send net Remote.set_available),
    remote_send_ir_command_summary.
Qed.

(** X15. A command of the fan, of the thermostat or of a button makes at
    most one outbound request, whatever the configuration, the state
    and the network: the turn-on with a preset mode or a percentage
    sends that key alone, not [power] as well. The remote makes at most
    one request for each command of its list, and none to switch on or
    off. *)
Theorem commands_keep_their_request_budget :
  (∀ c, at_most_requests 1 (Fan.run net c))
  ∧ (∀ c, at_most_requests 1 (Climate.run net c))
  ∧ (∀ c, at_most_requests 1 (Button.run net c))
  ∧ (∀ c, at_most_requests (remote_budget c) (Remote.run net c)).
Proof.
  pose proof fan_send_at_most as Hfan.
  pose proof remote_send_at_most as Hremote.
  assert (Hclimate : at_most_requests 1 (Climate._send_hvac_command net)).
  { apply (at_most_send net Climate.set_available),
      climate_send_hvac_command_summary. }
  assert (Hoff : at_most_requests 1 (Fan.async_turn_off net)).
  { unfold Fan.async_turn_off. solve_at_most_with ltac:(apply Hfan). }
  assert (Hpct : ∀ p, at_most_requests 1 (Fan.async_set_percentage net p)).
  { intros p. unfold Fan.async_set_percentage.
    solve_at_most_with ltac:(first [apply Hoff | apply Hfan]). }
  assert (Hpre : ∀ m, at_most_requests 1 (Fan.async_set_preset_mode net m)).
  { intros m. unfold Fan.async_set_preset_mode. solve_at_most_with ltac:(apply Hfan). }
  split_and!.
  - intros [p m| | | |o|]; cbn [Fan.run]; auto.
    + unfold Fan.async_turn_on. destruct m, p; auto.
      solve_at_most_with ltac:(apply Hfan).
    + unfold Fan.async_oscillate. solve_at_most_with ltac:(apply Hfan).
    + apply (at_most_probe net Fan.set_available), fan_update_summary.
  - intros [[t|]| | | |]; cbn [Climate.run Climate.async_set_temperature].
    1-5: unfold Climate.async_set_hvac_mode, Climate.async_set_fan_mode,
           Climate.async_set_swing_mode; solve_at_most_with ltac:(apply Hclimate).
    apply (at_most_probe net Climate.set_available), climate_update_summary.
  - intros []; cbn [Button.run].
    + apply (at_most_send net Button.set_available), button_press_summary.
    + apply (at_most_probe net Button.set_available), button_update_summary.
  - intros [| |l|]; cbn [Remote.run remote_budget].
    + apply at_most_ret.
    + apply at_most_ret.
    + induction l as [|cmd l IH]; cbn [Remote.async_send_command length].
      * apply at_most_ret.
      * apply at_most_get_self. intros me.
        apply (at_most_bind 1 (length l)); [|intros _; exact IH].
        apply at_most_if; [apply Hremote|apply at_most_log].
    + apply (at_most_probe net Remote.set_available), remote_update_summary.
Qed.

End CommandBudget.

(** ** The set-up of an entry *)

Lemma setup_entry_cases (data : Setup.entry_data) :
  let t := default (lit "climate") (Setup.device_type data) in
  (t = lit "climate" ∧ Setup.async_setup_entry data = (true, [Setup.PClimate]))
  ∨ (t = lit "fan" ∧ Setup.async_setup_entry data = (true, [Setup.PFan]))
  ∨ (t = lit "remote" ∧ Setup.async_setup_entry data = (true, [Setup.PButton]))
  ∨ Setup.async_setup_entry data = (false, []).
Proof.
  unfold Setup.async_setup_entry. cbv zeta. repeat case_bool_decide; auto.
Qed.

Lemma unloaded_is_forwarded forward data entry_id domain :
  Setup.unloaded (Setup.async_unload_entry forward data entry_id domain)
  = (Setup.async_setup_entry data).2.
Proof.
  unfold Setup.async_unload_entry, Setup.async_setup_entry. cbv zeta.
  cbn [Setup.unloaded]. by repeat case_bool_decide.
Qed.

Lemma unload_ok_spec forward data entry_id domain :
  Setup.unload_ok (Setup.async_unload_entry forward data entry_id domain)
  = forallb (λ p, Setup.result_ok (forward p))
      (Setup.unloaded (Setup.async_unload_entry forward data entry_id domain))
  ∧ Setup.domain_data (Setup.async_unload_entry forward data entry_id domain)
    = if Setup.unload_ok (Setup.async_unload_entry forward data entry_id domain)
      then domain ∖ {[entry_id]} else domain.
Proof.
  unfold Setup.async_unload_entry. cbv zeta.
  cbn [Setup.unloaded Setup.unload_ok Setup.domain_data].
  by repeat case_bool_decide.
Qed.

Lemma unload_fails_when_raised (forward : Setup.platform → Setup.unload_result) ps :
  forallb (λ p, Setup.result_ok (forward p)) ps = false
  ↔ ∃ p e, p ∈ ps ∧ forward p = Setup.Raised e.
Proof.
  induction ps as [|a ps IH]; cbn [forallb].
  - split; [done|]. intros (p & e & Hin & _). by apply elem_of_nil in Hin.
  - rewrite andb_false_iff, IH. split.
    + intros [H|(p & e & Hin & Hf)].
      * destruct (forward a) as [[]|e] eqn:Hf; try done.
        exists a, e. split; [by left|done].
      * exists p, e. split; [by right|done].
    + intros (p & e & Hin & Hf). apply elem_of_cons in Hin as [->|Hin].
      * left. by rewrite Hf.
      * right. eauto.
Qed.

(** X16. The unload of an entry undoes its set-up: its own chain on the
    device type names exactly the platforms the set-up forwarded the
    entry to. The set-up fails exactly when it forwards to none, it
    never forwards to more than one platform, and never to the remote
    platform. The unload fails exactly when the host's unload of one of
    these platforms raised: a platform that returns [False] does not
    stop it. When it succeeds the entry id is gone from the domain's
    data and the other ids stay; when it fails the data are as they
    were. *)
Theorem unload_mirrors_setup
  (forward : Setup.platform → Setup.unload_result) (data : Setup.entry_data)
  (entry_id : str) (domain : gset str) :
  let out := Setup.async_unload_entry forward data entry_id domain in
  Setup.unloaded out = (Setup.async_setup_entry data).2
  ∧ ((Setup.async_setup_entry data).1 = false ↔ (Setup.async_setup_entry data).2 = [])
  ∧ (length (Setup.async_setup_entry data).2 ≤ 1)%nat
  ∧ (Setup.PRemote ∉ (Setup.async_setup_entry data).2)
  ∧ (Setup.unload_ok out = false
     ↔ ∃ p e, p ∈ Setup.unloaded out ∧ forward p = Setup.Raised e)
  ∧ (Setup.unload_ok out = true →
     ∀ id, id ∈ Setup.domain_data out ↔ (id ∈ domain ∧ id ≠ entry_id))
  ∧ (Setup.unload_ok out = false → Setup.domain_data out = domain).
Proof.
  intros out. subst out.
  destruct (unload_ok_spec forward data entry_id domain) as [Hok Hdomain].
  rewrite Hdomain, Hok, unloaded_is_forwarded. clear Hok Hdomain.
  split_and!.
  - done.
  - destruct (setup_entry_cases data) as [[_ ->]|[[_ ->]|[[_ ->]| ->]]]; done.
  - destruct (setup_entry_cases data) as [[_ ->]|[[_ ->]|[[_ ->]| ->]]]; cbn; lia.
  - destruct (setup_entry_cases data) as [[_ ->]|[[_ ->]|[[_ ->]| ->]]]; cbn [snd];
      try apply not_elem_of_nil;
      intros Hin; apply list_elem_of_singleton in Hin; discriminate.
  - apply unload_fails_when_raised.
  - intros ->. intros id. set_solver.
  - by intros ->.
Qed.

(** X17. The entities of an entry. An entry of the type climate gets
    one thermostat, with the vendor COOLIX unless it names one; an
    entry of the type fan one fan, with no codes and the default
    settings unless it has its own; an entry of the type remote one
    button for each of its buttons, in their order. An entry without a
    type is set up as a climate entry, successfully, but gets no
    entity: the platform reads the type without the default. No entry
    gets a remote entity. *)
Theorem entities_of_an_entry (data : Setup.entry_data) :
  (Setup.device_type data = Some (lit "climate") →
   Setup.entities_of data
   = [Setup.EClimate (Climate.init (Setup.device_ip data)
                        (default Setup.DEFAULT_VENDOR (Setup.vendor data)))])
  ∧ (Setup.device_type data = Some (lit "fan") →
     Setup.entities_of data
     = [Setup.EFan (Fan.init (Setup.device_ip data)
                      (default ∅ (Setup.ir_codes data))
                      (default (Fan.FanConfig None None None)
                         (Setup.fan_config data)))])
  ∧ (Setup.device_type data = Some (lit "remote") →
     Setup.entities_of data
     = List.map (λ kv, Setup.EButton (Button.init (Setup.device_ip data) kv.1 kv.2))
         (default [] (Setup.buttons data)))
  ∧ (Setup.device_type data = None →
     Setup.async_setup_entry data = (true, [Setup.PClimate])
     ∧ Setup.entities_of data = [])
  ∧ (∀ r, Setup.ERemote r ∉ Setup.entities_of data).
Proof.
  unfold Setup.entities_of.
  split_and!.
  - destruct data; cbn [Setup.device_type]; intros ->. by vm_compute.
  - destruct data; cbn [Setup.device_type]; intros ->. by vm_compute.
  - destruct data as [t ip v ic fc bs]; cbn [Setup.device_type]; intros ->.
    change (Setup.async_setup_entry _) with (true, [Setup.PButton]).
    cbn [snd flat_map Setup.platform_setup_entry Setup.device_type].
    rewrite app_nil_r. by rewrite bool_decide_eq_true_2.
  - destruct data; cbn [Setup.device_type]; intros ->. by vm_compute.
  - intros r.
    destruct (setup_entry_cases data) as [[_ ->]|[[_ ->]|[[_ ->]| ->]]];
      cbn [snd flat_map Setup.platform_setup_entry];
      [rewrite app_nil_r; case_bool_decide; try apply not_elem_of_nil..
      |apply not_elem_of_nil].
    + intros Hin. apply list_elem_of_singleton in Hin. discriminate.
    + intros Hin. apply list_elem_of_singleton in Hin. discriminate.
    + intros Hin. apply list_elem_of_fmap in Hin as (kv & Hkv & _). discriminate.
Qed.

Lemma entities_of_an_entry_witness :
  Setup.entities_of
    (Setup.EntryData (Some (lit "remote")) example_ip None None None
       (Some [(lit "power", nec_example); (lit "mute", nec_example)]))
  = [Setup.EButton (Button.init example_ip (lit "power") nec_example);
     Setup.EButton (Button.init example_ip (lit "mute") nec_example)].
Proof.
  exact (proj1 (proj2 (proj2 (entities_of_an_entry
                                (Setup.EntryData (Some (lit "remote")) example_ip
                                   None None None
                                   (Some [(lit "power", nec_example);
                                          (lit "mute", nec_example)])))))
           eq_refl).
Defined.
